(** * Daily Tcorr export: a shallow embedding of [tcorr_export_daily_image.py]

    The script has one function of interest, [main].  Its pieces are
    embedded below in the order in which [main] runs them; every
    definition cites the source lines it transcribes.  Python values are
    modelled as follows:

    - a [datetime] at midnight is a record of year, month and day over [Z],
      and the arithmetic of the [datetime] module ([toordinal], date
      difference, one-day steps) is written out;
    - strings are [string]; [<], [<=] and [>=] on strings are the
      lexicographic comparisons of [String.compare], as in Python;
    - dictionaries are [gmap], Python lists are [list];
    - exceptions are an error monad over a world that records every
      remote call. *)

From stdpp Require Import gmap strings list fin_maps sorting.
From Stdlib Require Import ZArith QArith Qround Qabs Lia Lqa Ascii String.

Local Open Scope string_scope.
Local Open Scope list_scope.
Local Open Scope Z_scope.

(** ** Strings *)

Definition str_lt (a b : string) : bool := String.ltb a b.
Definition str_le (a b : string) : bool := String.leb a b.
Definition str_ge (a b : string) : bool := String.leb b a.
Definition str_gt (a b : string) : bool := String.ltb b a.

(** [str.upper()] and [str.lower()] on ASCII letters. *)
Definition upper_char (c : ascii) : ascii :=
  let n := Ascii.N_of_ascii c in
  if ((97 <=? n) && (n <=? 122))%N then Ascii.ascii_of_N (n - 32) else c.

Definition lower_char (c : ascii) : ascii :=
  let n := Ascii.N_of_ascii c in
  if ((65 <=? n) && (n <=? 90))%N then Ascii.ascii_of_N (n + 32) else c.

Fixpoint str_map (f : ascii -> ascii) (s : string) : string :=
  match s with
  | EmptyString => EmptyString
  | String c s' => String (f c) (str_map f s')
  end.

Definition upper : string -> string := str_map upper_char.
Definition lower : string -> string := str_map lower_char.

(** ** The calendar of Python's [datetime] *)

Module Calendar.

Record datetime := mkdate { year : Z; month : Z; day : Z }.

Definition is_leap (y : Z) : bool :=
  (y mod 4 =? 0) && (negb (y mod 100 =? 0) || (y mod 400 =? 0)).

Definition days_in_month (y m : Z) : Z :=
  if m =? 2 then (if is_leap y then 29 else 28)
  else if (m =? 4) || (m =? 6) || (m =? 9) || (m =? 11) then 30
  else 31.

(** [_days_before_year]: days before January 1st of year [y]. *)
Definition days_before_year (y : Z) : Z :=
  let y' := y - 1 in y' * 365 + y' / 4 - y' / 100 + y' / 400.

(** [_DAYS_BEFORE_MONTH], for a common year. *)
Definition DAYS_BEFORE_MONTH (m : Z) : Z :=
  match m with
  | 1 => 0 | 2 => 31 | 3 => 59 | 4 => 90 | 5 => 120 | 6 => 151
  | 7 => 181 | 8 => 212 | 9 => 243 | 10 => 273 | 11 => 304 | _ => 334
  end.

Definition days_before_month (y m : Z) : Z :=
  DAYS_BEFORE_MONTH m + (if (2 <? m) && is_leap y then 1 else 0).

(** [datetime.toordinal()]: January 1st of year 1 is day 1. *)
Definition toordinal (d : datetime) : Z :=
  days_before_year (year d) + days_before_month (year d) (month d) + day d.

(** [(a - b).days] for two midnights. *)
Definition days_between (a b : datetime) : Z := toordinal a - toordinal b.

(** [d + datetime.timedelta(days=1)]. *)
Definition next_day (d : datetime) : datetime :=
  if day d <? days_in_month (year d) (month d)
  then mkdate (year d) (month d) (day d + 1)
  else if month d <? 12 then mkdate (year d) (month d + 1) 1
  else mkdate (year d + 1) 1 1.

(** The dates [datetime] can hold. *)
Definition valid (d : datetime) : Prop :=
  1 <= year d <= 9999 /\ 1 <= month d <= 12 /\
  1 <= day d <= days_in_month (year d) (month d).

(** Chronological order on the fields. *)
Definition compare (a b : datetime) : comparison :=
  match year a ?= year b with
  | Eq => match month a ?= month b with
          | Eq => day a ?= day b
          | r => r
          end
  | r => r
  end.

Definition ltb (a b : datetime) : bool :=
  match compare a b with Lt => true | _ => false end.
Definition leb (a b : datetime) : bool :=
  match compare a b with Gt => false | _ => true end.

(** *** [strftime] *)

Definition digit (n : Z) : ascii := Ascii.ascii_of_N (48 + Z.to_N (n mod 10)).

(** ['%Y']: the decimal digits of the year.  The C library does not pad
    them, so a year has four digits only from the year 1000 on (the year
    999 prints as [999]). *)
Definition year_digits (y : Z) (rest : string) : string :=
  if y <? 10 then String (digit y) rest
  else if y <? 100 then String (digit (y / 10)) (String (digit y) rest)
  else if y <? 1000 then
    String (digit (y / 100)) (String (digit (y / 10)) (String (digit y) rest))
  else
    String (digit (y / 1000)) (String (digit (y / 100))
    (String (digit (y / 10)) (String (digit y) rest))).

(** ['%Y-%m-%d']: the year, then month and day zero-padded to width 2. *)
Definition strftime_iso (d : datetime) : string :=
  year_digits (year d)
  (String "-"%char (String (digit (month d / 10)) (String (digit (month d))
  (String "-"%char (String (digit (day d / 10)) (String (digit (day d))
   EmptyString)))))).

(** ['%Y%m%d']. *)
Definition strftime_compact (d : datetime) : string :=
  year_digits (year d)
  (String (digit (month d / 10)) (String (digit (month d))
  (String (digit (day d / 10)) (String (digit (day d))
   EmptyString)))).

(** [int(d.strftime('%j'))]: the day of the year. *)
Definition day_of_year (d : datetime) : Z :=
  days_before_month (year d) (month d) + day d.

(** *** [strptime] with ['%Y-%m-%d']

    The year has to come with four digits; the month and the day may
    come with one digit or two, and the day with a space in front of its
    one digit.  Of the forms a field can take the first that fits is taken
    ([1[0-2]], [0[1-9]], [[1-9]] for the month; [3[01]], [[12][0-9]],
    [0[1-9]], [[1-9]], a space and [[1-9]] for the day), and nothing may
    follow the day. *)

Definition digit_val (c : ascii) : option Z :=
  let n := Ascii.N_of_ascii c in
  if ((48 <=? n) && (n <=? 57))%N then Some (Z.of_N n - 48) else None.

Definition parse_month (s : string) : option (Z * string) :=
  match s with
  | String a (String b rest) =>
      match digit_val a, digit_val b with
      | Some 1, Some v => if v <=? 2 then Some (10 + v, rest) else Some (1, String b rest)
      | Some 0, Some v => if 1 <=? v then Some (v, rest) else None
      | Some 0, None => None
      | Some u, _ => Some (u, String b rest)
      | None, _ => None
      end
  | String a EmptyString =>
      match digit_val a with
      | Some u => if 1 <=? u then Some (u, EmptyString) else None
      | None => None
      end
  | EmptyString => None
  end.

Definition parse_day (s : string) : option (Z * string) :=
  match s with
  | String a (String b rest) =>
      match digit_val a, digit_val b with
      | Some 3, Some v => if v <=? 1 then Some (30 + v, rest) else Some (3, String b rest)
      | Some 0, Some v => if 1 <=? v then Some (v, rest) else None
      | Some 0, None => None
      | Some u, Some v =>
          if u <=? 2 then Some (10 * u + v, rest) else Some (u, String b rest)
      | Some u, None => Some (u, String b rest)
      | None, Some v =>
          if Ascii.eqb a " " && (1 <=? v) then Some (v, rest) else None
      | None, None => None
      end
  | String a EmptyString =>
      match digit_val a with
      | Some u => if 1 <=? u then Some (u, EmptyString) else None
      | None => None
      end
  | EmptyString => None
  end.

Definition strptime_iso (s : string) : option datetime :=
  match s with
  | String y3 (String y2 (String y1 (String y0 (String "-"%char rest)))) =>
      y3 ← digit_val y3; y2 ← digit_val y2; y1 ← digit_val y1;
      y0 ← digit_val y0;
      '(m, rest) ← parse_month rest;
      match rest with
      | String "-"%char rest =>
          '(dd, rest) ← parse_day rest;
          match rest with
          | EmptyString =>
              let d := mkdate (1000 * y3 + 100 * y2 + 10 * y1 + y0) m dd in
              if (1 <=? year d) && (1 <=? month d) && (month d <=? 12) &&
                 (1 <=? day d) && (day d <=? days_in_month (year d) (month d))
              then Some d else None
          | _ => None
          end
      | _ => None
      end
  | _ => None
  end.

(** [ee.Date(d).millis()] and [utils.millis]: milliseconds since
    1970-01-01T00:00 UTC. *)
Definition millis (d : datetime) : Z :=
  days_between d (mkdate 1970 1 1) * 86400000.

End Calendar.

(** ** Rasters

    An image band is a partial function from pixels to numbers; a pixel
    where it is [None] is masked.  Numbers are rationals: the claims proved
    here concern masks, counts and comparisons, not rounding. *)

Definition pixel : Type := Z * Z.
Definition raster : Type := pixel -> option Q.
Definition geometry : Type := pixel -> bool.

(** [image.add(number)]. *)
Definition raster_add (r : raster) (x : Q) : raster :=
  fun p => match r p with Some v => Some (v + x)%Q | None => None end.

(** [image.clip(geometry)]. *)
Definition raster_clip (r : raster) (g : geometry) : raster :=
  fun p => if g p then r p else None.

(** [image.updateMask(0)]: a zero mask leaves no valid pixel. *)
Definition raster_updateMask0 (r : raster) : raster := fun _ => None.

Definition Qsum (l : list Q) : Q := foldr Qplus 0%Q l.

(** [collection.mean()]: at every pixel the mean of the images that are
    valid there; masked where none is. *)
Definition raster_mean (rs : list raster) : raster :=
  fun p =>
    match omap (M := list) (fun r : raster => r p) rs with
    | [] => None
    | vs => Some (Qsum vs / inject_Z (Z.of_nat (List.length vs)))%Q
    end.

Definition Qltb (a b : Q) : bool := negb (Qle_bool b a).

(** ** Floating point

    Python's [float] is an IEEE 754 double.  A finite double is the
    rational it denotes, and an operation gives the exact result rounded
    to the nearest double, ties to the even significand; [None] stands
    for a result beyond the largest double, where the operation gives
    [inf]. *)

Module Double.

Definition pow2 (e : Z) : Q :=
  if 0 <=? e then inject_Z (2 ^ e) else (1 / inject_Z (2 ^ (- e)))%Q.

(** The exponent of a positive rational: [pow2 (ilog2 a) <= a < pow2 (ilog2 a + 1)]. *)
Definition ilog2 (a : Q) : Z :=
  let k := Z.log2 (Qnum a) - Z.log2 (Zpos (Qden a)) in
  if Qle_bool (pow2 k) a then k else k - 1.

Definition round_half_even (q : Q) : Z :=
  let f := Qfloor q in
  match (q - inject_Z f ?= 1 # 2)%Q with
  | Lt => f
  | Gt => f + 1
  | Eq => if Z.even f then f else f + 1
  end.

(** The largest double. *)
Definition max_value : Q := (inject_Z (2 ^ 53 - 1) * pow2 971)%Q.

(** Rounding to 53 significant bits, the spacing never below [pow2 (-1074)]
    (subnormal numbers). *)
Definition round (q : Q) : option Q :=
  if Qeq_bool q 0 then Some 0%Q
  else
    let a := Qabs q in
    let e := Z.max (ilog2 a - 52) (-1074) in
    let r := Qred (inject_Z (round_half_even (a / pow2 e)) * pow2 e)%Q in
    if Qle_bool r max_value
    then Some (if Qle_bool 0 q then r else (- r)%Q)
    else None.

(** [float(n)] for an integer, [x * y] and [x / y] (with [y] not zero). *)
Definition of_int (n : Z) : option Q := round (inject_Z n).
Definition mul (x y : Q) : option Q := round (x * y).
Definition div (x y : Q) : option Q := round (x / y).

End Double.

(** ** Exceptions, the world and the monad of [main] *)

Inductive exn :=
| KeyError (key : string)
| ValueError (msg : string)
| IndexError
| ZeroDivisionError
| UnboundLocalError (name : string)
| OverflowError
| EEException
| SystemExit (status : option Z).

Inductive result (A : Type) :=
| Ok (a : A)
| Raise (e : exn).
Arguments Ok {A} a.
Arguments Raise {A} e.

(** What the interpreter reports to the shell when [main] ends: 0 after a
    normal return and after [sys.exit()] with no argument, the given
    status after [sys.exit(n)], 1 after an uncaught exception. *)
Definition exit_status {A} (r : result A) : Z :=
  match r with
  | Ok _ => 0
  | Raise (SystemExit None) => 0
  | Raise (SystemExit (Some n)) => n
  | Raise _ => 1
  end.

(** The image attached to an export task: the raster and the properties
    set at lines 363-379. *)
Record daily_image := {
  img_raster : raster;
  img_time_start : Z;
  img_date_ingested : string;
  img_date : string;
  img_year : Z;
  img_month : Z;
  img_day : Z;
  img_doy : Z;
  img_cycle_day : Z;
  img_landsat : string;
  img_model_name : string;
  img_model_version : string;
  img_tmax_source : string;
  img_tmax_version : string;
  img_wrs2_tiles : string
}.

(** The export grid of lines 85-115. *)
Record export_grid := {
  export_crs : string;
  export_geo : list Q;
  export_shape : Z * Z
}.

(** Calls to the remote service.  An image is a description evaluated by
    the service when the task runs; [None] stands for a description whose
    evaluation fails there. *)
Inductive remote_call :=
| Initialize (key : option string)
| GetInfo (collection_id : string)
| ListAssets (collection_id : string)
| ListTasks
| CancelTask (task_id : nat)
| DeleteAsset (asset_id : string)
| StartExport (description asset_id : string) (image : option daily_image)
              (grid : export_grid).

(** Informational and debug messages are not recorded. *)
Inductive event :=
| LogError (msg : string)
| LogWarning (msg : string)
| Called (c : remote_call).

(** Modelled from the spec: the remote job/artifact store of section 6,
    which [ee.data] and the missing [utils] module talk to.  A job is
    pending from its submission until the service completes it. *)
Record job := {
  job_id : nat;
  job_description : string;
  job_asset : string
}.

Record store := {
  pending : list job;
  assets : list string;
  next_id : nat
}.

Definition store_apply (c : remote_call) (st : store) : store :=
  match c with
  | CancelTask i =>
      {| pending := filter (fun j => job_id j ≠ i) (pending st);
         assets := assets st; next_id := next_id st |}
  | DeleteAsset a =>
      {| pending := pending st;
         assets := filter (fun x => x ≠ a) (assets st);
         next_id := next_id st |}
  | StartExport d a _ _ =>
      {| pending := pending st ++
           [ {| job_id := next_id st; job_description := d; job_asset := a |} ];
         assets := assets st; next_id := S (next_id st) |}
  | _ => st
  end.

(** The listings of the store: [listArtifacts(collectionId)] and
    [listPendingJobs()], from job name to job handle. *)
Definition listArtifacts (coll_id : string) (st : store) : list string :=
  List.filter (String.prefix (coll_id +:+ "/")) (assets st).

Definition listPendingJobs (st : store) : gmap string nat :=
  list_to_map ((fun j => (job_description j, job_id j)) <$> pending st).

(** The service completing one pending job: the job leaves the task list
    and its asset appears. *)
Inductive completes : store -> store -> Prop :=
| completes_job st pre j post :
    pending st = pre ++ j :: post ->
    completes st {| pending := pre ++ post;
                    assets := job_asset j :: assets st;
                    next_id := next_id st |}.

(** The world: the remote store, which of the calls made to the service
    fail (by position in the sequence of calls), how many calls were made,
    and the record of what happened. *)
Record world := {
  remote : store;
  failing : nat -> bool;
  calls : nat;
  trace : list event
}.

Definition M (A : Type) : Type := world -> result A * world.

Definition ret {A} (a : A) : M A := fun w => (Ok a, w).
Definition raise {A} (e : exn) : M A := fun w => (Raise e, w).
Definition bind {A B} (m : M A) (k : A -> M B) : M B :=
  fun w => match m w with
           | (Ok a, w') => k a w'
           | (Raise e, w') => (Raise e, w')
           end.

Declare Scope py_scope.
Delimit Scope py_scope with py.
Notation "x <- m ;; k" := (bind m (fun x => k))
  (at level 100, m at next level, right associativity) : py_scope.
Notation "m ;;; k" := (bind m (fun _ => k))
  (at level 100, right associativity) : py_scope.

Definition emit (e : event) : M unit :=
  fun w => (Ok tt, {| remote := remote w; failing := failing w;
                      calls := calls w; trace := trace w ++ [e] |}).

(** A call to the service: it either raises or takes effect. *)
Definition call (c : remote_call) : M unit :=
  fun w =>
    if failing w (calls w)
    then (Raise EEException,
          {| remote := remote w; failing := failing w;
             calls := S (calls w); trace := trace w |})
    else (Ok tt,
          {| remote := store_apply c (remote w); failing := failing w;
             calls := S (calls w); trace := trace w ++ [Called c] |}).

Definition get_store : M store := fun w => (Ok (remote w), w).

(** [x[k]] on a dictionary. *)
Definition getitem {V} (d : gmap string V) (k : string) : M V :=
  match d !! k with
  | Some v => ret v
  | None => raise (KeyError k)
  end.

(** Reading a local variable of [main]: [None] until a value is assigned
    to it. *)
Definition load_var {V} (name : string) (v : option V) : M V :=
  match v with
  | Some x => ret x
  | None => raise (UnboundLocalError name)
  end.

(** [try: m except: h], with a handler for every exception. *)
Definition try_except {A} (m : M A) (h : exn -> M A) : M A :=
  fun w => match m w with
           | (Ok a, w') => (Ok a, w')
           | (Raise e, w') => h e w'
           end.

(** ** String operations used by [main] *)

(** Splitting on one delimiter character; every occurrence separates two
    components, so a string with [n] delimiters has [n + 1] components. *)
Fixpoint split_on (sep : ascii) (s : string) : list string :=
  match s with
  | EmptyString => [EmptyString]
  | String c s' =>
      if Ascii.eqb c sep then EmptyString :: split_on sep s'
      else match split_on sep s' with
           | [] => [String c EmptyString]
           | h :: t => String c h :: t
           end
  end.

(** [s.split(sep, 1)]: at most one split, at the first delimiter. *)
Fixpoint split_once (sep : ascii) (s : string) : list string :=
  match s with
  | EmptyString => [EmptyString]
  | String c s' =>
      if Ascii.eqb c sep then [EmptyString; s']
      else match split_once sep s' with
           | [] => [String c EmptyString]
           | h :: t => String c h :: t
           end
  end.

Fixpoint join (sep : string) (l : list string) : string :=
  match l with
  | [] => EmptyString
  | [x] => x
  | x :: t => x +:+ sep +:+ join sep t
  end.

(** [ee.List.slice(-n)]: the last [n] elements, all of them when the list
    is shorter. *)
Definition slice_last {A} (n : nat) (l : list A) : list A :=
  drop (List.length l - n)%nat l.

(** [ee.String.slice(start, end)]: the characters at positions
    [start .. end - 1], fewer when the string is shorter. *)
Definition str_slice (start stop : nat) (s : string) : string :=
  substring start (stop - start) s.

(** [template.format] with keyword arguments, for templates whose replacement fields are
    plain [{name}]; an unknown name is a [KeyError], an unclosed field a
    [ValueError]. *)
Fixpoint format_go (fields : gmap string string) (s : string)
    (field : option string) : result string :=
  match s, field with
  | EmptyString, None => Ok EmptyString
  | EmptyString, Some _ => Raise (ValueError "expected '}' before end of string")
  | String c s', None =>
      if Ascii.eqb c "{" then format_go fields s' (Some EmptyString)
      else match format_go fields s' None with
           | Ok r => Ok (String c r)
           | Raise e => Raise e
           end
  | String c s', Some name =>
      if Ascii.eqb c "}" then
        match fields !! name with
        | Some v => match format_go fields s' None with
                    | Ok r => Ok (v +:+ r)
                    | Raise e => Raise e
                    end
        | None => Raise (KeyError name)
        end
      else format_go fields s' (Some (name +:+ String c EmptyString))
  end.

Definition format (template : string) (fields : gmap string string) : M string :=
  match format_go fields template None with
  | Ok r => ret r
  | Raise e => raise e
  end.

(** Insertion sort on strings, the order of [ee.Dictionary.keys()]. *)
Fixpoint insert_sorted (x : string) (l : list string) : list string :=
  match l with
  | [] => [x]
  | y :: t => if str_le x y then x :: l else y :: insert_sorted x t
  end.

Definition sort_strings (l : list string) : list string :=
  foldr insert_sorted [] l.

(** [collection.aggregate_histogram(property)]: how often each value
    occurs. *)
Definition aggregate_histogram (values : list string) : gmap string nat :=
  foldr (fun v h => <[ v := S (default 0%nat (h !! v)) ]> h) ∅ values.

Definition dict_keys {V} (d : gmap string V) : list string :=
  sort_strings (fst <$> map_to_list d).

(** ** Scenes and the configuration *)

(** One Landsat image of the catalogue, with the properties [main] reads. *)
Record scene := {
  system_index : string;
  system_time_start : Z;
  CLOUD_COVER_LAND : Q;
  DATA_TYPE : string;
  SPACECRAFT_ID : string;
  footprint : geometry
}.

(** The image [tcorr_img_func] returns for a scene (lines 303-313). *)
Record tcorr_image := {
  ti_raster : raster;
  ti_time_start : Z;
  ti_scene_id : string;
  ti_wrs2_tile : string;
  ti_spacecraft_id : string;
  ti_tcorr : Q;
  ti_count : Q
}.

(** The result of [utils.read_ini]: sections of keys. *)
Abbreviation ini_file := (gmap string (gmap string string)).

Definition ini_get (ini : ini_file) (section key : string) : M string :=
  (s <- getitem ini section ;; getitem s key)%py.

(** [collection.merge]: the elements of both, the indices of the first
    prefixed with [1_] and those of the second with [2_]. *)
Definition reindex (prefix : string) (s : scene) : scene :=
  {| system_index := prefix +:+ system_index s;
     system_time_start := system_time_start s;
     CLOUD_COVER_LAND := CLOUD_COVER_LAND s;
     DATA_TYPE := DATA_TYPE s;
     SPACECRAFT_ID := SPACECRAFT_ID s;
     footprint := footprint s |}.

Definition merge (c1 c2 : list scene) : list scene :=
  (reindex "1_" <$> c1) ++ (reindex "2_" <$> c2).

(** ** Source selector (lines 264-273) *)

Inductive era := L5_alone | L7_L5_merged | L7_alone | L8_L7_merged.

Definition era_of (export_date : string) : era :=
  if str_lt export_date "1999-01-01" then L5_alone
  else if str_le export_date "2011-12-31" then L7_L5_merged
  else if str_le export_date "2013-03-24" then L7_alone
  else L8_L7_merged.

Definition era_collection (e : era) (l5_coll l7_coll l8_coll : list scene)
  : list scene :=
  match e with
  | L5_alone => l5_coll
  | L7_L5_merged => merge l7_coll l5_coll
  | L7_alone => l7_coll
  | L8_L7_merged => merge l8_coll l7_coll
  end.

(** ** The pipeline *)

(** The first image of a Tmax collection, as far as [main] looks at it. *)
Record tmax_image := {
  tmax_band0 : raster;
  tmax_geometry : geometry;
  tmax_grid : export_grid
}.

(** The local variables of [main] that the date loop reads, together with
    the arguments of [main] and the clock. *)
Record locals := {
  ini : ini_file;
  overwrite_flag : bool;
  today : Calendar.datetime;
  model_name : string;
  tmax_name : string;
  tmax_source : string;
  tmax_version : string;
  tcorr_daily_coll_id : string;
  tmax_mask : raster;
  tmax_mask_geometry : geometry;
  grid : export_grid;
  asset_list : list string;
  tasks : gmap string nat;
  month_list : list Z;
  year_list : list Z;
  cycle_base_dt : Calendar.datetime
}.

Section Pipeline.

(** The builtin [float] on strings. *)
Variable py_float : string -> option Q.
(** [ssebop.Image.from_landsat_c1_toa(image, tdiff_threshold).tcorr_stats]:
    the statistical model, a dictionary that may lack either key. *)
Variable tcorr_stats : scene -> Q -> gmap string Q.
Variable ssebop_version : string.
(** [ee.ImageCollection(id)]: the catalogue. *)
Variable ImageCollection : string -> list scene.
(** Whether a scene's footprint meets a geometry ([filterBounds]). *)
Variable intersects : geometry -> geometry -> bool.

Definition float (s : string) : M Q :=
  match py_float s with
  | Some q => ret q
  | None => raise (ValueError s)
  end.

(** *** Calendar (lines 146-198, 372) *)

(** Lines 149-158. *)
Definition cycle_dates : gmap Z string :=
  {[ 7 := "1970-01-01"; 8 := "1970-01-02"; 1 := "1970-01-03";
     2 := "1970-01-04"; 3 := "1970-01-05"; 4 := "1970-01-06";
     5 := "1970-01-07"; 6 := "1970-01-08" ]}.

(** Line 372. *)
Definition cycle_day (cycle_base_dt export_dt : Calendar.datetime) : Z :=
  (Calendar.days_between export_dt cycle_base_dt) mod 8 + 1.

(** Lines 187-198: whether the loop moves on to the next date without
    looking at the date any further. *)
Definition calendar_skip (L : locals) (export_dt : Calendar.datetime) : bool :=
  let export_date := Calendar.strftime_iso export_dt in
  if (negb (bool_decide (month_list L = [])) &&
        negb (bool_decide (Calendar.month export_dt ∈ month_list L)))
     || (negb (bool_decide (year_list L = [])) &&
        negb (bool_decide (Calendar.year export_dt ∈ year_list L)))
  then true
  else if str_ge export_date (Calendar.strftime_iso (today L)) then true
  else if str_lt export_date "1984-03-23" then true
  else false.

(** *** Source selector: the three filtered collections (lines 235-256) *)

Definition common_filters (L : locals) (cloud_cover : Q)
    (export_dt : Calendar.datetime) (s : scene) : bool :=
  (Calendar.millis export_dt <=? system_time_start s)
  && (system_time_start s <? Calendar.millis (Calendar.next_day export_dt))
  && intersects (footprint s) (tmax_mask_geometry L)
  && Qltb (CLOUD_COVER_LAND s) cloud_cover
  && String.eqb (DATA_TYPE s) "L1TP".

Definition l8_coll (L : locals) (cloud_cover : Q) (export_dt : Calendar.datetime) :=
  List.filter
    (fun s => common_filters L cloud_cover export_dt s
              && (Calendar.millis (Calendar.mkdate 2013 3 24) <? system_time_start s))
    (ImageCollection "LANDSAT/LC08/C01/T1_RT_TOA").

Definition l7_coll (L : locals) (cloud_cover : Q) (export_dt : Calendar.datetime) :=
  List.filter (common_filters L cloud_cover export_dt)
    (ImageCollection "LANDSAT/LE07/C01/T1_RT_TOA").

Definition l5_coll (L : locals) (cloud_cover : Q) (export_dt : Calendar.datetime) :=
  List.filter
    (fun s => common_filters L cloud_cover export_dt s
              && (system_time_start s <? Calendar.millis (Calendar.mkdate 2011 12 31)))
    (ImageCollection "LANDSAT/LT05/C01/T1_TOA").

Definition landsat_coll (L : locals) (cloud_cover : Q)
    (export_dt : Calendar.datetime) : list scene :=
  era_collection (era_of (Calendar.strftime_iso export_dt))
    (l5_coll L cloud_cover export_dt) (l7_coll L cloud_cover export_dt)
    (l8_coll L cloud_cover export_dt).

(** *** Scene corrector: [tcorr_img_func] (lines 278-313) *)

(** Lines 283-285: [combine] with [overwrite=False] keeps the model's
    entries and adds the defaults for the keys it lacks. *)
Definition with_defaults (t_stats : gmap string Q) : gmap string Q :=
  t_stats ∪ {[ "tcorr_p5" := 0%Q; "tcorr_count" := 0%Q ]}.

(** Lines 291-296; [get] on a list fails past its end. *)
Definition scene_id_of (index : string) : option string :=
  let parts := slice_last 3 (split_on "_" index) in
  p0 ← parts !! 0%nat; p1 ← parts !! 1%nat; p2 ← parts !! 2%nat;
  Some (p0 +:+ "_" +:+ p1 +:+ "_" +:+ p2).

(** Line 309. *)
Definition wrs2_tile_of (scene_id : string) : string := str_slice 5 11 scene_id.

Definition tcorr_img_func (L : locals) (tdiff_threshold : Q) (image : scene)
  : option tcorr_image :=
  let t_stats := with_defaults (tcorr_stats image tdiff_threshold) in
  tcorr ← t_stats !! "tcorr_p5";
  count ← t_stats !! "tcorr_count";
  scene_id ← scene_id_of (system_index image);
  Some {| ti_raster := raster_clip (raster_add (tmax_mask L) tcorr) (footprint image);
          ti_time_start := system_time_start image;
          ti_scene_id := scene_id;
          ti_wrs2_tile := wrs2_tile_of scene_id;
          ti_spacecraft_id := SPACECRAFT_ID image;
          ti_tcorr := tcorr;
          ti_count := count |}.

(** Lines 321-323: [not_less_than] keeps an image unless its count is
    less than the threshold. *)
Definition tcorr_img_coll (L : locals) (tdiff_threshold min_pixel_count : Q)
    (coll : list scene) : option (list tcorr_image) :=
  imgs ← mapM (tcorr_img_func L tdiff_threshold) coll;
  Some (List.filter (fun i => negb (Qltb (ti_count i) min_pixel_count)) imgs).

(** *** Daily aggregator (lines 328-379) *)

(** Lines 330-333. *)
Definition tcorr_img (L : locals) (coll : list tcorr_image) : raster :=
  if (0 <? Z.of_nat (List.length coll))
  then raster_mean (ti_raster <$> coll)
  else raster_updateMask0 (tmax_mask L).

(** Lines 342-344. *)
Definition unique_properties (coll : list tcorr_image)
    (property : tcorr_image -> string) : string :=
  join "," (dict_keys (aggregate_histogram (property <$> coll))).

Definition daily_tcorr_image (L : locals) (export_dt : Calendar.datetime)
    (coll : list tcorr_image) : daily_image :=
  let wrs2_tile_list := EmptyString +:+ unique_properties coll ti_wrs2_tile in
  let landsat_list := EmptyString +:+ unique_properties coll ti_spacecraft_id in
  {| img_raster := tcorr_img L coll;
     img_time_start := Calendar.millis export_dt;
     img_date_ingested := Calendar.strftime_iso (today L);
     img_date := Calendar.strftime_iso export_dt;
     img_year := Calendar.year export_dt;
     img_month := Calendar.month export_dt;
     img_day := Calendar.day export_dt;
     img_doy := Calendar.day_of_year export_dt;
     img_cycle_day := cycle_day (cycle_base_dt L) export_dt;
     img_landsat := landsat_list;
     img_model_name := model_name L;
     img_model_version := ssebop_version;
     img_tmax_source := upper (tmax_source L);
     img_tmax_version := upper (tmax_version L);
     img_wrs2_tiles := wrs2_tile_list |}.

(** Lines 232-379 for one date: the description of the daily image. *)
Definition build_image (L : locals) (export_dt : Calendar.datetime)
    (cloud_cover tdiff_threshold min_pixel_count : Q) : option daily_image :=
  daily_tcorr_image L export_dt <$>
    tcorr_img_coll L tdiff_threshold min_pixel_count
      (landsat_coll L cloud_cover export_dt).

(** *** Export reconciler (lines 200-230) *)

(** Lines 200-204. *)
Definition export_id_of (L : locals) (export_dt : Calendar.datetime) : M string :=
  (fmt <- ini_get (ini L) "EXPORT" "export_id_fmt" ;;
   dest <- ini_get (ini L) "EXPORT" "export_dest" ;;
   format fmt {[ "product" := lower (tmax_name L);
                 "date" := Calendar.strftime_compact export_dt;
                 "export" := lower dest ]})%py.

(** Lines 207-211: [asset_id] is assigned only when the destination is
    spelled [ASSET]. *)
Definition asset_id_of (L : locals) (export_dt : Calendar.datetime)
  : M (option string) :=
  (dest <- ini_get (ini L) "EXPORT" "export_dest" ;;
   ret (if String.eqb dest "ASSET"
        then Some (tcorr_daily_coll_id L +:+ "/"
                   +:+ Calendar.strftime_compact export_dt)
        else None))%py.

(** Lines 213-230.  The result says whether the loop body goes on
    ([true]) or [continue]s with the next date ([false]). *)
Definition reconcile (L : locals) (export_id : string)
    (asset_id : option string) : M bool :=
  (if overwrite_flag L then
     (if bool_decide (is_Some (tasks L !! export_id))
      then (t <- getitem (tasks L) export_id ;; call (CancelTask t))
      else ret tt) ;;;
     dest <- ini_get (ini L) "EXPORT" "export_dest" ;;
     (if String.eqb (upper dest) "ASSET"
      then (a <- load_var "asset_id" asset_id ;;
            if bool_decide (a ∈ asset_list L)
            then call (DeleteAsset a) else ret tt)
      else ret tt) ;;;
     ret true
   else
     if bool_decide (is_Some (tasks L !! export_id)) then ret false
     else
       dest <- ini_get (ini L) "EXPORT" "export_dest" ;;
       if String.eqb (upper dest) "ASSET"
       then (a <- load_var "asset_id" asset_id ;;
             if bool_decide (a ∈ asset_list L) then ret false else ret true)
       else ret true)%py.

(** *** Submission (lines 383-395)

    [utils.ee_task_start] is not part of the sources at hand; it is
    taken to start the task with one call to the service.  The pause of
    [utils.delay_task] has no effect on the world and is left out. *)
Definition submit (L : locals) (export_id : string)
    (asset_id : option string) (image : option daily_image) : M unit :=
  (dest <- ini_get (ini L) "EXPORT" "export_dest" ;;
   if String.eqb dest "ASSET"
   then (a <- load_var "asset_id" asset_id ;;
         call (StartExport export_id a image (grid L)))
   else ret tt)%py.

(** *** The body of the date loop (lines 186-399) *)

Definition process_date (L : locals) (export_dt : Calendar.datetime) : M unit :=
  (if calendar_skip L export_dt then ret tt
   else
     export_id <- export_id_of L export_dt ;;
     asset_id <- asset_id_of L export_dt ;;
     go_on <- reconcile L export_id asset_id ;;
     if negb go_on then ret tt
     else
       cloud_cover <- (s <- ini_get (ini L) "INPUTS" "cloud_cover" ;; float s) ;;
       tdiff_threshold <-
         (s <- ini_get (ini L) (model_name L) "tdiff_threshold" ;; float s) ;;
       min_pixel_count <-
         (s <- ini_get (ini L) "TCORR" "min_pixel_count" ;; float s) ;;
       submit L export_id asset_id
         (build_image L export_dt cloud_cover tdiff_threshold min_pixel_count))%py.

(** Line 185: the [for] loop; an exception raised by the body leaves the
    loop. *)
Fixpoint date_loop (L : locals) (dates : list Calendar.datetime) : M unit :=
  match dates with
  | [] => ret tt
  | export_dt :: rest =>
      (process_date L export_dt ;;; date_loop L rest)%py
  end.

(** *** The part of [utils] that [main] calls *)

(** [utils.parse_int_set], which is not part of the sources at hand. *)
Variable parse_int_set : string -> option (list Z).

(** The first image of the Tmax collection, as the service reports it. *)
Variable tmax_first : string -> option tmax_image.

(** Modelled from the spec: [utils.date_range], the Calendar's
    [enumerate(start, end)], inclusive of both endpoints and increasing
    by one day. *)
Fixpoint date_range_from (n : nat) (d : Calendar.datetime)
  : list Calendar.datetime :=
  match n with
  | O => []
  | S n' => d :: date_range_from n' (Calendar.next_day d)
  end.

Definition date_range (start_dt end_dt : Calendar.datetime)
  : list Calendar.datetime :=
  date_range_from (Z.to_nat (Calendar.days_between end_dt start_dt + 1)) start_dt.

(** Modelled from the spec: [utils.get_ee_assets], one call for the
    store's [listArtifacts(collectionId)]. *)
Definition get_ee_assets (coll_id : string) : M (list string) :=
  (call (ListAssets coll_id) ;;;
   st <- get_store ;;
   ret (listArtifacts coll_id st))%py.

(** Modelled from the spec: [utils.get_ee_tasks], one call for the
    store's [listPendingJobs()]. *)
Definition get_ee_tasks : M (gmap string nat) :=
  (call ListTasks ;;;
   st <- get_store ;;
   ret (listPendingJobs st))%py.

Definition strptime (s : string) : M Calendar.datetime :=
  match Calendar.strptime_iso s with
  | Some d => ret d
  | None => raise (ValueError s)
  end.

Definition getidx {A} (l : list A) (i : nat) : M A :=
  match l !! i with
  | Some x => ret x
  | None => raise IndexError
  end.

(** *** [main] *)

(** Lines 108-109: [int(math.ceil(abs((n * geo) / export_cs)))] on
    doubles.  The integer is converted to a double first (too large an
    integer is an [OverflowError]); a product or a quotient that
    overflows is [inf], which [math.ceil] refuses with an
    [OverflowError]; dividing by zero is a [ZeroDivisionError] whatever
    the dividend. *)
Definition cells (n : Z) (geo export_cs : Q) : M Z :=
  match Double.of_int n with
  | None => raise OverflowError
  | Some x =>
      let product := Double.mul x geo in
      if Qeq_bool export_cs 0 then raise ZeroDivisionError
      else
        match product with
        | None => raise OverflowError
        | Some p =>
            match Double.div p export_cs with
            | None => raise OverflowError
            | Some q => ret (Qceiling (Qabs q))
            end
        end
  end.

(** Lines 103-115: the optional [cell_size]; only a missing key is
    caught.  [py_float] gives the finite double a string denotes. *)
Definition resize_grid (ini : ini_file) (g : export_grid) : M export_grid :=
  match ini !! "EXPORT" ≫= (fun s => s !! "cell_size") with
  | None => ret g
  | Some cs_str =>
      (export_cs <- float cs_str ;;
       geo0 <- getidx (export_geo g) 0 ;;
       width <- cells (fst (export_shape g)) geo0 export_cs ;;
       geo4 <- getidx (export_geo g) 4 ;;
       height <- cells (snd (export_shape g)) geo4 export_cs ;;
       geo2 <- getidx (export_geo g) 2 ;;
       geo5 <- getidx (export_geo g) 5 ;;
       ret {| export_crs := export_crs g;
              export_geo := [export_cs; 0; geo2; 0; - export_cs; geo5]%Q;
              export_shape := (width, height) |})%py
  end.

(** Lines 132-144: a list of integers from the [TCORR] section, or the
    default when anything goes wrong. *)
Definition int_list (ini : ini_file) (key : string) (dflt : list Z) : M (list Z) :=
  try_except
    (s <- ini_get ini "TCORR" key ;;
     match parse_int_set s with
     | Some l => ret (merge_sort Z.le (remove_dups l))
     | None => raise (ValueError s)
     end)%py
    (fun _ => ret dflt).

(** Lines 73-399, entered with the collection identifier of lines 70-71. *)
Definition main_from_line_73 (ini : ini_file) (overwrite_flag : bool)
    (clock : Calendar.datetime) (model_name tcorr_daily_coll_id : string)
  : M unit :=
  (tmax_name <- ini_get ini model_name "tmax_source" ;;
   tmax_source <- getidx (split_once "_" tmax_name) 0 ;;
   tmax_version <- getidx (split_once "_" tmax_name) 1 ;;
   let tmax_coll_id := "projects/usgs-ssebop/tmax/" +:+ lower tmax_name in
   call (GetInfo tmax_coll_id) ;;;
   first <- match tmax_first tmax_coll_id with
            | Some i => ret i
            | None => raise EEException
            end ;;
   call (GetInfo tmax_coll_id) ;;;
   call (GetInfo tmax_coll_id) ;;;
   let tmax_mask : raster :=
     fun p => match tmax_band0 first p with
              | Some v => Some (v * 0)%Q
              | None => None
              end in
   export_grid <- resize_grid ini (tmax_grid first) ;;
   dest <- ini_get ini "EXPORT" "export_dest" ;;
   asset_list <- (if String.eqb (upper dest) "ASSET"
                  then get_ee_assets tcorr_daily_coll_id
                  else raise (ValueError ("invalid export destination: " +:+ dest))) ;;
   tasks <- get_ee_tasks ;;
   month_list <- int_list ini "months" (seqZ 1 12) ;;
   year_list <- int_list ini "years" [] ;;
   cycle_base_dt <- match cycle_dates !! 1 with
                    | Some s => strptime s
                    | None => raise (KeyError "1")
                    end ;;
   start_date <- ini_get ini "INPUTS" "start_date" ;;
   iter_start_dt <- strptime start_date ;;
   end_date <- ini_get ini "INPUTS" "end_date" ;;
   iter_end_dt <- strptime end_date ;;
   date_loop
     {| ini := ini; overwrite_flag := overwrite_flag; today := clock;
        model_name := model_name; tmax_name := tmax_name;
        tmax_source := tmax_source; tmax_version := tmax_version;
        tcorr_daily_coll_id := tcorr_daily_coll_id;
        tmax_mask := tmax_mask; tmax_mask_geometry := tmax_geometry first;
        grid := export_grid; asset_list := asset_list; tasks := tasks;
        month_list := month_list; year_list := year_list;
        cycle_base_dt := cycle_base_dt |}
     (date_range iter_start_dt iter_end_dt))%py.

(** Lines 36-71.  [ini] is what [utils.read_ini(ini_path)] returned and
    [clock] the date of the system clock.  At lines 70-71 no assignment
    to the local variable [tmax_name] has run yet: its first one is at
    line 75. *)
Definition main (ini : ini_file) (overwrite_flag : bool)
    (key : option string) (clock : Calendar.datetime) : M unit :=
  (let model_name := "SSEBOP" in
   let tmax_name : option string := None in
   source <- ini_get ini model_name "tmax_source" ;;
   cimis <- (if String.eqb (upper source) "CIMIS"
             then (end_date <- ini_get ini "INPUTS" "end_date" ;;
                   ret (str_lt end_date "2003-10-01"))
             else ret false) ;;
   if cimis then
     emit (LogError "CIMIS is not currently available before 2003-10-01, exiting") ;;;
     raise (SystemExit None)
   else
     source' <- ini_get ini model_name "tmax_source" ;;
     daymet <- (if String.eqb (upper source') "DAYMET"
                then (end_date <- ini_get ini "INPUTS" "end_date" ;;
                      ret (str_gt end_date "2017-12-31"))
                else ret false) ;;
     (if daymet then
        emit (LogWarning
          "DAYMET is not currently available past 2017-12-31, using median Tmax values")
      else ret tt) ;;;
     call (Initialize key) ;;;
     export_coll <- ini_get ini "EXPORT" "export_coll" ;;
     name <- load_var "tmax_name" tmax_name ;;
     let tcorr_daily_coll_id := export_coll +:+ "/" +:+ lower name +:+ "_daily" in
     main_from_line_73 ini overwrite_flag clock model_name tcorr_daily_coll_id)%py.

End Pipeline.

(** ** Definitions used to state the properties *)

(** Linear arithmetic with division and remainder by constants. *)
Ltac divmod := Z.div_mod_to_equations; lia.

(** Whether a character occurs in a string. *)
Fixpoint contains (c : ascii) (s : string) : bool :=
  match s with
  | EmptyString => false
  | String x s' => Ascii.eqb x c || contains c s'
  end.




(** What a run did to the remote store, read off the trace. *)
Inductive action :=
| Cancel (task_id : nat)
| Delete (asset_id : string)
| Submit (description asset_id : string).

Definition action_of (e : event) : option action :=
  match e with
  | Called (CancelTask i) => Some (Cancel i)
  | Called (DeleteAsset a) => Some (Delete a)
  | Called (StartExport d a _ _) => Some (Submit d a)
  | _ => None
  end.

Definition actions (tr : list event) : list action :=
  omap (M := list) action_of tr.

Definition is_submit (a : action) : bool :=
  match a with Submit _ _ => true | _ => false end.

Definition submissions (tr : list event) : list action :=
  List.filter is_submit (actions tr).

(** The images handed to the service, in order. *)
Definition exported_images (tr : list event) : list (option daily_image) :=
  omap (M := list)
    (fun e => match e with
              | Called (StartExport _ _ i _) => Some i
              | _ => None
              end) tr.

(** A computation that neither cancels, deletes nor submits. *)
Definition quiet {A} (m : M A) : Prop :=
  forall w r w', m w = (r, w') -> actions (trace w') = actions (trace w).

(** A computation that ends in an exception from every world. *)
Definition always_raises {A} (m : M A) : Prop :=
  forall w, exists e, fst (m w) = Raise e.

(** A service that never fails. *)
Definition reliable (w : world) : Prop := forall n, failing w n = false.

(** ** A small configuration and catalogue

    Concrete inputs on which the definitions above are run. *)

Module Sample.

Fixpoint digits_value (s : string) (acc : Z) : option Z :=
  match s with
  | EmptyString => Some acc
  | String c s' =>
      match Calendar.digit_val c with
      | Some v => digits_value s' (10 * acc + v)
      | None => None
      end
  end.

(** [float] on strings of decimal digits. *)
Definition float_of_digits (s : string) : option Q :=
  match s with
  | EmptyString => None
  | _ => inject_Z <$> digits_value s 0
  end.

Definition config (tmax_source end_date export_dest min_pixel_count : string)
  : ini_file :=
  {[ "SSEBOP" := ({[ "tmax_source" := tmax_source;
                     "tdiff_threshold" := "15" ]} : gmap string string);
     "INPUTS" := {[ "start_date" := "2020-01-01";
                    "end_date" := end_date;
                    "cloud_cover" := "70" ]};
     "EXPORT" := {[ "export_coll" := "projects/usgs-ssebop/tcorr";
                    "export_dest" := export_dest;
                    "export_id_fmt" := "tcorr_{product}_{date}_{export}" ]};
     "TCORR" := {[ "min_pixel_count" := min_pixel_count ]} ]}.

Definition ini0 : ini_file :=
  config "topowx_median_v0" "2020-01-03" "ASSET" "20".

(** One Landsat 8 scene on 2020-01-02, path 44 row 33. *)
Definition scene_20200102 : scene :=
  {| system_index := "LC08_044033_20200102";
     system_time_start :=
       Calendar.millis (Calendar.mkdate 2020 1 2) + 18 * 3600000;
     CLOUD_COVER_LAND := 10%Q;
     DATA_TYPE := "L1TP";
     SPACECRAFT_ID := "LANDSAT_8";
     footprint := fun p => (0 <=? fst p) && (fst p <? 10) |}.

Definition catalogue (id : string) : list scene :=
  if String.eqb id "LANDSAT/LC08/C01/T1_RT_TOA" then [scene_20200102] else [].

(** A model that finds a correction of 1.5 on 50 pixels. *)
Definition stats (s : scene) (tdiff_threshold : Q) : gmap string Q :=
  {[ "tcorr_p5" := (3 # 2)%Q; "tcorr_count" := 50%Q ]}.

(** A model that finds nothing. *)
Definition no_stats (s : scene) (tdiff_threshold : Q) : gmap string Q := ∅.

Definition grid0 : export_grid :=
  {| export_crs := "EPSG:4326";
     export_geo := [(1 # 24); 0; -125; 0; -(1 # 24); 50]%Q;
     export_shape := (1440, 624) |}.

Definition tmax0 : tmax_image :=
  {| tmax_band0 := fun p => if (0 <=? snd p) then Some (300%Q) else None;
     tmax_geometry := fun _ => true;
     tmax_grid := grid0 |}.

Definition locals0 (ini : ini_file) (overwrite : bool)
    (tasks : gmap string nat) (asset_list : list string) : locals :=
  {| ini := ini; overwrite_flag := overwrite;
     today := Calendar.mkdate 2020 6 1;
     model_name := "SSEBOP";
     tmax_name := "topowx_median_v0";
     tmax_source := "topowx"; tmax_version := "median_v0";
     tcorr_daily_coll_id := "projects/usgs-ssebop/tcorr/topowx_median_v0_daily";
     tmax_mask := fun p => if (0 <=? snd p) then Some 0%Q else None;
     tmax_mask_geometry := fun _ => true;
     grid := grid0; asset_list := asset_list; tasks := tasks;
     month_list := seqZ 1 12; year_list := [];
     cycle_base_dt := Calendar.mkdate 1970 1 3 |}.

Definition empty_store : store :=
  {| pending := []; assets := []; next_id := 0 |}.

Definition world0 (st : store) (fails : nat -> bool) : world :=
  {| remote := st; failing := fails; calls := 0; trace := [] |}.

Definition never : nat -> bool := fun _ => false.

(** A service that fails the first call made to it. *)
Definition first_call_fails : nat -> bool := fun n => (n =? 0)%nat.

Definition run_date (L : locals) (d : Calendar.datetime) : M unit :=
  process_date float_of_digits stats "0.1.0" catalogue (fun _ _ => true) L d.

Definition run_loop (L : locals) (ds : list Calendar.datetime) : M unit :=
  date_loop float_of_digits stats "0.1.0" catalogue (fun _ _ => true) L ds.

Definition jan (d : Z) : Calendar.datetime := Calendar.mkdate 2020 1 d.

Definition export_id (d : string) : string :=
  "tcorr_topowx_median_v0_" +:+ d +:+ "_asset".
Definition asset_id (d : string) : string :=
  "projects/usgs-ssebop/tcorr/topowx_median_v0_daily/" +:+ d.

End Sample.

(** ** Definitions used to state the reconciler's properties *)

(** [ini[section][key]] when both exist. *)
Definition config_value (ini : ini_file) (section key : string) : option string :=
  ini !! section ≫= (fun s => s !! key).

(** A configuration under which the loop body can run for a date: the
    destination is spelled [ASSET], the export identifier formats to
    [export_id], the asset identifier is [asset_id], and the three numbers
    read on the way to the export are there and parse. *)
Definition configured (py_float : string -> option Q) (L : locals)
    (export_dt : Calendar.datetime) (export_id asset_id : string) : Prop :=
  exists fmt cc td mp,
    config_value (ini L) "EXPORT" "export_dest" = Some "ASSET" /\
    config_value (ini L) "EXPORT" "export_id_fmt" = Some fmt /\
    format_go {[ "product" := lower (tmax_name L);
                 "date" := Calendar.strftime_compact export_dt;
                 "export" := lower "ASSET" ]} fmt None = Ok export_id /\
    asset_id = tcorr_daily_coll_id L +:+ "/" +:+ Calendar.strftime_compact export_dt /\
    config_value (ini L) "INPUTS" "cloud_cover" ≫= py_float = Some cc /\
    config_value (ini L) (model_name L) "tdiff_threshold" ≫= py_float = Some td /\
    config_value (ini L) "TCORR" "min_pixel_count" ≫= py_float = Some mp.

(** The states of an export target and the decision table of the
    specification (section 4.5), written out row by row: what is done to
    the store for each state and each value of [overwrite]; the empty list
    is Skip. *)
Inductive target_state :=
| Unpublished
| JobPending
| ArtifactPresent
| JobPendingAndArtifactPresent.

Definition state_of (has_pending_job has_existing_artifact : bool) : target_state :=
  match has_pending_job, has_existing_artifact with
  | false, false => Unpublished
  | true, false => JobPending
  | false, true => ArtifactPresent
  | true, true => JobPendingAndArtifactPresent
  end.

Definition decision_table (st : target_state) (overwrite : bool)
    (cancel_job delete_artifact submit : action) : list action :=
  match st, overwrite with
  | Unpublished, false => [submit]
  | Unpublished, true => [submit]
  | JobPending, false => []
  | JobPending, true => [cancel_job; submit]
  | ArtifactPresent, false => []
  | ArtifactPresent, true => [delete_artifact; submit]
  | JobPendingAndArtifactPresent, false => []
  | JobPendingAndArtifactPresent, true => [cancel_job; delete_artifact; submit]
  end.

(** The state of a date's export target in the listings of a run. *)
Definition target_state_of (L : locals) (export_id asset_id : string) : target_state :=
  state_of (bool_decide (is_Some (tasks L !! export_id)))
           (bool_decide (asset_id ∈ asset_list L)).

(** ** A run from the listings on

    Lines 117-127 followed by the loop of line 185, the local variables
    bound elsewhere in [main] being given by [L]: the listings of [L] are
    replaced by what the service reports at the start of the run. *)

Definition with_listings (L : locals) (asset_list : list string)
    (tasks : gmap string nat) : locals :=
  {| ini := ini L; overwrite_flag := overwrite_flag L; today := today L;
     model_name := model_name L; tmax_name := tmax_name L;
     tmax_source := tmax_source L; tmax_version := tmax_version L;
     tcorr_daily_coll_id := tcorr_daily_coll_id L;
     tmax_mask := tmax_mask L; tmax_mask_geometry := tmax_mask_geometry L;
     grid := grid L; asset_list := asset_list; tasks := tasks;
     month_list := month_list L; year_list := year_list L;
     cycle_base_dt := cycle_base_dt L |}.

(** The same run started on another day. *)
Definition with_today (L : locals) (clock : Calendar.datetime) : locals :=
  {| ini := ini L; overwrite_flag := overwrite_flag L; today := clock;
     model_name := model_name L; tmax_name := tmax_name L;
     tmax_source := tmax_source L; tmax_version := tmax_version L;
     tcorr_daily_coll_id := tcorr_daily_coll_id L;
     tmax_mask := tmax_mask L; tmax_mask_geometry := tmax_mask_geometry L;
     grid := grid L; asset_list := asset_list L; tasks := tasks L;
     month_list := month_list L; year_list := year_list L;
     cycle_base_dt := cycle_base_dt L |}.

Section Run.
Variable py_float : string -> option Q.
Variable tcorr_stats : scene -> Q -> gmap string Q.
Variable ssebop_version : string.
Variable ImageCollection : string -> list scene.
Variable intersects : geometry -> geometry -> bool.

Definition run (L : locals) (dates : list Calendar.datetime) : M unit :=
  (dest <- ini_get (ini L) "EXPORT" "export_dest" ;;
   asset_list <- (if String.eqb (upper dest) "ASSET"
                  then get_ee_assets (tcorr_daily_coll_id L)
                  else raise (ValueError ("invalid export destination: " +:+ dest))) ;;
   tasks <- get_ee_tasks ;;
   date_loop py_float tcorr_stats ssebop_version ImageCollection intersects
     (with_listings L asset_list tasks) dates)%py.
End Run.

(** The world after a call that the service carried out. *)
Definition after_call (c : remote_call) (w : world) : world :=
  {| remote := store_apply c (remote w); failing := failing w;
     calls := S (calls w); trace := trace w ++ [Called c] |}.

(** ** Definitions used to state idempotence *)

(** The identifiers lines 200-211 compute for a date, as values: the
    export identifier when the template formats, and the asset identifier
    of a destination spelled [ASSET]. *)
Definition export_id_for (L : locals) (export_dt : Calendar.datetime) : option string :=
  fmt ← config_value (ini L) "EXPORT" "export_id_fmt";
  dest ← config_value (ini L) "EXPORT" "export_dest";
  match format_go {[ "product" := lower (tmax_name L);
                     "date" := Calendar.strftime_compact export_dt;
                     "export" := lower dest ]} fmt None with
  | Ok x => Some x
  | Raise _ => None
  end.

Definition asset_id_for (L : locals) (export_dt : Calendar.datetime) : string :=
  tcorr_daily_coll_id L +:+ "/" +:+ Calendar.strftime_compact export_dt.

(** A date is covered in a store when its export is pending there or its
    asset exists there. *)
Definition covered (L : locals) (st : store) (export_dt : Calendar.datetime) : Prop :=
  exists X, export_id_for L export_dt = Some X /\
    ((exists j, j ∈ pending st /\ job_description j = X /\
                job_asset j = asset_id_for L export_dt)
     \/ asset_id_for L export_dt ∈ assets st).

(** The jobs pending under the export identifier of a date of the range
    export that date's asset. *)
Definition jobs_match (L : locals) (dates : list Calendar.datetime) (st : store) : Prop :=
  forall j d, j ∈ pending st -> d ∈ dates ->
    export_id_for L d = Some (job_description j) ->
    job_asset j = asset_id_for L d.

(** Two runs over 2020-01-01 and 2020-01-02: the store after the first
    run and after the service has completed the job of 2020-01-01. *)
Module SampleRuns.

Definition L0 : locals := Sample.locals0 Sample.ini0 false ∅ [].

Definition dates : list Calendar.datetime := [Sample.jan 1; Sample.jan 2].

Definition run_from (L : locals) : M unit :=
  run Sample.float_of_digits Sample.stats "0.1.0" Sample.catalogue
    (fun _ _ => true) L dates.

Definition run_main (ini : ini_file) (overwrite : bool) : M unit :=
  main Sample.float_of_digits Sample.stats "0.1.0" Sample.catalogue
    (fun _ _ => true) (fun _ => None) (fun _ => Some Sample.tmax0)
    ini overwrite None (Calendar.mkdate 2020 6 1).

(** The CIMIS source with a range that ends before 2003-10-01. *)
Definition ini_cimis : ini_file :=
  Sample.config "CIMIS" "2003-09-30" "ASSET" "20".

Definition job_of (i : nat) (d : string) : job :=
  {| job_id := i; job_description := Sample.export_id d;
     job_asset := Sample.asset_id d |}.

Definition store_after_first_run : store :=
  {| pending := [job_of 0 "20200101"; job_of 1 "20200102"];
     assets := []; next_id := 2 |}.

Definition store_one_completed : store :=
  {| pending := [] ++ [job_of 1 "20200102"];
     assets := job_asset (job_of 0 "20200101") :: assets store_after_first_run;
     next_id := next_id store_after_first_run |}.

End SampleRuns.

(** Scene images with a constant value everywhere. *)
Module SampleRasters.

Definition image_with (v : Q) : tcorr_image :=
  {| ti_raster := fun _ => Some v; ti_time_start := 0;
     ti_scene_id := "LC08_044033_20200102"; ti_wrs2_tile := "044033";
     ti_spacecraft_id := "LANDSAT_8"; ti_tcorr := v; ti_count := 50 |}.

End SampleRasters.

(** A computation that never ends in [SystemExit]. *)
Definition never_exits {A} (m : M A) : Prop :=
  forall w r w', m w = (r, w') -> forall status, r <> Raise (SystemExit status).

(** Configurations with a destination that is not supported or not
    spelled [ASSET], and without a cloud cover. *)
Module SampleSettings.

Definition ini_drive : ini_file :=
  Sample.config "topowx_median_v0" "2020-01-03" "DRIVE" "20".

Definition ini_lower_case : ini_file :=
  Sample.config "topowx_median_v0" "2020-01-03" "asset" "20".

(** The settings of [Sample.ini0] without the cloud cover. *)
Definition ini_no_cloud_cover : ini_file :=
  <[ "INPUTS" := ({[ "start_date" := "2020-01-01";
                     "end_date" := "2020-01-03" ]} : gmap string string) ]>
    Sample.ini0.

End SampleSettings.

(** A computation that only inspects the service: every call of it that
    took effect is a [getInfo] request, and no error or warning is
    logged. *)
Definition only_inspects {A} (m : M A) : Prop :=
  forall w r w', m w = (r, w') ->
    exists ids, trace w' = trace w ++ ((fun id => Called (GetInfo id)) <$> ids).

(** The calls a date makes to the service: [ee.data.cancelTask],
    [ee.data.deleteAsset] and the start of the export task. *)
Definition store_call (c : remote_call) : Prop :=
  match c with
  | CancelTask _ | DeleteAsset _ | StartExport _ _ _ _ => True
  | _ => False
  end.

(** A computation with no handler around its calls to the service: a
    call that the service fails is the last thing it does, and it ends in
    the exception of that call. *)
Definition fail_stop {A} (m : M A) : Prop :=
  forall w r w', m w = (r, w') ->
    failing w' = failing w /\ (calls w <= calls w')%nat /\
    forall n, (calls w <= n < calls w')%nat -> failing w n = true ->
      r = Raise EEException /\ calls w' = S n /\
      exists c wm, store_call c /\ calls wm = n /\
                   call c wm = (Raise EEException, w').

(** Runs with [overwrite] over 2020-01-02, whose export is pending and
    whose asset exists, and 2020-01-03; reruns of [SampleRuns.L0] on
    another day and beside a job of another collection. *)
Module SampleFailures.

Definition L_overwrite : locals :=
  Sample.locals0 Sample.ini0 true
    {[ Sample.export_id "20200102" := 7%nat ]} [Sample.asset_id "20200102"].

(** A service that fails the second call made to it. *)
Definition second_call_fails : nat -> bool := fun n => (n =? 1)%nat.

(** As [L_overwrite], the destination written [asset]. *)
Definition L_lower_case (overwrite : bool) (tasks : gmap string nat) : locals :=
  Sample.locals0 SampleSettings.ini_lower_case overwrite tasks [].

(** A job pending under the export identifier of 2020-01-01 that exports
    to another collection. *)
Definition other_job : job :=
  {| job_id := 5; job_description := Sample.export_id "20200101";
     job_asset := "projects/other/tcorr/20200101" |}.

Definition store_other_job : store :=
  {| pending := [other_job]; assets := []; next_id := 6 |}.

(** After a first run beside [other_job], which the service has then
    completed. *)
Definition store_other_completed : store :=
  {| pending := [] ++ [ {| job_id := 6; job_description := Sample.export_id "20200102";
                           job_asset := Sample.asset_id "20200102" |} ];
     assets := [job_asset other_job]; next_id := 7 |}.

End SampleFailures.
(** * Properties *)

(** The year 999 prints with three digits, and [strptime] does not take
    the string back. *)
Example strftime_iso_year_999 :
  Calendar.strftime_iso (Calendar.mkdate 999 1 1) = "999-01-01" /\
  Calendar.strptime_iso "999-01-01" = None /\
  Calendar.strftime_compact (Calendar.mkdate 999 1 1) = "9990101".
Proof. repeat split; reflexivity. Qed.

(** In doubles ten cells of width 0.1 are one cell of width 1: the
    product of 10 and the double nearest to 0.1 rounds to 1, although
    that double is above one tenth. *)
Example cells_ex :
  (1 # 10 < 3602879701896397 # 36028797018963968)%Q /\
  Double.round (1 # 10) = Some (3602879701896397 # 36028797018963968)%Q /\
  forall w, cells 10 (3602879701896397 # 36028797018963968) 1 w = (Ok 1, w).
Proof. split; [reflexivity|]. split; [vm_compute; reflexivity|]. intros w. reflexivity. Qed.

Example strftime_iso_ex :
  Calendar.strftime_iso (Calendar.mkdate 2011 12 31) = "2011-12-31".
Proof. reflexivity. Qed.

Example strptime_iso_ex :
  Calendar.strptime_iso "1970-01-03" = Some (Calendar.mkdate 1970 1 3).
Proof. reflexivity. Qed.

Example toordinal_ex :
  Calendar.toordinal (Calendar.mkdate 1970 1 1) = 719163.
Proof. reflexivity. Qed.

Example format_ex :
  format_go {[ "product" := "topowx_median_v0"; "date" := "20170716";
               "export" := "asset" ]}
            "tcorr_{product}_{date}_{export}" None
  = Ok "tcorr_topowx_median_v0_20170716_asset".
Proof. vm_compute. reflexivity. Qed.

Example split_on_ex :
  split_on "_" "1_2_LE07_044033_20170716"
  = ["1"; "2"; "LE07"; "044033"; "20170716"].
Proof. reflexivity. Qed.

Example split_once_ex :
  split_once "_" "topowx_median_v0" = ["topowx"; "median_v0"].
Proof. reflexivity. Qed.


(** ** String order and date order *)

Section DateOrder.
Import Calendar.

Lemma digit_code (n : Z) : Ascii.N_of_ascii (digit n) = (48 + Z.to_N (n mod 10))%N.
Proof.
  unfold digit. apply Ascii.N_ascii_embedding.
  pose proof (Z.mod_pos_bound n 10 ltac:(lia)). lia.
Qed.






(** From the year 1000 on the year has its four digits. *)
Lemma year_digits_four (y : Z) (rest : string) :
  1000 <= y ->
  year_digits y rest =
    String (digit (y / 1000)) (String (digit (y / 100))
    (String (digit (y / 10)) (String (digit y) rest))).
Proof.
  intros Hy. unfold year_digits.
  destruct (Z.ltb_spec y 10); [lia|].
  destruct (Z.ltb_spec y 100); [lia|].
  destruct (Z.ltb_spec y 1000); [lia|]. reflexivity.
Qed.




End DateOrder.

(** ** Ordinals *)

Section Ordinals.
Import Calendar.

Lemma days_before_year_succ (y : Z) :
  days_before_year (y + 1) = days_before_year y + (if is_leap y then 366 else 365).
Proof.
  unfold days_before_year, is_leap.
  replace (y + 1 - 1) with y by lia.
  destruct (Z.eqb_spec (y mod 4) 0), (Z.eqb_spec (y mod 100) 0),
    (Z.eqb_spec (y mod 400) 0); cbn; divmod.
Qed.

Lemma days_before_year_mono (y y' : Z) :
  y <= y' -> days_before_year y <= days_before_year y'.
Proof. unfold days_before_year. intros. divmod. Qed.

Lemma month_cases (m : Z) :
  1 <= m <= 12 ->
  m = 1 \/ m = 2 \/ m = 3 \/ m = 4 \/ m = 5 \/ m = 6 \/
  m = 7 \/ m = 8 \/ m = 9 \/ m = 10 \/ m = 11 \/ m = 12.
Proof. lia. Qed.

Ltac months m H :=
  destruct (month_cases m H) as [?|[?|[?|[?|[?|[?|[?|[?|[?|[?|[?|?]]]]]]]]]]];
  subst m.

Lemma days_before_month_succ (y m : Z) :
  1 <= m <= 11 ->
  days_before_month y (m + 1) = days_before_month y m + days_in_month y m.
Proof.
  intros H. assert (1 <= m <= 12) as H' by lia.
  unfold days_before_month, days_in_month.
  months m H'; try lia; destruct (is_leap y); reflexivity.
Qed.

Lemma day_of_year_bounds (d : datetime) :
  valid d -> 1 <= day_of_year d <= (if is_leap (year d) then 366 else 365).
Proof.
  destruct d as [y m dd]. unfold valid, day_of_year. cbn.
  intros (Hy & Hm & Hd). revert Hd.
  unfold days_before_month, days_in_month.
  months m Hm; destruct (is_leap y); cbn; lia.
Qed.

Lemma toordinal_day_of_year (d : datetime) :
  toordinal d = days_before_year (year d) + day_of_year d.
Proof. unfold toordinal, day_of_year. lia. Qed.

(** The order of the fields is the order of the ordinals. *)
Lemma compare_toordinal (a b : datetime) :
  valid a -> valid b ->
  Calendar.compare a b = (toordinal a ?= toordinal b).
Proof.
  intros Ha Hb.
  pose proof (day_of_year_bounds a Ha) as Ba.
  pose proof (day_of_year_bounds b Hb) as Bb.
  rewrite !toordinal_day_of_year.
  pose proof (days_before_year_succ (year a)) as Sa.
  pose proof (days_before_year_succ (year b)) as Sb.
  unfold Calendar.compare.
  destruct (Z.compare_spec (year a) (year b)) as [Ey|Ey|Ey].
  - rewrite Ey, Z.add_compare_mono_l.
    destruct a as [ya ma da], b as [yb mb db]; cbn in *. subst yb.
    destruct Ha as (_ & Hma & Hda), Hb as (_ & Hmb & Hdb). cbn in *.
    unfold day_of_year, days_before_month, days_in_month in *. cbn in *.
    destruct (Z.compare_spec ma mb) as [Em|Em|Em].
    + subst. symmetry. apply Z.add_compare_mono_l.
    + symmetry. apply Z.compare_lt_iff.
      months ma Hma; months mb Hmb; try lia; destruct (is_leap ya); cbn in *; lia.
    + symmetry. apply Z.compare_gt_iff.
      months ma Hma; months mb Hmb; try lia; destruct (is_leap ya); cbn in *; lia.
  - symmetry. apply Z.compare_lt_iff.
    pose proof (days_before_year_mono (year a + 1) (year b) ltac:(lia)).
    destruct (is_leap (year a)); lia.
  - symmetry. apply Z.compare_gt_iff.
    pose proof (days_before_year_mono (year b + 1) (year a) ltac:(lia)).
    destruct (is_leap (year b)); lia.
Qed.

Lemma ltb_toordinal a b :
  valid a -> valid b -> Calendar.ltb a b = (toordinal a <? toordinal b).
Proof.
  intros. unfold Calendar.ltb, Z.ltb. now rewrite compare_toordinal.
Qed.

Lemma leb_toordinal a b :
  valid a -> valid b -> Calendar.leb a b = (toordinal a <=? toordinal b).
Proof.
  intros. unfold Calendar.leb, Z.leb. now rewrite compare_toordinal.
Qed.

(** One day later is the next ordinal. *)
Lemma toordinal_next_day (d : datetime) :
  valid d -> toordinal (next_day d) = toordinal d + 1.
Proof.
  destruct d as [y m dd]. unfold valid, next_day, toordinal. cbn.
  intros (Hy & Hm & Hd).
  destruct (Z.ltb_spec dd (days_in_month y m)); cbn; [lia|].
  assert (dd = days_in_month y m) as -> by lia.
  destruct (Z.ltb_spec m 12); cbn.
  - rewrite days_before_month_succ by lia. lia.
  - assert (m = 12) as -> by lia.
    rewrite days_before_year_succ.
    unfold days_before_month, days_in_month. cbn.
    destruct (is_leap y); cbn; lia.
Qed.

Lemma valid_next_day (d : datetime) :
  valid d -> toordinal d < toordinal (mkdate 9999 12 31) -> valid (next_day d).
Proof.
  intros Hv Hlt.
  assert (Calendar.ltb d (mkdate 9999 12 31) = true) as Hc.
  { rewrite ltb_toordinal; [now apply Z.ltb_lt | done |].
    unfold valid; cbn; lia. }
  destruct d as [y m dd]. unfold valid, next_day in *. cbn in *.
  destruct Hv as (Hy & Hm & Hd).
  destruct (Z.ltb_spec dd (days_in_month y m)); cbn; [lia|].
  destruct (Z.ltb_spec m 12); cbn.
  - split; [lia|]. split; [lia|].
    unfold days_in_month. repeat case_match; lia.
  - assert (m = 12) as -> by lia.
    unfold Calendar.ltb, Calendar.compare in Hc. cbn in Hc.
    unfold days_in_month in *. cbn in *.
    destruct (Z.compare_spec y 9999); try discriminate; [|lia].
    subst y. cbn in Hc. destruct (Z.compare_spec dd 31); try discriminate; lia.
Qed.

Lemma toordinal_max (d : datetime) :
  valid d -> toordinal d <= toordinal (mkdate 9999 12 31).
Proof.
  intros Hd.
  assert (valid (mkdate 9999 12 31)) as Hmax by (unfold valid; cbn; lia).
  apply Z.leb_le. rewrite <- leb_toordinal by assumption.
  destruct d as [y m dd]. destruct Hd as (Hy & Hm & Hdd). cbn in *.
  unfold Calendar.leb, Calendar.compare. cbn.
  destruct (Z.compare_spec y 9999); [|reflexivity|lia].
  destruct (Z.compare_spec m 12); [|reflexivity|lia].
  subst. unfold days_in_month in Hdd. cbn in Hdd.
  destruct (Z.compare_spec dd 31); [reflexivity..|lia].
Qed.

(** [utils.date_range], as modelled: one date per day, in order. *)
Lemma date_range_from_ordinals (n : nat) (d : datetime) :
  valid d ->
  toordinal d + Z.of_nat n <= toordinal (mkdate 9999 12 31) + 1 ->
  Forall valid (date_range_from n d) /\
  toordinal <$> date_range_from n d = seqZ (toordinal d) (Z.of_nat n).
Proof.
  revert d. induction n as [|n IH]; intros d Hd Hn.
  - split; [constructor | reflexivity].
  - cbn [date_range_from].
    destruct n as [|n].
    + cbn [date_range_from]. split; [apply Forall_cons_2; [assumption | apply Forall_nil_2]|].
      cbn. rewrite seqZ_cons by lia. now rewrite seqZ_nil by lia.
    + assert (valid (next_day d)) as Hnext by (apply valid_next_day; [assumption|lia]).
      destruct (IH (next_day d) Hnext) as [Hv Ho].
      { rewrite toordinal_next_day by assumption. lia. }
      split; [now apply Forall_cons_2|].
      rewrite fmap_cons, Ho, toordinal_next_day by assumption.
      rewrite (seqZ_cons (toordinal d)) by lia.
      do 2 f_equal; lia.
Qed.

(** The range includes both endpoints and is empty when the end precedes
    the start. *)
Lemma date_range_ordinals (start_dt end_dt : datetime) :
  valid start_dt -> valid end_dt ->
  toordinal <$> date_range start_dt end_dt
  = seqZ (toordinal start_dt) (toordinal end_dt - toordinal start_dt + 1).
Proof.
  intros Hs He. unfold date_range, days_between.
  destruct (Z.le_gt_cases (toordinal start_dt) (toordinal end_dt)) as [Hle|Hgt].
  - pose proof (toordinal_max end_dt He).
    destruct (date_range_from_ordinals
                (Z.to_nat (toordinal end_dt - toordinal start_dt + 1)) start_dt Hs)
      as [_ ->]; [lia|].
    f_equal. lia.
  - replace (Z.to_nat (toordinal end_dt - toordinal start_dt + 1)) with 0%nat by lia.
    now rewrite seqZ_nil by lia.
Qed.

End Ordinals.

(** ** Era selection (C1) *)

Section EraSelection.
Import Calendar.






(** The time filter on Landsat 5 leaves no scene from 2011-12-31 on:
    on that day the merged collection holds Landsat 7 scenes only. *)
Lemma l5_coll_empty_from_cutoff
    (ImageCollection : string -> list scene)
    (intersects : geometry -> geometry -> bool)
    (L : locals) (cloud_cover : Q) (d : datetime) :
  toordinal (mkdate 2011 12 31) <= toordinal d ->
  l5_coll ImageCollection intersects L cloud_cover d = [].
Proof.
  intros Hd. unfold l5_coll.
  induction (ImageCollection "LANDSAT/LT05/C01/T1_TOA") as [|s l IH];
    [reflexivity|].
  cbn [List.filter]. rewrite IH.
  replace (common_filters intersects L cloud_cover d s &&
           (system_time_start s <? millis (mkdate 2011 12 31))) with false;
    [reflexivity|].
  symmetry. apply andb_false_iff.
  destruct (Z.ltb_spec (system_time_start s) (millis (mkdate 2011 12 31)));
    [left | now right].
  unfold common_filters.
  destruct (Z.leb_spec (millis d) (system_time_start s)); [|reflexivity].
  exfalso. unfold millis, days_between in *. lia.
Qed.

End EraSelection.

(** ** Cycle day (C7) *)

Section CycleDay.
Import Calendar.
Variable ssebop_version : string.

(** The reference date of line 177. *)
Lemma cycle_base_dt_main :
  cycle_dates !! 1 ≫= strptime_iso = Some (mkdate 1970 1 3).
Proof. vm_compute. reflexivity. Qed.

Lemma cycle_day_range (base d : datetime) : 1 <= cycle_day base d <= 8.
Proof.
  unfold cycle_day.
  pose proof (Z.mod_pos_bound (days_between d base) 8 ltac:(lia)). lia.
Qed.

Lemma cycle_day_shift (base d d' : datetime) (k : Z) :
  days_between d' d = 8 * k -> cycle_day base d' = cycle_day base d.
Proof.
  unfold cycle_day, days_between. intros H.
  replace (toordinal d' - toordinal base)
    with (toordinal d - toordinal base + k * 8) by lia.
  now rewrite Z.mod_add by lia.
Qed.

(** C7: the cycle day attached to the image of a date is
    [((d - epoch).days mod 8) + 1] for the epoch of [main], it lies in
    [1..8], and the image of the date eight days later carries the same
    cycle day. *)
Theorem cycle_day_formula_range_period
    (L : locals) (d d' : datetime) (coll coll' : list tcorr_image)
    (Hbase : cycle_dates !! 1 ≫= strptime_iso = Some (cycle_base_dt L))
    (Hlater : days_between d' d = 8) :
  let c := img_cycle_day (daily_tcorr_image ssebop_version L d coll) in
  c = (toordinal d - toordinal (mkdate 1970 1 3)) mod 8 + 1 /\
  1 <= c <= 8 /\
  img_cycle_day (daily_tcorr_image ssebop_version L d' coll') = c.
Proof.
  cbn. rewrite cycle_base_dt_main in Hbase. injection Hbase as <-.
  split; [reflexivity|]. split; [apply cycle_day_range|].
  apply (cycle_day_shift _ d d' 1). lia.
Qed.

End CycleDay.

Lemma cycle_day_witness :
  Calendar.days_between (Sample.jan 10) (Sample.jan 2) = 8 /\
  img_cycle_day (daily_tcorr_image "0.1.0" (Sample.locals0 Sample.ini0 false ∅ [])
                   (Sample.jan 10) []) = 6.
Proof.
  split; [reflexivity|].
  apply (proj2 (proj2 (cycle_day_formula_range_period "0.1.0"
           (Sample.locals0 Sample.ini0 false ∅ []) (Sample.jan 2) (Sample.jan 10)
           [] [] eq_refl eq_refl))).
Defined.

(** ** Scene corrector (C8, C9) *)

Section SceneCorrector.
Variable tcorr_stats : scene -> Q -> gmap string Q.

Lemma with_defaults_lookup (m : gmap string Q) (k : string) :
  k = "tcorr_p5" \/ k = "tcorr_count" ->
  with_defaults m !! k = Some (default 0%Q (m !! k)).
Proof.
  intros Hk. unfold with_defaults.
  destruct (m !! k) as [v|] eqn:E.
  - now apply lookup_union_Some_l.
  - rewrite lookup_union_r by assumption.
    destruct Hk as [-> | ->]; reflexivity.
Qed.

Lemma slice_last_app {A} (pre l : list A) :
  slice_last (List.length l) (pre ++ l) = l.
Proof.
  unfold slice_last. rewrite length_app.
  replace (List.length pre + List.length l - List.length l)%nat
    with (List.length pre) by lia.
  apply drop_app_length.
Qed.

Lemma scene_id_of_parts (index : string) (pre : list string) (a b c : string) :
  split_on "_" index = pre ++ [a; b; c] ->
  scene_id_of index = Some (a +:+ "_" +:+ b +:+ "_" +:+ c).
Proof.
  intros H. unfold scene_id_of. rewrite H.
  change 3%nat with (List.length [a; b; c]).
  rewrite slice_last_app. reflexivity.
Qed.

Lemma tcorr_img_func_fields (L : locals) (thr : Q) (image : scene) (id : string) :
  scene_id_of (system_index image) = Some id ->
  exists img,
    tcorr_img_func tcorr_stats L thr image = Some img /\
    ti_scene_id img = id /\
    ti_wrs2_tile img = wrs2_tile_of id /\
    ti_tcorr img = default 0%Q (tcorr_stats image thr !! "tcorr_p5") /\
    ti_count img = default 0%Q (tcorr_stats image thr !! "tcorr_count").
Proof.
  intros Hid. unfold tcorr_img_func.
  rewrite !with_defaults_lookup by auto. cbn. rewrite Hid. cbn.
  eexists. split; [reflexivity|]. cbn. auto.
Qed.

Lemma tcorr_img_func_inv (L : locals) (thr : Q) (image : scene) (img : tcorr_image) :
  tcorr_img_func tcorr_stats L thr image = Some img ->
  scene_id_of (system_index image) = Some (ti_scene_id img) /\
  ti_wrs2_tile img = wrs2_tile_of (ti_scene_id img) /\
  ti_tcorr img = default 0%Q (tcorr_stats image thr !! "tcorr_p5") /\
  ti_count img = default 0%Q (tcorr_stats image thr !! "tcorr_count").
Proof.
  intros H. destruct (scene_id_of (system_index image)) as [id|] eqn:Hid.
  - destruct (tcorr_img_func_fields L thr image id Hid) as (img' & E & H1 & H2 & H3 & H4).
    rewrite E in H. injection H as <-. rewrite H1. auto.
  - unfold tcorr_img_func in H.
    rewrite !with_defaults_lookup in H by auto. cbn in H.
    rewrite Hid in H. discriminate.
Qed.

(** An index with fewer than three components has no scene identifier:
    the third [get] fails. *)
Lemma scene_id_of_short (index : string) :
  (List.length (split_on "_" index) < 3)%nat -> scene_id_of index = None.
Proof.
  intros H. unfold scene_id_of, slice_last.
  replace (List.length (split_on "_" index) - 3)%nat with 0%nat by lia.
  rewrite drop_0.
  destruct (split_on "_" index) as [|p0 [|p1 [|p2 l]]]; cbn in *; try reflexivity.
  lia.
Qed.

Lemma split_on_no_sep (sep : ascii) (s : string) :
  contains sep s = false -> split_on sep s = [s].
Proof.
  induction s as [|c s IH]; [reflexivity|]. cbn.
  intros [Hc Hs]%orb_false_iff. rewrite Hc, (IH Hs). reflexivity.
Qed.

Lemma split_on_app_sep (sep : ascii) (a b : string) :
  contains sep a = false ->
  split_on sep (a +:+ String sep b) = a :: split_on sep b.
Proof.
  induction a as [|c a IH].
  - intros _. change (split_on sep (String sep b) = "" :: split_on sep b).
    cbn. now rewrite Ascii.eqb_refl.
  - cbn [contains]. intros [Hc Ha]%orb_false_iff.
    change (split_on sep (String c (a +:+ String sep b))
            = String c a :: split_on sep b).
    cbn [split_on]. rewrite Hc, (IH Ha). reflexivity.
Qed.

(** Splitting undoes joining: the components of an index are the strings
    between its underscores. *)
Lemma split_on_join (sep : ascii) (parts : list string) :
  parts <> [] -> Forall (fun p => contains sep p = false) parts ->
  split_on sep (join (String sep "") parts) = parts.
Proof.
  induction parts as [|p parts IH]; [congruence|].
  intros _ Hall. inversion Hall as [|? ? Hp Hparts]; subst.
  destruct parts as [|q parts].
  - now apply split_on_no_sep.
  - change (split_on sep (p +:+ String sep (join (String sep "") (q :: parts)))
            = p :: q :: parts).
    rewrite split_on_app_sep by assumption.
    f_equal. now apply IH.
Qed.

(** C9: when the index of a scene has at least three components
    between underscores, the scene identifier is its last three
    components joined by underscores, whatever components a merge put in
    front, and the tile is the substring of the identifier at positions
    5 to 10. *)
Theorem scene_id_last_three_and_tile
    (L : locals) (thr : Q) (image : scene) (pre : list string) (a b c : string)
    (Hparts : split_on "_" (system_index image) = pre ++ [a; b; c]) :
  exists img,
    tcorr_img_func tcorr_stats L thr image = Some img /\
    ti_scene_id img = join "_" [a; b; c] /\
    ti_wrs2_tile img = substring 5 6 (ti_scene_id img) /\
    forall i, (i < 6)%nat ->
      String.get i (ti_wrs2_tile img) = String.get (5 + i) (ti_scene_id img).
Proof.
  destruct (tcorr_img_func_fields L thr image _ (scene_id_of_parts _ _ _ _ _ Hparts))
    as (img & E & Hid & Htile & _).
  exists img. split; [exact E|]. split; [exact Hid|].
  rewrite Htile, Hid. split; [reflexivity|].
  intros i Hi. unfold wrs2_tile_of, str_slice.
  rewrite substring_correct1 by (cbn; lia). f_equal. lia.
Qed.

(** An index with at least three components has a scene identifier. *)
Lemma scene_id_of_long (index : string) :
  (3 <= List.length (split_on "_" index))%nat ->
  exists id, scene_id_of index = Some id.
Proof.
  intros Hlen. unfold scene_id_of, slice_last.
  pose proof (length_drop (split_on "_" index)
                (List.length (split_on "_" index) - 3)) as Hdrop.
  destruct (drop _ (split_on "_" index)) as [|a [|b [|c t]]];
    cbn [List.length] in Hdrop; try lia.
  cbn. eauto.
Qed.

(** C8: every scene is given a correction (its index has the three
    components of a Landsat index); a correction value or a count the
    model leaves out is 0 in it; and the correction is kept for the day
    exactly when its count is not less than the configured minimum. *)
Theorem scene_corrector_defaults_and_threshold
    (L : locals) (thr min_pixel_count : Q) (coll : list scene)
    (Hindex : Forall (fun s => (3 <= List.length (split_on "_" (system_index s)))%nat)
                coll) :
  exists imgs kept,
    mapM (tcorr_img_func tcorr_stats L thr) coll = Some imgs /\
    Forall2 (fun s i =>
               ti_tcorr i = default 0%Q (tcorr_stats s thr !! "tcorr_p5") /\
               ti_count i = default 0%Q (tcorr_stats s thr !! "tcorr_count"))
            coll imgs /\
    tcorr_img_coll tcorr_stats L thr min_pixel_count coll = Some kept /\
    forall i, i ∈ kept <-> i ∈ imgs /\ ~ (ti_count i < min_pixel_count)%Q.
Proof.
  assert (exists imgs, mapM (tcorr_img_func tcorr_stats L thr) coll = Some imgs)
    as (imgs & Hmap).
  { apply (mapM_is_Some (tcorr_img_func tcorr_stats L thr)).
    eapply Forall_impl; [exact Hindex|]. intros s Hs. cbn beta.
    destruct (scene_id_of_long _ Hs) as (id & Hid).
    destruct (tcorr_img_func_fields L thr s id Hid) as (img & E & _). eauto. }
  exists imgs. unfold tcorr_img_coll. rewrite Hmap. cbn.
  eexists. split; [reflexivity|]. split; [|split; [reflexivity|]].
  - apply mapM_Some_1 in Hmap.
    eapply Forall2_impl; [exact Hmap|].
    intros s i Hi. cbn in Hi. apply tcorr_img_func_inv in Hi. tauto.
  - intros i. rewrite !list_elem_of_In, filter_In.
    unfold Qltb. rewrite negb_involutive, Qle_bool_iff.
    split; intros [H1 H2]; (split; [exact H1|]).
    + now apply Qle_not_lt.
    + now apply Qnot_lt_le.
Qed.

End SceneCorrector.

Lemma scene_id_witness :
  split_on "_" (system_index (reindex "1_2_" Sample.scene_20200102))
    = ["1"; "2"] ++ ["LC08"; "044033"; "20200102"] /\
  exists img,
    tcorr_img_func Sample.stats (Sample.locals0 Sample.ini0 false ∅ []) 15%Q
      (reindex "1_2_" Sample.scene_20200102) = Some img.
Proof.
  split; [reflexivity|].
  destruct (scene_id_last_three_and_tile Sample.stats
              (Sample.locals0 Sample.ini0 false ∅ []) 15%Q
              (reindex "1_2_" Sample.scene_20200102)
              ["1"; "2"] "LC08" "044033" "20200102" eq_refl) as (img & E & _).
  exists img. exact E.
Defined.

(** The model finds nothing for the scene of 2020-01-02: its correction
    has the value 0 and the count 0, and with a minimum of 20 pixels it
    is not kept; a count of 50 is kept with a minimum of 50. *)
Lemma scene_corrector_witness :
  (exists imgs,
     mapM (tcorr_img_func Sample.no_stats (Sample.locals0 Sample.ini0 false ∅ []) 15%Q)
       [Sample.scene_20200102] = Some imgs /\
     Forall (fun i => ti_tcorr i = 0%Q /\ ti_count i = 0%Q) imgs) /\
  tcorr_img_coll Sample.no_stats (Sample.locals0 Sample.ini0 false ∅ []) 15%Q 20%Q
    [Sample.scene_20200102] = Some [] /\
  (exists kept,
     tcorr_img_coll Sample.stats (Sample.locals0 Sample.ini0 false ∅ []) 15%Q 50%Q
       [Sample.scene_20200102] = Some kept /\
     List.length kept = 1%nat).
Proof.
  assert (Forall (fun s => (3 <= List.length (split_on "_" (system_index s)))%nat)
            [Sample.scene_20200102]) as Hindex
    by (repeat constructor).
  destruct (scene_corrector_defaults_and_threshold Sample.no_stats
              (Sample.locals0 Sample.ini0 false ∅ []) 15%Q 20%Q
              [Sample.scene_20200102] Hindex) as (imgs & kept & Hmap & Hfields & _).
  split; [|split].
  - exists imgs. split; [exact Hmap|].
    inversion Hfields as [|s i l l' [Ht Hc] Hrest]; subst.
    inversion Hrest; subst. repeat constructor; assumption.
  - vm_compute. reflexivity.
  - eexists. split; [vm_compute; reflexivity | reflexivity].
Defined.

(** ** Daily aggregator (C6) *)

Section Aggregator.
Variable tcorr_stats : scene -> Q -> gmap string Q.
Variable ssebop_version : string.
Variable ImageCollection : string -> list scene.
Variable intersects : geometry -> geometry -> bool.

Lemma unique_properties_nil (property : tcorr_image -> string) :
  unique_properties [] property = "".
Proof.
  unfold unique_properties, dict_keys. cbn.
  rewrite map_to_list_empty. reflexivity.
Qed.

(** C6: when no scene correction survives for a date, the daily image is
    masked at every pixel (so nowhere zero) and its sensor list and tile
    list are the empty string. *)
Theorem empty_day_is_masked
    (L : locals) (export_dt : Calendar.datetime)
    (cloud_cover tdiff_threshold min_pixel_count : Q)
    (Hempty : tcorr_img_coll tcorr_stats L tdiff_threshold min_pixel_count
                (landsat_coll ImageCollection intersects L cloud_cover export_dt)
              = Some []) :
  exists img,
    build_image tcorr_stats ssebop_version ImageCollection intersects
      L export_dt cloud_cover tdiff_threshold min_pixel_count = Some img /\
    (forall p, img_raster img p = None) /\
    (forall p, img_raster img p <> Some 0%Q) /\
    img_landsat img = "" /\
    img_wrs2_tiles img = "".
Proof.
  unfold build_image. rewrite Hempty. cbn.
  eexists. split; [reflexivity|]. cbn.
  rewrite !unique_properties_nil. repeat split; intros; discriminate.
Qed.

End Aggregator.

(** A scene with 50 supporting pixels against a minimum of 100. *)
Lemma empty_day_witness :
  exists img,
    build_image Sample.stats "0.1.0" Sample.catalogue (fun _ _ => true)
      (Sample.locals0 Sample.ini0 false ∅ []) (Sample.jan 2) 70%Q 15%Q 100%Q
    = Some img /\ img_raster img (1, 1) = None.
Proof.
  destruct (empty_day_is_masked Sample.stats "0.1.0" Sample.catalogue (fun _ _ => true)
              (Sample.locals0 Sample.ini0 false ∅ []) (Sample.jan 2) 70%Q 15%Q 100%Q)
    as (img & E & Hmask & _).
  - vm_compute. reflexivity.
  - exists img. split; [exact E | apply Hmask].
Defined.

(** ** The monad *)

Lemma bind_ok {A B} (m : M A) (k : A -> M B) (w w' : world) (a : A) :
  m w = (Ok a, w') -> bind m k w = k a w'.
Proof. intros H. unfold bind. now rewrite H. Qed.

Lemma bind_raise {A B} (m : M A) (k : A -> M B) (w w' : world) (e : exn) :
  m w = (Raise e, w') -> bind m k w = (Raise e, w').
Proof. intros H. unfold bind. now rewrite H. Qed.

Lemma bind_inv_ok {A B} (m : M A) (k : A -> M B) (w w' : world) (b : B) :
  bind m k w = (Ok b, w') ->
  exists a w1, m w = (Ok a, w1) /\ k a w1 = (Ok b, w').
Proof.
  unfold bind. destruct (m w) as [[a|e] w1]; [eauto | discriminate].
Qed.

Lemma call_ok (c : remote_call) (w : world) :
  failing w (calls w) = false -> call c w = (Ok tt, after_call c w).
Proof. intros H. unfold call. now rewrite H. Qed.

Lemma call_cases (c : remote_call) (w : world) :
  call c w = (Ok tt, after_call c w) \/
  exists w', call c w = (Raise EEException, w') /\
             trace w' = trace w /\ remote w' = remote w.
Proof.
  unfold call. destruct (failing w (calls w)); [right | left; reflexivity].
  eexists. split; [reflexivity|]. split; reflexivity.
Qed.

Lemma reliable_after_call (c : remote_call) (w : world) :
  reliable w -> reliable (after_call c w).
Proof. intros H n. apply H. Qed.

Lemma actions_app (l1 l2 : list event) :
  actions (l1 ++ l2) = actions l1 ++ actions l2.
Proof.
  unfold actions. induction l1 as [|e l1 IH]; [reflexivity|].
  cbn. destruct (action_of e); cbn; now rewrite IH.
Qed.

Lemma actions_after_call (c : remote_call) (w : world) :
  actions (trace (after_call c w)) =
  actions (trace w) ++ match action_of (Called c) with Some a => [a] | None => [] end.
Proof.
  cbn [after_call trace]. rewrite actions_app. reflexivity.
Qed.

(** Reading the configuration leaves the world alone. *)
Lemma getitem_pure {V} (d : gmap string V) (k : string) (w : world) :
  getitem d k w = (match d !! k with Some v => Ok v | None => Raise (KeyError k) end, w).
Proof. unfold getitem. destruct (d !! k); reflexivity. Qed.

Lemma ini_get_pure (i : ini_file) (s k : string) (w w0 : world) :
  ini_get i s k w = (fst (ini_get i s k w0), w).
Proof.
  unfold ini_get, bind. rewrite !getitem_pure.
  destruct (i !! s) as [sec|]; [|reflexivity].
  rewrite !getitem_pure. reflexivity.
Qed.

Lemma ini_get_value (i : ini_file) (s k v : string) (w : world) :
  config_value i s k = Some v -> ini_get i s k w = (Ok v, w).
Proof.
  unfold config_value, ini_get, bind. rewrite getitem_pure.
  destruct (i !! s) as [sec|]; [|discriminate]. cbn.
  rewrite getitem_pure. now intros ->.
Qed.

Lemma ini_get_float (py_float : string -> option Q) (i : ini_file)
    (s k : string) (q : Q) (w : world) :
  config_value i s k ≫= py_float = Some q ->
  bind (ini_get i s k) (float py_float) w = (Ok q, w).
Proof.
  destruct (config_value i s k) as [v|] eqn:E; [|discriminate]. cbn. intros Hq.
  rewrite (bind_ok _ _ _ _ _ (ini_get_value _ _ _ _ w E)).
  unfold float. now rewrite Hq.
Qed.

(** ** Export reconciler (C4) *)

Section Reconciler.
Variable py_float : string -> option Q.
Variable tcorr_stats : scene -> Q -> gmap string Q.
Variable ssebop_version : string.
Variable ImageCollection : string -> list scene.
Variable intersects : geometry -> geometry -> bool.

Lemma export_id_of_ok (L : locals) (d : Calendar.datetime) (X A : string) (w : world) :
  configured py_float L d X A -> export_id_of L d w = (Ok X, w).
Proof.
  intros (fmt & cc & td & mp & Hdest & Hfmt & HX & _).
  unfold export_id_of.
  rewrite (bind_ok _ _ _ _ _ (ini_get_value _ _ _ _ w Hfmt)).
  rewrite (bind_ok _ _ _ _ _ (ini_get_value _ _ _ _ w Hdest)).
  unfold format. now rewrite HX.
Qed.

Lemma asset_id_of_ok (L : locals) (d : Calendar.datetime) (X A : string) (w : world) :
  configured py_float L d X A -> asset_id_of L d w = (Ok (Some A), w).
Proof.
  intros (fmt & cc & td & mp & Hdest & _ & _ & -> & _).
  unfold asset_id_of.
  rewrite (bind_ok _ _ _ _ _ (ini_get_value _ _ _ _ w Hdest)).
  reflexivity.
Qed.

(** What lines 213-230 do for a destination spelled [ASSET], on a
    service that carries out every call. *)
Lemma reconcile_table (L : locals) (X A : string) (w : world) :
  config_value (ini L) "EXPORT" "export_dest" = Some "ASSET" ->
  reliable w ->
  exists w',
    reconcile L X (Some A) w =
      (Ok (overwrite_flag L ||
           negb (bool_decide (is_Some (tasks L !! X)) || bool_decide (A ∈ asset_list L))),
       w') /\
    reliable w' /\
    actions (trace w') ++ [Submit X A] =
    actions (trace w) ++
      (if overwrite_flag L ||
            negb (bool_decide (is_Some (tasks L !! X)) || bool_decide (A ∈ asset_list L))
       then decision_table (target_state_of L X A) (overwrite_flag L)
              (Cancel (default 0%nat (tasks L !! X))) (Delete A) (Submit X A)
       else [Submit X A]).
Proof.
  intros Hdest Hrel. unfold reconcile, target_state_of, bind, load_var, ret.
  destruct (overwrite_flag L); cbn [orb].
  - (* overwrite: cancel, then delete, both when both are there *)
    destruct (tasks L !! X) as [t|] eqn:Ht; cbn [default].
    + rewrite bool_decide_eq_true_2 by eauto.
      unfold getitem. rewrite Ht. unfold ret.
      rewrite call_ok by apply Hrel.
      rewrite (ini_get_value _ _ _ _ _ Hdest).
      change (upper "ASSET" =? "ASSET")%string with true. cbv iota beta.
      destruct (bool_decide (A ∈ asset_list L)).
      * rewrite call_ok by apply Hrel.
        eexists. split; [reflexivity|]. split.
        { now repeat apply reliable_after_call. }
        rewrite !actions_after_call. cbn. now rewrite <- !app_assoc.
      * eexists. split; [reflexivity|]. split.
        { now apply reliable_after_call. }
        rewrite !actions_after_call. cbn. now rewrite <- !app_assoc.
    + rewrite bool_decide_eq_false_2 by (intros [? ?]; discriminate).
      rewrite (ini_get_value _ _ _ _ _ Hdest).
      change (upper "ASSET" =? "ASSET")%string with true. cbv iota beta.
      destruct (bool_decide (A ∈ asset_list L)).
      * rewrite call_ok by apply Hrel.
        eexists. split; [reflexivity|]. split.
        { now apply reliable_after_call. }
        rewrite !actions_after_call. cbn. now rewrite <- !app_assoc.
      * eexists. split; [reflexivity|]. split; [assumption|]. reflexivity.
  - (* no overwrite: skip on a pending job or an existing asset *)
    destruct (bool_decide (is_Some (tasks L !! X))); cbn [orb negb].
    + eexists. split; [reflexivity|]. split; [assumption|]. reflexivity.
    + rewrite (ini_get_value _ _ _ _ _ Hdest).
      change (upper "ASSET" =? "ASSET")%string with true. cbv iota beta.
      destruct (bool_decide (A ∈ asset_list L)); cbn.
      * eexists. split; [reflexivity|]. split; [assumption|]. reflexivity.
      * eexists. split; [reflexivity|]. split; [assumption|]. reflexivity.
Qed.

(** The decision table under a destination written [ASSET] in capitals:
    for a date the calendar lets through and on a service that carries
    out every call, the loop body does to the store exactly what the
    table of section 4.5 says for the state of the target in the
    listings: nothing (Skip) without [overwrite] when a job is pending or
    the asset exists, and otherwise the cancellation of the pending job,
    the deletion of the existing asset (both when both exist) and the
    submission, in that order. *)
Theorem reconciler_decision_table
    (L : locals) (export_dt : Calendar.datetime) (X A : string) (w : world)
    (Hcal : calendar_skip L export_dt = false)
    (Hcfg : configured py_float L export_dt X A)
    (Hrel : reliable w) :
  exists w',
    process_date py_float tcorr_stats ssebop_version ImageCollection intersects
      L export_dt w = (Ok tt, w') /\
    actions (trace w') =
    actions (trace w) ++
      decision_table (target_state_of L X A) (overwrite_flag L)
        (Cancel (default 0%nat (tasks L !! X))) (Delete A) (Submit X A).
Proof.
  pose proof Hcfg as (fmt & cc & td & mp & Hdest & _ & _ & _ & Hcc & Htd & Hmp).
  destruct (reconcile_table L X A w Hdest Hrel) as (w1 & Hrec & Hrel1 & Hact).
  unfold process_date. rewrite Hcal.
  rewrite (bind_ok _ _ _ _ _ (export_id_of_ok L export_dt X A w Hcfg)).
  rewrite (bind_ok _ _ _ _ _ (asset_id_of_ok L export_dt X A w Hcfg)).
  rewrite (bind_ok _ _ _ _ _ Hrec).
  destruct (overwrite_flag L ||
            negb (bool_decide (is_Some (tasks L !! X)) || bool_decide (A ∈ asset_list L)))
    eqn:Hgo; cbn [negb].
  - rewrite (bind_ok _ _ _ _ _ (ini_get_float py_float _ _ _ _ w1 Hcc)).
    rewrite (bind_ok _ _ _ _ _ (ini_get_float py_float _ _ _ _ w1 Htd)).
    rewrite (bind_ok _ _ _ _ _ (ini_get_float py_float _ _ _ _ w1 Hmp)).
    unfold submit.
    rewrite (bind_ok _ _ _ _ _ (ini_get_value _ _ _ _ w1 Hdest)).
    change ("ASSET" =? "ASSET")%string with true. cbv iota.
    unfold bind, load_var, ret. rewrite call_ok by apply Hrel1.
    eexists. split; [reflexivity|].
    rewrite actions_after_call. cbn [action_of]. exact Hact.
  - exists w1. split; [reflexivity|].
    apply app_inv_tail in Hact. rewrite Hact.
    unfold target_state_of.
    destruct (overwrite_flag L); [discriminate|].
    destruct (bool_decide (is_Some (tasks L !! X))),
      (bool_decide (A ∈ asset_list L)); try discriminate;
      cbn; now rewrite app_nil_r.
Qed.

End Reconciler.

(** The state in which a job is pending and the asset exists, with
    [overwrite]. *)
Lemma reconciler_witness :
  exists w',
    Sample.run_date
      (Sample.locals0 Sample.ini0 true
         {[ Sample.export_id "20200102" := 7%nat ]} [Sample.asset_id "20200102"])
      (Sample.jan 2) (Sample.world0 Sample.empty_store Sample.never) = (Ok tt, w') /\
    actions (trace w') =
      [Cancel 7; Delete (Sample.asset_id "20200102");
       Submit (Sample.export_id "20200102") (Sample.asset_id "20200102")].
Proof.
  destruct (reconciler_decision_table Sample.float_of_digits Sample.stats "0.1.0"
           Sample.catalogue (fun _ _ => true)
           (Sample.locals0 Sample.ini0 true
              {[ Sample.export_id "20200102" := 7%nat ]} [Sample.asset_id "20200102"])
           (Sample.jan 2) (Sample.export_id "20200102") (Sample.asset_id "20200102")
           (Sample.world0 Sample.empty_store Sample.never)) as (w' & E & Hact).
  - vm_compute. reflexivity.
  - exists "tcorr_{product}_{date}_{export}", 70%Q, 15%Q, 20%Q.
    repeat split; vm_compute; reflexivity.
  - intros n. reflexivity.
  - exists w'. split; [exact E|]. rewrite Hact. vm_compute. reflexivity.
Defined.

(** C4, where the code leaves the table: the destination [asset] passes
    the check of line 118, which compares in upper case, but lines 207
    and 384 compare with [ASSET] as written, so [asset_id] is never
    assigned.  With [overwrite] and a pending job the job is cancelled and
    the date ends in the unbound-name error at line 220, where the table
    has the cancellation followed by the submission; without [overwrite]
    and with nothing published the date ends in the same error at line
    228, where the table has the submission. *)
Lemma reconciler_other_spelling_diverges :
  let X := Sample.export_id "20200102" in
  let A := Sample.asset_id "20200102" in
  let w := Sample.world0 Sample.empty_store Sample.never in
  let pending := SampleFailures.L_lower_case true {[ X := 7%nat ]} in
  let unpublished := SampleFailures.L_lower_case false ∅ in
  let out1 := Sample.run_date pending (Sample.jan 2) w in
  let out2 := Sample.run_date unpublished (Sample.jan 2) w in
  (upper "asset" =? "ASSET")%string = true /\
  calendar_skip pending (Sample.jan 2) = false /\
  export_id_for pending (Sample.jan 2) = Some X /\
  target_state_of pending X A = JobPending /\
  fst out1 = Raise (UnboundLocalError "asset_id") /\
  actions (trace (snd out1)) = [Cancel 7] /\
  decision_table JobPending true (Cancel 7) (Delete A) (Submit X A)
    = [Cancel 7; Submit X A] /\
  target_state_of unpublished X A = Unpublished /\
  fst out2 = Raise (UnboundLocalError "asset_id") /\
  actions (trace (snd out2)) = [] /\
  decision_table Unpublished false (Cancel 7) (Delete A) (Submit X A) = [Submit X A].
Proof. vm_compute. repeat split; reflexivity. Qed.

(** ** Failures in the date loop (C2) *)

Section Loop.
Variable py_float : string -> option Q.
Variable tcorr_stats : scene -> Q -> gmap string Q.
Variable ssebop_version : string.
Variable ImageCollection : string -> list scene.
Variable intersects : geometry -> geometry -> bool.

Local Abbreviation body :=
  (process_date py_float tcorr_stats ssebop_version ImageCollection intersects).
Local Abbreviation loop :=
  (date_loop py_float tcorr_stats ssebop_version ImageCollection intersects).

Lemma date_loop_app (L : locals) (pre rest : list Calendar.datetime) (w : world) :
  loop L (pre ++ rest) w = bind (loop L pre) (fun _ => loop L rest) w.
Proof.
  revert w. induction pre as [|d pre IH]; intros w; [reflexivity|].
  cbn [app date_loop].
  unfold bind.
  destruct (body L d w) as [[[]|e] w1]; [|reflexivity].
  rewrite IH. reflexivity.
Qed.

(** Computations that stop at the first call the service fails. *)
Lemma fail_stop_pure {A} (m : M A) :
  (forall w, exists r, m w = (r, w)) -> fail_stop m.
Proof.
  intros Hm w r w' E. destruct (Hm w) as (r0 & E0).
  rewrite E0 in E. injection E as _ <-.
  split; [reflexivity|]. split; [lia|]. intros n Hn. lia.
Qed.

Lemma fail_stop_ret {A} (a : A) : fail_stop (ret a).
Proof. apply fail_stop_pure. intros w. eexists. reflexivity. Qed.

Lemma fail_stop_raise {A} (e : exn) : fail_stop (raise (A := A) e).
Proof. apply fail_stop_pure. intros w. eexists. reflexivity. Qed.

Lemma fail_stop_getitem {V} (d : gmap string V) (k : string) :
  fail_stop (getitem d k).
Proof. apply fail_stop_pure. intros w. rewrite getitem_pure. eauto. Qed.

Lemma fail_stop_ini_get (i : ini_file) (s k : string) : fail_stop (ini_get i s k).
Proof. apply fail_stop_pure. intros w. rewrite (ini_get_pure i s k w w). eauto. Qed.

Lemma fail_stop_load_var {A} (name : string) (v : option A) :
  fail_stop (load_var name v).
Proof. destruct v; [apply fail_stop_ret | apply fail_stop_raise]. Qed.

Lemma fail_stop_call (c : remote_call) : store_call c -> fail_stop (call c).
Proof.
  intros Hc w r w' E. unfold call in E.
  destruct (failing w (calls w)) eqn:Hf; injection E as <- <-; cbn [failing calls].
  - split; [reflexivity|]. split; [lia|]. intros n Hn _.
    assert (n = calls w) as -> by lia.
    split; [reflexivity|]. split; [reflexivity|].
    exists c, w. split; [exact Hc|]. split; [reflexivity|].
    unfold call. now rewrite Hf.
  - split; [reflexivity|]. split; [lia|]. intros n Hn Hfail.
    assert (n = calls w) as -> by lia. congruence.
Qed.

Lemma fail_stop_bind {A B} (m : M A) (k : A -> M B) :
  fail_stop m -> (forall a, fail_stop (k a)) -> fail_stop (bind m k).
Proof.
  intros Hm Hk w r w' E. unfold bind in E.
  destruct (m w) as [[a|e] w1] eqn:Em.
  - destruct (Hm _ _ _ Em) as (Hf1 & Hc1 & Hn1).
    destruct (Hk a _ _ _ E) as (Hf2 & Hc2 & Hn2).
    split; [congruence|]. split; [lia|]. intros n Hn Hfail.
    destruct (Nat.lt_ge_cases n (calls w1)) as [Hlt|Hge].
    + destruct (Hn1 n ltac:(lia) Hfail) as (Habs & _). discriminate.
    + apply Hn2; [lia | congruence].
  - injection E as <- <-. destruct (Hm _ _ _ Em) as (Hf1 & Hc1 & Hn1).
    split; [exact Hf1|]. split; [exact Hc1|]. intros n Hn Hfail.
    destruct (Hn1 n Hn Hfail) as ([= ->] & Hlast & Hcall). auto.
Qed.

Ltac fail_stop :=
  repeat first
    [ apply fail_stop_ret
    | apply fail_stop_raise
    | apply fail_stop_ini_get
    | apply fail_stop_getitem
    | apply fail_stop_load_var
    | apply fail_stop_call; exact I
    | apply fail_stop_bind; [|intros ?]
    | match goal with
      | |- fail_stop (if ?b then _ else _) => destruct b
      | |- fail_stop (match ?x with _ => _ end) => destruct x
      end ].

(** The body of the loop has no handler: lines 186-399 contain no [try]. *)
Lemma fail_stop_process_date (L : locals) (d : Calendar.datetime) :
  fail_stop (body L d).
Proof.
  unfold process_date, export_id_of, asset_id_of, reconcile, submit, format, float.
  fail_stop.
Qed.

(** C2, as the code has it: the loop has no handler.  When the service
    fails a call made while a date is processed, that call is a
    cancellation, a deletion or a submission and the last call of the
    run: the date ends in the exception of the call, the loop ends with
    it in the world the failed call left, and the dates after it are not
    processed. *)
Theorem failure_ends_the_run
    (L : locals) (pre rest : list Calendar.datetime) (d : Calendar.datetime)
    (w w1 w2 : world) (r : result unit) (n : nat)
    (Hpre : loop L pre w = (Ok tt, w1))
    (Hdate : body L d w1 = (r, w2))
    (Hmade : (calls w1 <= n < calls w2)%nat)
    (Hfailed : failing w1 n = true) :
  r = Raise EEException /\
  calls w2 = S n /\
  (exists c wm, store_call c /\ calls wm = n /\
                call c wm = (Raise EEException, w2)) /\
  loop L (pre ++ d :: rest) w = (Raise EEException, w2).
Proof.
  destruct (fail_stop_process_date L d _ _ _ Hdate) as (_ & _ & Hn).
  destruct (Hn n Hmade Hfailed) as (-> & Hlast & Hcall).
  split; [reflexivity|]. split; [exact Hlast|]. split; [exact Hcall|].
  rewrite date_loop_app, (bind_ok _ _ _ _ _ Hpre).
  cbn [date_loop]. now rewrite (bind_raise _ _ _ _ _ Hdate).
Qed.

End Loop.

(** The cancellation of the pending export of 2020-01-02 fails: the run
    ends there, and 2020-01-03 is not processed. *)
Lemma failure_ends_the_run_witness :
  let w := Sample.world0 Sample.empty_store Sample.first_call_fails in
  Sample.run_loop SampleFailures.L_overwrite
    ([] ++ Sample.jan 2 :: [Sample.jan 3]) w
  = (Raise EEException, snd (Sample.run_date SampleFailures.L_overwrite (Sample.jan 2) w)) /\
  calls (snd (Sample.run_date SampleFailures.L_overwrite (Sample.jan 2) w)) = 1%nat.
Proof.
  cbv zeta.
  destruct (failure_ends_the_run Sample.float_of_digits Sample.stats "0.1.0"
              Sample.catalogue (fun _ _ => true) SampleFailures.L_overwrite
              [] [Sample.jan 3] (Sample.jan 2)
              (Sample.world0 Sample.empty_store Sample.first_call_fails)
              (Sample.world0 Sample.empty_store Sample.first_call_fails)
              (snd (Sample.run_date SampleFailures.L_overwrite (Sample.jan 2)
                      (Sample.world0 Sample.empty_store Sample.first_call_fails)))
              (fst (Sample.run_date SampleFailures.L_overwrite (Sample.jan 2)
                      (Sample.world0 Sample.empty_store Sample.first_call_fails)))
              0%nat)
    as (_ & Hlast & _ & Hloop).
  - reflexivity.
  - apply surjective_pairing.
  - vm_compute. lia.
  - reflexivity.
  - split; [exact Hloop | exact Hlast].
Defined.

(** The cancellation for 2020-01-02 is carried out and the deletion of
    its asset fails: the run over 2020-01-02 and 2020-01-03 ends with the
    exception and submits nothing, although 2020-01-03, processed next
    from the world the failure left, would have been submitted.  The run
    does not continue with the next date. *)
Lemma failure_counterexample :
  let L := SampleFailures.L_overwrite in
  let w := Sample.world0 Sample.empty_store SampleFailures.second_call_fails in
  let failed := Sample.run_date L (Sample.jan 2) w in
  let whole := Sample.run_loop L [Sample.jan 2; Sample.jan 3] w in
  let continued := Sample.run_loop L [Sample.jan 3] (snd failed) in
  fst failed = Raise EEException /\
  actions (trace (snd failed)) = [Cancel 7] /\
  fst whole = Raise EEException /\
  actions (trace (snd whole)) = [Cancel 7] /\
  fst continued = Ok tt /\
  actions (trace (snd continued)) =
    [Cancel 7; Submit (Sample.export_id "20200103") (Sample.asset_id "20200103")] /\
  fst whole <> fst continued.
Proof. vm_compute. repeat split; discriminate. Qed.

(** ** [main] before the loop (C3, C10) *)

(** Computations that leave the store alone, and computations that always
    end in an exception. *)
Section Quiet.

Lemma quiet_ret {A} (a : A) : quiet (ret a).
Proof. intros w r w' H. injection H as _ <-. reflexivity. Qed.

Lemma quiet_raise {A} (e : exn) : quiet (raise (A := A) e).
Proof. intros w r w' H. injection H as _ <-. reflexivity. Qed.

Lemma quiet_bind {A B} (m : M A) (k : A -> M B) :
  quiet m -> (forall a, quiet (k a)) -> quiet (bind m k).
Proof.
  intros Hm Hk w r w'. unfold bind.
  destruct (m w) as [[a|e] w1] eqn:E.
  - intros H. rewrite (Hk a _ _ _ H). exact (Hm _ _ _ E).
  - intros H. injection H as _ <-. exact (Hm _ _ _ E).
Qed.

Lemma quiet_bind_raise {A B} (e : exn) (k : A -> M B) : quiet (bind (raise e) k).
Proof. intros w r w' H. injection H as _ <-. reflexivity. Qed.

Lemma quiet_getitem {V} (d : gmap string V) (k : string) : quiet (getitem d k).
Proof. unfold getitem. destruct (d !! k); [apply quiet_ret | apply quiet_raise]. Qed.

Lemma quiet_ini_get (i : ini_file) (s k : string) : quiet (ini_get i s k).
Proof. apply quiet_bind; [|intros ?]; apply quiet_getitem. Qed.

Lemma quiet_emit_log (e : event) : action_of e = None -> quiet (emit e).
Proof.
  intros He w r w' H. injection H as _ <-. cbn.
  rewrite actions_app. unfold actions at 2. cbn. rewrite He. apply app_nil_r.
Qed.

Lemma quiet_call (c : remote_call) : action_of (Called c) = None -> quiet (call c).
Proof.
  intros Hc w r w'. unfold call. destruct (failing w (calls w)).
  - intros H. injection H as _ <-. reflexivity.
  - intros H. injection H as _ <-. cbn.
    rewrite actions_app. unfold actions at 2. cbn [omap list_omap].
    rewrite Hc. apply app_nil_r.
Qed.

Lemma always_raises_raise {A} (e : exn) : always_raises (raise (A := A) e).
Proof. intros w. eexists. reflexivity. Qed.

Lemma always_raises_bind {A B} (m : M A) (k : A -> M B) :
  (forall a, always_raises (k a)) -> always_raises (bind m k).
Proof.
  intros Hk w. unfold bind. destruct (m w) as [[a|e] w1]; [apply Hk|].
  eexists. reflexivity.
Qed.

Lemma always_raises_bind_raise {A B} (e : exn) (k : A -> M B) :
  always_raises (bind (raise e) k).
Proof. intros w. eexists. reflexivity. Qed.

End Quiet.

Ltac quiet :=
  repeat first
    [ apply quiet_bind_raise
    | apply quiet_ret
    | apply quiet_raise
    | apply quiet_ini_get
    | apply quiet_emit_log; reflexivity
    | apply quiet_call; reflexivity
    | apply quiet_bind; [|intros ?]
    | match goal with
      | |- quiet (if ?b then _ else _) => destruct b
      end ].

Ltac always_raises :=
  repeat first
    [ apply always_raises_bind_raise
    | apply always_raises_raise
    | apply always_raises_bind; intros ?
    | match goal with
      | |- always_raises (if ?b then _ else _) => destruct b
      end ].

Section Main.
Variable py_float : string -> option Q.
Variable tcorr_stats : scene -> Q -> gmap string Q.
Variable ssebop_version : string.
Variable ImageCollection : string -> list scene.
Variable intersects : geometry -> geometry -> bool.
Variable parse_int_set : string -> option (list Z).
Variable tmax_first : string -> option tmax_image.

Local Abbreviation main_of :=
  (main py_float tcorr_stats ssebop_version ImageCollection intersects
     parse_int_set tmax_first).

(** Whatever the configuration and the service do, [main] ends in an
    exception and leaves the store as it was. *)
Lemma main_never_acts (ini : ini_file) (overwrite : bool) (key : option string)
    (clock : Calendar.datetime) :
  always_raises (main_of ini overwrite key clock) /\
  quiet (main_of ini overwrite key clock).
Proof.
  unfold main. cbv zeta. split; [always_raises | quiet].
Qed.

(** The two checks of lines 43-49 on the end date. *)
Lemma end_date_check (ini : ini_file) (applies : bool) (test : string -> bool)
    (end_date : string) (w : world) :
  config_value ini "INPUTS" "end_date" = Some end_date ->
  (if applies
   then bind (ini_get ini "INPUTS" "end_date") (fun e => ret (test e))
   else ret false) w = (Ok (applies && test end_date), w).
Proof.
  intros Hend. destruct applies; [|reflexivity].
  now rewrite (bind_ok _ _ _ _ _ (ini_get_value _ _ _ _ w Hend)).
Qed.

(** C3: under a configuration that has the keys read so far and is not
    the fatal CIMIS case, and when the service accepts the
    initialisation, [main] raises the unbound-name error for [tmax_name]
    at lines 70-71: the only call it has made is the initialisation (the
    listings and the loop lie beyond), and nothing was submitted,
    cancelled or deleted. *)
Theorem main_raises_unbound_tmax_name
    (ini : ini_file) (overwrite : bool) (key : option string)
    (clock : Calendar.datetime) (w : world)
    (source end_date export_coll : string)
    (Hsource : config_value ini "SSEBOP" "tmax_source" = Some source)
    (Hend : config_value ini "INPUTS" "end_date" = Some end_date)
    (Hcoll : config_value ini "EXPORT" "export_coll" = Some export_coll)
    (Hnot_fatal : (upper source =? "CIMIS")%string
                  && str_lt end_date "2003-10-01" = false)
    (Hinit : failing w (calls w) = false) :
  exists w',
    main_of ini overwrite key clock w = (Raise (UnboundLocalError "tmax_name"), w') /\
    trace w' =
      trace w ++
      (if (upper source =? "DAYMET")%string && str_gt end_date "2017-12-31"
       then [LogWarning
               "DAYMET is not currently available past 2017-12-31, using median Tmax values"]
       else []) ++ [Called (Initialize key)] /\
    actions (trace w') = actions (trace w) /\
    remote w' = remote w.
Proof.
  assert (exists w',
    main_of ini overwrite key clock w = (Raise (UnboundLocalError "tmax_name"), w') /\
    trace w' =
      trace w ++
      (if (upper source =? "DAYMET")%string && str_gt end_date "2017-12-31"
       then [LogWarning
               "DAYMET is not currently available past 2017-12-31, using median Tmax values"]
       else []) ++ [Called (Initialize key)] /\
    remote w' = remote w) as (w' & Hmain & Htrace & Hremote).
  { unfold main. cbv zeta.
    rewrite (bind_ok _ _ _ _ _ (ini_get_value _ _ _ _ w Hsource)).
    rewrite (bind_ok _ _ _ _ _
               (end_date_check ini (upper source =? "CIMIS")%string
                  (fun e => str_lt e "2003-10-01") end_date w Hend)).
    rewrite Hnot_fatal. cbv iota.
    rewrite (bind_ok _ _ _ _ _ (ini_get_value _ _ _ _ w Hsource)).
    rewrite (bind_ok _ _ _ _ _
               (end_date_check ini (upper source =? "DAYMET")%string
                  (fun e => str_gt e "2017-12-31") end_date w Hend)).
    destruct ((upper source =? "DAYMET")%string && str_gt end_date "2017-12-31").
    - unfold bind at 1. unfold emit at 1. unfold bind at 1.
      rewrite call_ok by exact Hinit.
      rewrite (bind_ok _ _ _ _ _ (ini_get_value _ _ _ _ _ Hcoll)).
      eexists. split; [reflexivity|]. cbn. now rewrite <- app_assoc.
    - unfold bind at 1, ret at 1. unfold bind at 1.
      rewrite call_ok by exact Hinit.
      rewrite (bind_ok _ _ _ _ _ (ini_get_value _ _ _ _ _ Hcoll)).
      eexists. split; [reflexivity|]. cbn. auto. }
  exists w'. repeat split; try assumption.
  exact (proj2 (main_never_acts ini overwrite key clock) _ _ _ Hmain).
Qed.

(** C10, as the code has it: with the CIMIS source and an end date
    before 2003-10-01, [main] logs the error and leaves through
    [sys.exit()] before any call to the service, so no date is
    processed; [sys.exit()] is given no status, and the process ends
    with status 0. *)
Theorem cimis_before_2003_exits
    (ini : ini_file) (overwrite : bool) (key : option string)
    (clock : Calendar.datetime) (w : world) (source end_date : string)
    (Hsource : config_value ini "SSEBOP" "tmax_source" = Some source)
    (Hcimis : upper source = "CIMIS")
    (Hend : config_value ini "INPUTS" "end_date" = Some end_date)
    (Hbefore : str_lt end_date "2003-10-01" = true) :
  exists w',
    main_of ini overwrite key clock w = (Raise (SystemExit None), w') /\
    trace w' =
      trace w ++
      [LogError "CIMIS is not currently available before 2003-10-01, exiting"] /\
    calls w' = calls w /\
    remote w' = remote w /\
    exit_status (fst (main_of ini overwrite key clock w)) = 0.
Proof.
  assert (main_of ini overwrite key clock w =
            (Raise (SystemExit None),
             {| remote := remote w; failing := failing w; calls := calls w;
                trace := trace w ++
                  [LogError "CIMIS is not currently available before 2003-10-01, exiting"]
             |})) as Hmain.
  { unfold main. cbv zeta.
    rewrite (bind_ok _ _ _ _ _ (ini_get_value _ _ _ _ w Hsource)).
    rewrite (bind_ok _ _ _ _ _
               (end_date_check ini (upper source =? "CIMIS")%string
                  (fun e => str_lt e "2003-10-01") end_date w Hend)).
    rewrite Hcimis, Hbefore. reflexivity. }
  eexists. split; [exact Hmain|]. rewrite Hmain. cbn. auto.
Qed.

End Main.

(** ** Idempotence of a run without [overwrite] (C5) *)

Section Idempotence.
Variable py_float : string -> option Q.
Variable tcorr_stats : scene -> Q -> gmap string Q.
Variable ssebop_version : string.
Variable ImageCollection : string -> list scene.
Variable intersects : geometry -> geometry -> bool.

Local Abbreviation body :=
  (process_date py_float tcorr_stats ssebop_version ImageCollection intersects).
Local Abbreviation loop :=
  (date_loop py_float tcorr_stats ssebop_version ImageCollection intersects).
Local Abbreviation run_from_listings :=
  (run py_float tcorr_stats ssebop_version ImageCollection intersects).

Lemma ini_get_cases (i : ini_file) (s k : string) (w : world) :
  (exists v, config_value i s k = Some v /\ ini_get i s k w = (Ok v, w)) \/
  (config_value i s k = None /\ exists e, ini_get i s k w = (Raise e, w)).
Proof.
  unfold config_value, ini_get, bind. rewrite getitem_pure.
  destruct (i !! s) as [sec|]; cbn; [|right; eauto].
  rewrite getitem_pure. destruct (sec !! k); [left | right]; eauto.
Qed.

Lemma export_id_of_value (L : locals) (d : Calendar.datetime) (w : world) :
  exists r, export_id_of L d w = (r, w) /\
            forall X, r = Ok X <-> export_id_for L d = Some X.
Proof.
  unfold export_id_of, export_id_for.
  destruct (ini_get_cases (ini L) "EXPORT" "export_id_fmt" w)
    as [(fmt & -> & E) | (-> & e & E)];
    [rewrite (bind_ok _ _ _ _ _ E) | rewrite (bind_raise _ _ _ _ _ E)]; cbn;
    [|eexists; split; [reflexivity|]; split; discriminate].
  destruct (ini_get_cases (ini L) "EXPORT" "export_dest" w)
    as [(dest & -> & E') | (-> & e & E')];
    [rewrite (bind_ok _ _ _ _ _ E') | rewrite (bind_raise _ _ _ _ _ E')]; cbn;
    [|eexists; split; [reflexivity|]; split; discriminate].
  unfold format.
  destruct (format_go _ fmt None) as [x|e]; cbn;
    eexists; (split; [reflexivity|]); split; congruence.
Qed.

Lemma asset_id_of_value (L : locals) (d : Calendar.datetime) (w : world) :
  exists r, asset_id_of L d w = (r, w) /\
    forall dest, config_value (ini L) "EXPORT" "export_dest" = Some dest ->
      r = Ok (if (dest =? "ASSET")%string then Some (asset_id_for L d) else None).
Proof.
  unfold asset_id_of, asset_id_for.
  destruct (ini_get_cases (ini L) "EXPORT" "export_dest" w)
    as [(dest & -> & E) | (-> & e & E)];
    [rewrite (bind_ok _ _ _ _ _ E) | rewrite (bind_raise _ _ _ _ _ E)]; cbn;
    eexists; (split; [reflexivity|]); [|discriminate].
  now intros ? [= <-].
Qed.

Lemma float_read_pure (i : ini_file) (s k : string) (w : world) :
  exists r, bind (ini_get i s k) (float py_float) w = (r, w).
Proof.
  destruct (ini_get_cases i s k w) as [(v & _ & E) | (_ & e & E)];
    [rewrite (bind_ok _ _ _ _ _ E) | rewrite (bind_raise _ _ _ _ _ E)]; eauto.
  unfold float. destruct (py_float v); eauto.
Qed.

(** Without [overwrite] the reconciler makes no call. *)
Lemma reconcile_no_overwrite_pure (L : locals) (X : string)
    (aid : option string) (w : world) :
  overwrite_flag L = false -> exists r, reconcile L X aid w = (r, w).
Proof.
  intros Hov. unfold reconcile. rewrite Hov.
  destruct (bool_decide (is_Some (tasks L !! X))); [eauto|].
  destruct (ini_get_cases (ini L) "EXPORT" "export_dest" w)
    as [(dest & _ & E) | (_ & e & E)];
    [rewrite (bind_ok _ _ _ _ _ E) | rewrite (bind_raise _ _ _ _ _ E)]; eauto.
  destruct (upper dest =? "ASSET")%string; [|eauto].
  destruct aid as [a|]; unfold bind, load_var, ret, raise; [|eauto].
  destruct (bool_decide (a ∈ asset_list L)); eauto.
Qed.

Lemma reconcile_no_overwrite_asset (L : locals) (X A : string) (w : world) :
  overwrite_flag L = false ->
  config_value (ini L) "EXPORT" "export_dest" = Some "ASSET" ->
  reconcile L X (Some A) w =
    (Ok (negb (bool_decide (is_Some (tasks L !! X)) || bool_decide (A ∈ asset_list L))), w).
Proof.
  intros Hov Hdest. unfold reconcile. rewrite Hov.
  destruct (bool_decide (is_Some (tasks L !! X))); [reflexivity|].
  rewrite (bind_ok _ _ _ _ _ (ini_get_value _ _ _ _ w Hdest)).
  change (upper "ASSET" =? "ASSET")%string with true. cbv iota.
  unfold bind, load_var, ret.
  destruct (bool_decide (A ∈ asset_list L)); reflexivity.
Qed.

(** One date without [overwrite], destination [ASSET]: either no call is
    made, and then a normal end means that the calendar or the listings
    skipped the date, or the one call made is the submission of a date
    that the listings do not cover. *)
Lemma process_date_no_overwrite (L : locals) (d : Calendar.datetime)
    (w w' : world) (r : result unit) :
  overwrite_flag L = false ->
  config_value (ini L) "EXPORT" "export_dest" = Some "ASSET" ->
  body L d w = (r, w') ->
  (w' = w /\
   (r = Ok tt -> calendar_skip L d = true \/
      exists X, export_id_for L d = Some X /\
        (is_Some (tasks L !! X) \/ asset_id_for L d ∈ asset_list L)))
  \/
  (calendar_skip L d = false /\
   exists X img, export_id_for L d = Some X /\
     (~ is_Some (tasks L !! X)) /\ (asset_id_for L d ∉ asset_list L) /\
     call (StartExport X (asset_id_for L d) img (grid L)) w = (r, w')).
Proof.
  intros Hov Hdest. unfold process_date.
  destruct (calendar_skip L d) eqn:Hcal.
  { intros [= <- <-]. left. auto. }
  destruct (export_id_of_value L d w) as (r1 & E1 & HX).
  destruct r1 as [X|e1];
    [rewrite (bind_ok _ _ _ _ _ E1) | rewrite (bind_raise _ _ _ _ _ E1)];
    [|intros [= <- <-]; left; split; [reflexivity | discriminate]].
  pose proof (proj1 (HX X) eq_refl) as HidX.
  destruct (asset_id_of_value L d w) as (r2 & E2 & HA).
  rewrite (HA _ Hdest) in E2.
  change ("ASSET" =? "ASSET")%string with true in E2. cbv iota in E2.
  rewrite (bind_ok _ _ _ _ _ E2).
  rewrite (bind_ok _ _ _ _ _ (reconcile_no_overwrite_asset L X _ w Hov Hdest)).
  destruct (bool_decide (is_Some (tasks L !! X))) eqn:Hjob; cbn [orb negb].
  { intros [= <- <-]. left. split; [reflexivity|]. intros _. right.
    exists X. split; [assumption|]. left. now apply bool_decide_eq_true in Hjob. }
  destruct (bool_decide (asset_id_for L d ∈ asset_list L)) eqn:Hasset; cbn [negb].
  { intros [= <- <-]. left. split; [reflexivity|]. intros _. right.
    exists X. split; [assumption|]. right. now apply bool_decide_eq_true in Hasset. }
  apply bool_decide_eq_false in Hjob, Hasset.
  destruct (float_read_pure (ini L) "INPUTS" "cloud_cover" w) as ([cc|e] & Ecc);
    [rewrite (bind_ok _ _ _ _ _ Ecc) | rewrite (bind_raise _ _ _ _ _ Ecc)];
    [|intros [= <- <-]; left; split; [reflexivity | discriminate]].
  destruct (float_read_pure (ini L) (model_name L) "tdiff_threshold" w) as ([td|e] & Etd);
    [rewrite (bind_ok _ _ _ _ _ Etd) | rewrite (bind_raise _ _ _ _ _ Etd)];
    [|intros [= <- <-]; left; split; [reflexivity | discriminate]].
  destruct (float_read_pure (ini L) "TCORR" "min_pixel_count" w) as ([mp|e] & Emp);
    [rewrite (bind_ok _ _ _ _ _ Emp) | rewrite (bind_raise _ _ _ _ _ Emp)];
    [|intros [= <- <-]; left; split; [reflexivity | discriminate]].
  unfold submit.
  rewrite (bind_ok _ _ _ _ _ (ini_get_value _ _ _ _ w Hdest)).
  change ("ASSET" =? "ASSET")%string with true. cbv iota.
  unfold bind at 1, load_var, ret. intros Hcall.
  right. split; [reflexivity|]. eauto 10.
Qed.

(** With any other destination a date without [overwrite] makes no
    call. *)
Lemma process_date_other_dest (L : locals) (d : Calendar.datetime)
    (w w' : world) (r : result unit) :
  overwrite_flag L = false ->
  config_value (ini L) "EXPORT" "export_dest" <> Some "ASSET" ->
  body L d w = (r, w') -> w' = w.
Proof.
  intros Hov Hdest. unfold process_date.
  destruct (calendar_skip L d); [now intros [= <- <-]|].
  destruct (export_id_of_value L d w) as ([X|e1] & E1 & _);
    [rewrite (bind_ok _ _ _ _ _ E1) | rewrite (bind_raise _ _ _ _ _ E1)];
    [|now intros [= <- <-]].
  destruct (asset_id_of_value L d w) as ([aid|e2] & E2 & _);
    [rewrite (bind_ok _ _ _ _ _ E2) | rewrite (bind_raise _ _ _ _ _ E2)];
    [|now intros [= <- <-]].
  destruct (reconcile_no_overwrite_pure L X aid w Hov) as ([go|e3] & E3);
    [rewrite (bind_ok _ _ _ _ _ E3) | rewrite (bind_raise _ _ _ _ _ E3)];
    [|now intros [= <- <-]].
  destruct go; cbn [negb]; [|now intros [= <- <-]].
  destruct (float_read_pure (ini L) "INPUTS" "cloud_cover" w) as ([cc|e] & Ecc);
    [rewrite (bind_ok _ _ _ _ _ Ecc) | rewrite (bind_raise _ _ _ _ _ Ecc)];
    [|now intros [= <- <-]].
  destruct (float_read_pure (ini L) (model_name L) "tdiff_threshold" w) as ([td|e] & Etd);
    [rewrite (bind_ok _ _ _ _ _ Etd) | rewrite (bind_raise _ _ _ _ _ Etd)];
    [|now intros [= <- <-]].
  destruct (float_read_pure (ini L) "TCORR" "min_pixel_count" w) as ([mp|e] & Emp);
    [rewrite (bind_ok _ _ _ _ _ Emp) | rewrite (bind_raise _ _ _ _ _ Emp)];
    [|now intros [= <- <-]].
  unfold submit.
  destruct (ini_get_cases (ini L) "EXPORT" "export_dest" w)
    as [(dest & Hd & E) | (_ & e & E)];
    [rewrite (bind_ok _ _ _ _ _ E) | rewrite (bind_raise _ _ _ _ _ E)];
    [|now intros [= <- <-]].
  destruct (String.eqb_spec dest "ASSET") as [->|_]; [contradiction|].
  now intros [= <- <-].
Qed.

Lemma call_ok_inv (c : remote_call) (w w' : world) :
  call c w = (Ok tt, w') -> w' = after_call c w.
Proof.
  unfold call. destruct (failing w (calls w)); [discriminate|].
  now intros [= <-].
Qed.

Lemma call_listing (c : remote_call) (w w' : world) (r : result unit) :
  action_of (Called c) = None -> store_apply c (remote w) = remote w ->
  call c w = (r, w') ->
  remote w' = remote w /\ actions (trace w') = actions (trace w).
Proof.
  intros Hc Hst. unfold call. destruct (failing w (calls w)); intros [= <- <-]; cbn.
  - auto.
  - split; [assumption|]. rewrite actions_app. unfold actions at 2.
    cbn [omap list_omap]. rewrite Hc. apply app_nil_r.
Qed.

(** A run without [overwrite] that ends normally only adds jobs, and
    every date the calendar let through was skipped for its listing or
    has its job pending at the end. *)
Lemma loop_first_run (L : locals) (dates : list Calendar.datetime) (w w1 : world) :
  overwrite_flag L = false ->
  config_value (ini L) "EXPORT" "export_dest" = Some "ASSET" ->
  loop L dates w = (Ok tt, w1) ->
  (exists new, pending (remote w1) = pending (remote w) ++ new) /\
  assets (remote w1) = assets (remote w) /\
  forall d, d ∈ dates -> calendar_skip L d = false ->
    exists X, export_id_for L d = Some X /\
      (is_Some (tasks L !! X) \/ asset_id_for L d ∈ asset_list L \/
       exists j, j ∈ pending (remote w1) /\ job_description j = X /\
                 job_asset j = asset_id_for L d).
Proof.
  intros Hov Hdest. revert w.
  induction dates as [|d ds IH]; intros w Hloop.
  - injection Hloop as <-. split; [exists []; now rewrite app_nil_r|].
    split; [reflexivity|]. intros d Hd. inversion Hd.
  - cbn [date_loop] in Hloop.
    apply bind_inv_ok in Hloop as ([] & wa & Hd & Hds).
    destruct (IH wa Hds) as ((new & Hnew) & Hassets & Hcov).
    destruct (process_date_no_overwrite L d w wa (Ok tt) Hov Hdest Hd)
      as [(-> & Hskip) | (Hcal & X & img & HX & _ & _ & Hcall)].
    + split; [eauto|]. split; [assumption|].
      intros d' [->|Hd']%elem_of_cons Hcal'; [|now apply Hcov].
      destruct (Hskip eq_refl) as [Hc | (X & HX & [Hj|Ha])]; [congruence| |];
        exists X; auto.
    + apply call_ok_inv in Hcall. subst wa. cbn in Hnew, Hassets.
      split; [rewrite Hnew, <- app_assoc; eauto|]. split; [assumption|].
      intros d' [->|Hd']%elem_of_cons Hcal'; [|now apply Hcov].
      exists X. split; [assumption|]. right. right.
      exists {| job_id := next_id (remote w); job_description := X;
                job_asset := asset_id_for L d |}.
      split; [|split; reflexivity].
      rewrite Hnew, !elem_of_app, list_elem_of_singleton. auto.
Qed.

(** A date the listings cover is skipped: a loop over covered dates
    leaves the world as it is. *)
Lemma loop_second_run (L : locals) (dates : list Calendar.datetime)
    (w w' : world) (r : result unit) :
  overwrite_flag L = false ->
  config_value (ini L) "EXPORT" "export_dest" = Some "ASSET" ->
  (forall d X, d ∈ dates -> calendar_skip L d = false ->
     export_id_for L d = Some X ->
     is_Some (tasks L !! X) \/ asset_id_for L d ∈ asset_list L) ->
  loop L dates w = (r, w') -> w' = w.
Proof.
  intros Hov Hdest. revert w.
  induction dates as [|d ds IH]; intros w Hcov Hloop.
  - now injection Hloop as _ <-.
  - cbn [date_loop] in Hloop. unfold bind in Hloop.
    destruct (body L d w) as [r1 wa] eqn:Hd.
    destruct (process_date_no_overwrite L d w wa r1 Hov Hdest Hd)
      as [(-> & _) | (Hcal & X & img & HX & Hj & Ha & _)].
    + destruct r1 as [[]|e]; [|now injection Hloop as _ <-].
      apply (IH w); [|assumption].
      intros d' X' Hd'. apply Hcov. apply elem_of_cons. auto.
    + exfalso. destruct (Hcov d X) as [?|?]; auto. apply elem_of_cons. auto.
Qed.

Lemma loop_other_dest (L : locals) (dates : list Calendar.datetime)
    (w w' : world) (r : result unit) :
  overwrite_flag L = false ->
  config_value (ini L) "EXPORT" "export_dest" <> Some "ASSET" ->
  loop L dates w = (r, w') -> w' = w.
Proof.
  intros Hov Hdest. revert w.
  induction dates as [|d ds IH]; intros w Hloop.
  - now injection Hloop as _ <-.
  - cbn [date_loop] in Hloop. unfold bind in Hloop.
    destruct (body L d w) as [r1 wa] eqn:Hd.
    apply (process_date_other_dest L d w wa r1 Hov Hdest) in Hd as ->.
    destruct r1 as [[]|e]; [now apply IH | now injection Hloop as _ <-].
Qed.

Lemma prefix_append (s t : string) : String.prefix s (s +:+ t) = true.
Proof.
  induction s as [|c s IH]; simpl.
  - now destruct t.
  - destruct (Ascii.ascii_dec c c); [exact IH | contradiction].
Qed.

Lemma append_assoc (a b c : string) : (a +:+ b) +:+ c = a +:+ b +:+ c.
Proof.
  induction a as [|x a IH]; [reflexivity|].
  change (String x ((a +:+ b) +:+ c) = String x (a +:+ b +:+ c)).
  now f_equal.
Qed.

Lemma asset_id_listed (L : locals) (d : Calendar.datetime) (st : store) :
  asset_id_for L d ∈ assets st ->
  asset_id_for L d ∈ listArtifacts (tcorr_daily_coll_id L) st.
Proof.
  intros H. unfold listArtifacts. apply list_elem_of_In, filter_In.
  split; [now apply list_elem_of_In|].
  unfold asset_id_for. rewrite <- append_assoc. apply prefix_append.
Qed.

Lemma listed_asset (coll_id a : string) (st : store) :
  a ∈ listArtifacts coll_id st -> a ∈ assets st.
Proof.
  unfold listArtifacts. rewrite !list_elem_of_In, filter_In. tauto.
Qed.

Lemma job_listed (st : store) (X : string) :
  is_Some (listPendingJobs st !! X) <->
  exists j, j ∈ pending st /\ job_description j = X.
Proof.
  unfold listPendingJobs. rewrite <- not_eq_None_Some.
  rewrite <- not_elem_of_list_to_map, <- list_fmap_compose.
  split.
  - intros H. apply dec_stable in H.
    apply list_elem_of_fmap in H as (j & -> & Hj). eauto.
  - intros (j & Hj & <-) Hn. apply Hn.
    apply list_elem_of_fmap. exists j. auto.
Qed.

(** A covered date stays covered when the service completes jobs. *)
Lemma covered_completes (L : locals) (d : Calendar.datetime) (st st' : store) :
  completes st st' -> covered L st d -> covered L st' d.
Proof.
  intros [st0 pre j post Hp] (X & HX & Hc). exists X. split; [assumption|].
  destruct Hc as [(j' & Hj' & Hd & Ha) | Ha]; cbn.
  - rewrite Hp in Hj'. apply elem_of_app in Hj' as [Hj'|Hj'].
    + left. exists j'. rewrite elem_of_app. auto.
    + apply elem_of_cons in Hj' as [->|Hj'].
      * right. rewrite <- Ha. apply elem_of_cons. auto.
      * left. exists j'. rewrite elem_of_app. auto.
  - right. apply elem_of_cons. auto.
Qed.

Lemma covered_rtc_completes (L : locals) (d : Calendar.datetime) (st st' : store) :
  rtc completes st st' -> covered L st d -> covered L st' d.
Proof. induction 1; eauto using covered_completes. Qed.

(** The part of a run before the loop: it either raises, having done
    nothing to the store, or enters the loop with the listings of the
    store. *)
Lemma run_enters_loop (L : locals) (dates : list Calendar.datetime)
    (w w' : world) (r : result unit) :
  run_from_listings L dates w = (r, w') ->
  ((exists e, r = Raise e) /\ remote w' = remote w /\
   actions (trace w') = actions (trace w))
  \/
  exists dest wa,
    config_value (ini L) "EXPORT" "export_dest" = Some dest /\
    remote wa = remote w /\ actions (trace wa) = actions (trace w) /\
    loop
      (with_listings L (listArtifacts (tcorr_daily_coll_id L) (remote w))
         (listPendingJobs (remote w))) dates wa = (r, w').
Proof.
  unfold run.
  destruct (ini_get_cases (ini L) "EXPORT" "export_dest" w)
    as [(dest & Hd & E) | (_ & e & E)];
    [rewrite (bind_ok _ _ _ _ _ E) | rewrite (bind_raise _ _ _ _ _ E)];
    [|intros [= <- <-]; left; eauto].
  destruct (upper dest =? "ASSET")%string;
    [|intros [= <- <-]; left; eauto].
  unfold get_ee_assets, get_ee_tasks, get_store, bind, ret.
  destruct (call (ListAssets (tcorr_daily_coll_id L)) w) as [r1 w1] eqn:E1.
  apply call_listing in E1 as (Hr1 & Ha1); [|reflexivity..].
  destruct r1 as [[]|e]; [|intros [= <- <-]; left; eauto].
  destruct (call ListTasks w1) as [r2 w2] eqn:E2.
  apply call_listing in E2 as (Hr2 & Ha2); [|reflexivity..].
  destruct r2 as [[]|e]; [|intros [= <- <-]; left; split; [eauto|split; congruence]].
  intros Hloop. right. exists dest, w2.
  split; [assumption|]. split; [congruence|]. split; [congruence|].
  rewrite Hr1, Hr2 in Hloop. rewrite Hr1 in Hloop. exact Hloop.
Qed.

(** C5, with the two conditions the code needs: after a run without
    [overwrite] that ended normally, and whatever jobs the service has
    completed since, a second run without [overwrite] over the same dates
    and configuration submits nothing (it makes no change to the store at
    all), provided every date the second run's clock lets through was let
    through by the first run's clock and the jobs pending before the
    first run under these dates' export identifiers were exports of these
    dates. *)
Theorem second_run_submits_nothing
    (L : locals) (clock2 : Calendar.datetime) (dates : list Calendar.datetime)
    (w0 w1 w2 : world)
    (Hov : overwrite_flag L = false)
    (Hmatch : jobs_match L dates (remote w0))
    (Hclock : forall d, d ∈ dates ->
                calendar_skip (with_today L clock2) d = false ->
                calendar_skip L d = false)
    (Hrun1 : run_from_listings L dates w0 = (Ok tt, w1))
    (Hcompleted : rtc completes (remote w1) (remote w2)) :
  submissions (trace (snd (run_from_listings (with_today L clock2) dates w2)))
    = submissions (trace w2) /\
  actions (trace (snd (run_from_listings (with_today L clock2) dates w2)))
    = actions (trace w2) /\
  remote (snd (run_from_listings (with_today L clock2) dates w2)) = remote w2.
Proof.
  enough (actions (trace (snd (run_from_listings (with_today L clock2) dates w2)))
            = actions (trace w2) /\
          remote (snd (run_from_listings (with_today L clock2) dates w2)) = remote w2)
    as [Ha Hr].
  { unfold submissions. rewrite Ha. auto. }
  destruct (run_from_listings (with_today L clock2) dates w2) as [r2 w2'] eqn:Hrun2. cbn [snd].
  apply run_enters_loop in Hrun2
    as [(_ & Hr & Ha) | (dest2 & wb & Hdest2 & Hrb & Hab & Hloop2)]; [auto|].
  cbn [with_today ini tcorr_daily_coll_id] in Hdest2, Hloop2.
  destruct (decide (dest2 = "ASSET")) as [->|Hne].
  2:{ apply loop_other_dest in Hloop2 as ->; [auto|exact Hov|].
      cbn. rewrite Hdest2. congruence. }
  apply run_enters_loop in Hrun1
    as [((e & He) & _) | (dest1 & wa & Hdest1 & Hra & _ & Hloop1)];
    [discriminate|].
  assert (dest1 = "ASSET") as -> by congruence.
  apply loop_first_run in Hloop1 as ((new & Hnew) & Hassets & Hcov);
    [|exact Hov|exact Hdest1].
  cbn [with_listings tasks asset_list] in Hcov.
  apply loop_second_run in Hloop2 as ->; [auto|exact Hov|exact Hdest2|].
  intros d X Hd Hcal HX.
  cbn [with_listings with_today tasks asset_list].
  assert (covered L (remote w1) d) as Hc1.
  { destruct (Hcov d Hd (Hclock d Hd Hcal)) as (X1 & HX1 & Hc).
    exists X1. split; [exact HX1|].
    destruct Hc as [Hj | [Ha | Hj]].
    - apply job_listed in Hj as (j & Hj & Hjd). left. exists j.
      rewrite Hnew, elem_of_app, Hra. split; [auto|]. split; [assumption|].
      apply (Hmatch j d); [assumption..|]. now rewrite Hjd.
    - right. rewrite Hassets, Hra. eapply listed_asset, Ha.
    - left. exact Hj. }
  apply (covered_rtc_completes L d _ _ Hcompleted) in Hc1
    as (X2 & HX2 & Hc2).
  change (export_id_for L d = Some X) in HX.
  assert (X2 = X) as -> by congruence.
  destruct Hc2 as [(j & Hj & Hjd & _) | Ha].
  - left. apply job_listed. eauto.
  - right. now apply (asset_id_listed L d).
Qed.

End Idempotence.

(** The first run submits 2020-01-01 and 2020-01-02; the service then
    completes the first job; the second run, a day later, submits
    nothing. *)
Lemma second_run_witness :
  submissions (trace (snd (SampleRuns.run_from
      (with_today SampleRuns.L0 (Calendar.mkdate 2020 6 2))
      (Sample.world0 SampleRuns.store_one_completed Sample.never)))) = [].
Proof.
  refine (proj1 (second_run_submits_nothing Sample.float_of_digits Sample.stats
            "0.1.0" Sample.catalogue (fun _ _ => true)
            SampleRuns.L0 (Calendar.mkdate 2020 6 2) SampleRuns.dates
            (Sample.world0 Sample.empty_store Sample.never)
            (snd (SampleRuns.run_from SampleRuns.L0
                    (Sample.world0 Sample.empty_store Sample.never)))
            (Sample.world0 SampleRuns.store_one_completed Sample.never)
            eq_refl _ _ _ _)).
  - intros j d Hj. inversion Hj.
  - intros d Hd _.
    apply elem_of_cons in Hd as [->|Hd]; [vm_compute; reflexivity|].
    apply elem_of_cons in Hd as [->|Hd]; [vm_compute; reflexivity|].
    inversion Hd.
  - vm_compute. reflexivity.
  - apply rtc_once.
    replace (remote (snd (SampleRuns.run_from SampleRuns.L0
                            (Sample.world0 Sample.empty_store Sample.never))))
      with SampleRuns.store_after_first_run by (vm_compute; reflexivity).
    apply (completes_job SampleRuns.store_after_first_run []
             (SampleRuns.job_of 0 "20200101") [SampleRuns.job_of 1 "20200102"]).
    reflexivity.
Defined.

(** C5 as stated fails in two ways.  A date that the first run skips
    because it is the day of the run (lines 193-195) is submitted by a
    second run on the next day: the first run, on 2020-01-02, submits
    2020-01-01 only and the second, on 2020-01-03, submits 2020-01-02.
    And a date that the first run skips for a job pending under its
    export identifier that exports to another collection is submitted by
    the second run once the service has completed that job. *)
Lemma second_run_counterexample :
  let s1 := Submit (Sample.export_id "20200101") (Sample.asset_id "20200101") in
  let s2 := Submit (Sample.export_id "20200102") (Sample.asset_id "20200102") in
  let first :=
    SampleRuns.run_from (with_today SampleRuns.L0 (Calendar.mkdate 2020 1 2))
      (Sample.world0 Sample.empty_store Sample.never) in
  let second :=
    SampleRuns.run_from (with_today SampleRuns.L0 (Calendar.mkdate 2020 1 3))
      (Sample.world0 (remote (snd first)) Sample.never) in
  let first' :=
    SampleRuns.run_from SampleRuns.L0
      (Sample.world0 SampleFailures.store_other_job Sample.never) in
  let second' :=
    SampleRuns.run_from SampleRuns.L0
      (Sample.world0 SampleFailures.store_other_completed Sample.never) in
  (fst first = Ok tt /\ submissions (trace (snd first)) = [s1] /\
   fst second = Ok tt /\ submissions (trace (snd second)) = [s2]) /\
  (fst first' = Ok tt /\ submissions (trace (snd first')) = [s2] /\
   completes (remote (snd first')) SampleFailures.store_other_completed /\
   fst second' = Ok tt /\ submissions (trace (snd second')) = [s1]).
Proof.
  cbv zeta. split; [vm_compute; repeat split; reflexivity|].
  split; [vm_compute; reflexivity|]. split; [vm_compute; reflexivity|].
  split; [|vm_compute; split; reflexivity].
  replace (remote (snd (SampleRuns.run_from SampleRuns.L0
                          (Sample.world0 SampleFailures.store_other_job Sample.never))))
    with {| pending := [] ++ SampleFailures.other_job ::
                         [ {| job_id := 6; job_description := Sample.export_id "20200102";
                              job_asset := Sample.asset_id "20200102" |} ];
            assets := []; next_id := 7 |}
    by (vm_compute; reflexivity).
  exact (completes_job
           {| pending := [] ++ SampleFailures.other_job ::
                           [ {| job_id := 6; job_description := Sample.export_id "20200102";
                                job_asset := Sample.asset_id "20200102" |} ];
              assets := []; next_id := 7 |}
           [] SampleFailures.other_job
           [ {| job_id := 6; job_description := Sample.export_id "20200102";
                job_asset := Sample.asset_id "20200102" |} ] eq_refl).
Qed.

Lemma main_unbound_witness :
  exists w',
    SampleRuns.run_main Sample.ini0 false (Sample.world0 Sample.empty_store Sample.never)
    = (Raise (UnboundLocalError "tmax_name"), w').
Proof.
  destruct (main_raises_unbound_tmax_name Sample.float_of_digits Sample.stats "0.1.0"
              Sample.catalogue (fun _ _ => true) (fun _ => None)
              (fun _ => Some Sample.tmax0)
              Sample.ini0 false None (Calendar.mkdate 2020 6 1)
              (Sample.world0 Sample.empty_store Sample.never)
              "topowx_median_v0" "2020-01-03" "projects/usgs-ssebop/tcorr")
    as (w' & E & _); [vm_compute; reflexivity..|].
  exists w'. exact E.
Defined.

Lemma cimis_exit_witness :
  exists w',
    SampleRuns.run_main SampleRuns.ini_cimis false
      (Sample.world0 Sample.empty_store Sample.never)
    = (Raise (SystemExit None), w').
Proof.
  destruct (cimis_before_2003_exits Sample.float_of_digits Sample.stats "0.1.0"
              Sample.catalogue (fun _ _ => true) (fun _ => None)
              (fun _ => Some Sample.tmax0)
              SampleRuns.ini_cimis false None (Calendar.mkdate 2020 6 1)
              (Sample.world0 Sample.empty_store Sample.never)
              "CIMIS" "2003-09-30")
    as (w' & E & _); [vm_compute; reflexivity..|].
  exists w'. exact E.
Defined.

(** With the CIMIS source and the end date 2003-09-30 the error is logged,
    no call is made, and the exit status is 0, not a non-zero one. *)
Lemma cimis_exit_status_counterexample :
  let out := SampleRuns.run_main SampleRuns.ini_cimis false
               (Sample.world0 Sample.empty_store Sample.never) in
  fst out = Raise (SystemExit None) /\
  trace (snd out) =
    [LogError "CIMIS is not currently available before 2003-10-01, exiting"] /\
  calls (snd out) = 0%nat /\
  exit_status (fst out) = 0 /\
  ~ exit_status (fst out) <> 0.
Proof. vm_compute. repeat split; try reflexivity. intros H. now apply H. Qed.

(** * Further properties of the code *)

(** ** Calendar: dates as strings (lines 177-211, 363-372) *)

Section DateStrings.
Import Calendar.

Lemma digit_val_digit (n : Z) : digit_val (digit n) = Some (n mod 10).
Proof.
  unfold digit_val. rewrite digit_code.
  pose proof (Z.mod_pos_bound n 10 ltac:(lia)).
  replace ((48 <=? 48 + Z.to_N (n mod 10))%N) with true
    by (symmetry; apply N.leb_le; lia).
  replace ((48 + Z.to_N (n mod 10) <=? 57)%N) with true
    by (symmetry; apply N.leb_le; lia).
  cbn. f_equal. lia.
Qed.

Lemma digit_inj (a b : Z) : digit a = digit b -> a mod 10 = b mod 10.
Proof.
  intros H. apply (f_equal digit_val) in H.
  rewrite !digit_val_digit in H. now injection H.
Qed.

Lemma valid_day_bound (d : datetime) : valid d -> 1 <= day d <= 31.
Proof.
  unfold valid, days_in_month. intros (_ & _ & H). repeat case_match; lia.
Qed.

Lemma parse_month_digits (m : Z) (rest : string) :
  1 <= m <= 12 ->
  parse_month (String (digit (m / 10)) (String (digit m) rest)) = Some (m, rest).
Proof.
  intros Hm. assert (m ∈ seqZ 1 12) as Hin by (apply elem_of_seqZ; lia).
  vm_compute seqZ in Hin.
  repeat (apply elem_of_cons in Hin as [-> | Hin]; [reflexivity|]).
  inversion Hin.
Qed.

Lemma parse_day_digits (dd : Z) :
  1 <= dd <= 31 ->
  parse_day (String (digit (dd / 10)) (String (digit dd) EmptyString))
  = Some (dd, EmptyString).
Proof.
  intros Hd. assert (dd ∈ seqZ 1 31) as Hin by (apply elem_of_seqZ; lia).
  vm_compute seqZ in Hin.
  repeat (apply elem_of_cons in Hin as [-> | Hin]; [reflexivity|]).
  inversion Hin.
Qed.

(** From the year 1000 on the string of a date has the form [strptime]
    expects, and parses back to the date. *)
Lemma strptime_of_strftime (d : datetime) :
  valid d -> 1000 <= year d -> strptime_iso (strftime_iso d) = Some d.
Proof.
  intros Hd Hyear.
  pose proof (valid_day_bound d Hd) as Hday.
  destruct d as [y m dd]. destruct Hd as (Hy & Hm & Hdd). cbn in *.
  unfold strptime_iso, strftime_iso. cbn [year month day].
  rewrite year_digits_four by assumption.
  cbn match. rewrite !digit_val_digit. cbn [mbind option_bind].
  rewrite parse_month_digits by assumption. cbn [mbind option_bind].
  cbn match. rewrite parse_day_digits by assumption. cbn [mbind option_bind].
  replace (1000 * ((y / 1000) mod 10) + 100 * ((y / 100) mod 10)
           + 10 * ((y / 10) mod 10) + y mod 10) with y by divmod.
  cbn [year month day].
  replace (1 <=? y) with true by (symmetry; apply Z.leb_le; lia).
  replace (1 <=? m) with true by (symmetry; apply Z.leb_le; lia).
  replace (m <=? 12) with true by (symmetry; apply Z.leb_le; lia).
  replace (1 <=? dd) with true by (symmetry; apply Z.leb_le; lia).
  replace (dd <=? days_in_month y m) with true by (symmetry; apply Z.leb_le; lia).
  reflexivity.
Qed.

(** The compact form of a date: the digits of the year, then two digits
    for the month and two for the day, whatever the number of digits of
    the year. *)
Lemma strftime_compact_inj (d1 d2 : datetime) :
  valid d1 -> valid d2 ->
  strftime_compact d1 = strftime_compact d2 -> d1 = d2.
Proof.
  intros Hv1 Hv2.
  pose proof (valid_day_bound d1 Hv1) as Hday1.
  pose proof (valid_day_bound d2 Hv2) as Hday2.
  destruct d1 as [y1 m1 a1], d2 as [y2 m2 a2].
  destruct Hv1 as (Hy1 & Hm1 & _), Hv2 as (Hy2 & Hm2 & _).
  unfold strftime_compact, year_digits. cbn [year month day] in *.
  destruct (Z.ltb_spec y1 10); [|destruct (Z.ltb_spec y1 100);
    [|destruct (Z.ltb_spec y1 1000)]];
  (destruct (Z.ltb_spec y2 10); [|destruct (Z.ltb_spec y2 100);
    [|destruct (Z.ltb_spec y2 1000)]]);
  intros Heq;
  try (apply (f_equal String.length) in Heq; discriminate Heq);
  injection Heq; clear Heq; intros; repeat match goal with
                           | E : digit _ = digit _ |- _ => apply digit_inj in E
                           end;
  f_equal; divmod.
Qed.

End DateStrings.

Section CalendarRules.
Import Calendar.
Variable py_float : string -> option Q.
Variable tcorr_stats : scene -> Q -> gmap string Q.
Variable ssebop_version : string.
Variable ImageCollection : string -> list scene.
Variable intersects : geometry -> geometry -> bool.


End CalendarRules.


Section DateIdentifiers.
Import Calendar.
Variable ssebop_version : string.

Lemma asset_id_of_some (L : locals) (d : datetime) (w w' : world) (a : string) :
  asset_id_of L d w = (Ok (Some a), w') -> a = asset_id_for L d.
Proof.
  destruct (asset_id_of_value L d w) as (r & E & Hr). rewrite E.
  destruct (config_value (ini L) "EXPORT" "export_dest") as [dest|] eqn:Hd.
  - rewrite (Hr dest eq_refl).
    destruct (dest =? "ASSET")%string; [|discriminate]. now intros [= <- _].
  - unfold asset_id_of in E.
    destruct (ini_get_cases (ini L) "EXPORT" "export_dest" w)
      as [(v & Hv & _) | (_ & e & Ee)]; [congruence|].
    rewrite (bind_raise _ _ _ _ _ Ee) in E. injection E as <-. discriminate.
Qed.

(** Two dates that get the same asset identifier are the same date: the
    destination keeps one image per date. *)
Theorem asset_id_determines_date (L : locals) (d1 d2 : datetime)
    (w1 w1' w2 w2' : world) (a : string)
    (Hd1 : valid d1) (Hd2 : valid d2)
    (H1 : asset_id_of L d1 w1 = (Ok (Some a), w1'))
    (H2 : asset_id_of L d2 w2 = (Ok (Some a), w2')) :
  d1 = d2.
Proof.
  apply asset_id_of_some in H1, H2.
  apply strftime_compact_inj; [assumption..|].
  unfold asset_id_for in *. rewrite H1 in H2.
  now do 2 apply String.app_inj in H2.
Qed.

(** The date properties of the daily image agree with one another for a
    date from the year 1000 on: the [date] string parses to the [year],
    [month] and [day] properties, and [doy] lies between 1 and 366 and
    counts the days from January 1st of the year. *)
Theorem image_date_properties (L : locals) (d : datetime)
    (coll : list tcorr_image) (Hd : valid d) (Hyear : 1000 <= year d) :
  let img := daily_tcorr_image ssebop_version L d coll in
  strptime_iso (img_date img)
    = Some (mkdate (img_year img) (img_month img) (img_day img)) /\
  1 <= img_doy img <= 366 /\
  toordinal d = toordinal (mkdate (img_year img) 1 1) + img_doy img - 1.
Proof.
  unfold daily_tcorr_image.
  cbn [img_date img_year img_month img_day img_doy].
  split; [rewrite strptime_of_strftime by assumption; now destruct d|].
  pose proof (day_of_year_bounds d Hd) as Hb.
  split; [destruct (is_leap (year d)); lia|].
  rewrite toordinal_day_of_year. unfold toordinal. cbn.
  unfold days_before_month. cbn. lia.
Qed.

End DateIdentifiers.

Lemma asset_id_determines_date_witness :
  Calendar.valid (Sample.jan 2) /\
  asset_id_of (Sample.locals0 Sample.ini0 false ∅ []) (Sample.jan 2)
    (Sample.world0 Sample.empty_store Sample.never)
  = (Ok (Some (Sample.asset_id "20200102")),
     Sample.world0 Sample.empty_store Sample.never) /\
  Sample.jan 2 = Sample.jan 2.
Proof.
  split; [repeat split; apply Z.leb_le; reflexivity|].
  split; [vm_compute; reflexivity|].
  apply (asset_id_determines_date (Sample.locals0 Sample.ini0 false ∅ [])
           (Sample.jan 2) (Sample.jan 2)
           (Sample.world0 Sample.empty_store Sample.never)
           (Sample.world0 Sample.empty_store Sample.never)
           (Sample.world0 Sample.empty_store Sample.never)
           (Sample.world0 Sample.empty_store Sample.never)
           (Sample.asset_id "20200102")
           ltac:(repeat split; apply Z.leb_le; reflexivity)
           ltac:(repeat split; apply Z.leb_le; reflexivity)
           ltac:(vm_compute; reflexivity) ltac:(vm_compute; reflexivity)).
Defined.

Lemma image_date_properties_witness :
  Calendar.valid (Sample.jan 2) /\ 1000 <= Calendar.year (Sample.jan 2) /\
  Calendar.strptime_iso
    (img_date (daily_tcorr_image "0.1.0" (Sample.locals0 Sample.ini0 false ∅ [])
                 (Sample.jan 2) []))
  = Some (Sample.jan 2).
Proof.
  split; [repeat split; apply Z.leb_le; reflexivity|].
  split; [apply Z.leb_le; reflexivity|].
  exact (proj1
           (image_date_properties "0.1.0" (Sample.locals0 Sample.ini0 false ∅ [])
              (Sample.jan 2) []
              ltac:(repeat split; apply Z.leb_le; reflexivity)
              ltac:(apply Z.leb_le; reflexivity))).
Defined.

(** ** Identifiers as strings (lines 75-77, 269-273, 291-296) *)

Section Identifiers.
Variable py_float : string -> option Q.
Variable tcorr_stats : scene -> Q -> gmap string Q.
Variable ssebop_version : string.
Variable ImageCollection : string -> list scene.
Variable intersects : geometry -> geometry -> bool.
Variable parse_int_set : string -> option (list Z).
Variable tmax_first : string -> option tmax_image.

Lemma split_on_cons (sep : ascii) (s : string) :
  exists h t, split_on sep s = h :: t.
Proof.
  destruct s as [|c s]; cbn; [eauto|].
  destruct (Ascii.eqb c sep); [eauto|].
  destruct (split_on sep s); eauto.
Qed.

Lemma join_cons_cons (sep x y : string) (l : list string) :
  join sep (x :: y :: l) = x +:+ sep +:+ join sep (y :: l).
Proof. reflexivity. Qed.

(** Joining the components of a string with the delimiter gives the
    string back: splitting loses nothing. *)
Theorem join_split_on (sep : ascii) (s : string) :
  join (String sep "") (split_on sep s) = s.
Proof.
  induction s as [|c s IH]; [reflexivity|].
  cbn [split_on]. destruct (split_on_cons sep s) as (h & t & E).
  rewrite E in IH |- *.
  destruct (Ascii.eqb_spec c sep) as [->|Hne].
  - rewrite join_cons_cons, IH. reflexivity.
  - destruct t as [|y t].
    + cbn in IH |- *. now rewrite IH.
    + rewrite join_cons_cons in IH |- *.
      change (String c (h +:+ String sep "" +:+ join (String sep "") (y :: t))
              = String c s).
      now rewrite IH.
Qed.

Lemma split_once_no_sep (sep : ascii) (s : string) :
  contains sep s = false -> split_once sep s = [s].
Proof.
  induction s as [|c s IH]; [reflexivity|]. cbn.
  intros [Hc Hs]%orb_false_iff. rewrite Hc, (IH Hs). reflexivity.
Qed.

(** A name with an underscore splits at its first underscore into a source
    without underscore and a version, and the two joined by an underscore
    are the name. *)
Theorem split_once_parts (sep : ascii) (name : string)
    (Hsep : contains sep name = true) :
  exists source version,
    split_once sep name = [source; version] /\
    name = source +:+ String sep version /\
    contains sep source = false.
Proof.
  induction name as [|c s IH]; [discriminate|].
  cbn in Hsep |- *. destruct (Ascii.eqb_spec c sep) as [->|Hne].
  - exists "", s. auto.
  - cbn in Hsep. destruct (IH Hsep) as (a & b & E & -> & Ha).
    exists (String c a), b. rewrite E. cbn.
    split; [reflexivity|]. split; [reflexivity|].
    apply orb_false_iff. split; [now apply Ascii.eqb_neq | assumption].
Qed.

(** A Tmax source name without an underscore has no version part: lines
    73-399 stop at line 77 with an [IndexError], before any call to the
    service. *)
Theorem tmax_source_without_version
    (ini : ini_file) (overwrite : bool) (clock : Calendar.datetime)
    (model coll_id name : string) (w : world)
    (Hname : config_value ini model "tmax_source" = Some name)
    (Hsep : contains "_" name = false) :
  main_from_line_73 py_float tcorr_stats ssebop_version ImageCollection intersects
    parse_int_set tmax_first ini overwrite clock model coll_id w
  = (Raise IndexError, w).
Proof.
  unfold main_from_line_73.
  rewrite (bind_ok _ _ _ _ _ (ini_get_value _ _ _ _ w Hname)).
  rewrite (split_once_no_sep _ _ Hsep). reflexivity.
Qed.

Lemma slice_last_cons {A} (n : nat) (x : A) (l : list A) :
  (n <= List.length l)%nat -> slice_last n (x :: l) = slice_last n l.
Proof.
  intros H. unfold slice_last. cbn [List.length].
  replace (S (List.length l) - n)%nat with (S (List.length l - n)) by lia.
  reflexivity.
Qed.

Lemma scene_id_of_prefixed (p index : string) :
  contains "_" p = false ->
  (3 <= List.length (split_on "_" index))%nat ->
  scene_id_of (p +:+ String "_" index) = scene_id_of index.
Proof.
  intros Hp Hlen. unfold scene_id_of.
  rewrite split_on_app_sep by assumption.
  now rewrite slice_last_cons.
Qed.

(** Merging two collections prefixes the indices, and the scene identifier
    does not see the prefix: a scene has the same identifier in the merged
    collection as in its own. *)
Theorem merge_keeps_scene_ids (c1 c2 : list scene)
    (Hparts : Forall (fun s => (3 <= List.length (split_on "_" (system_index s)))%nat)
                (c1 ++ c2)) :
  (fun s => scene_id_of (system_index s)) <$> merge c1 c2
  = (fun s => scene_id_of (system_index s)) <$> (c1 ++ c2).
Proof.
  apply Forall_app in Hparts as [H1 H2].
  unfold merge. rewrite !fmap_app. f_equal.
  - induction H1 as [|s l Hs _ IH]; [reflexivity|].
    cbn [fmap list_fmap] in *. rewrite IH. f_equal.
    now apply (scene_id_of_prefixed "1").
  - induction H2 as [|s l Hs _ IH]; [reflexivity|].
    cbn [fmap list_fmap] in *. rewrite IH. f_equal.
    now apply (scene_id_of_prefixed "2").
Qed.

End Identifiers.

Lemma split_once_parts_witness :
  contains "_" "topowx_median_v0" = true /\
  exists source version, split_once "_" "topowx_median_v0" = [source; version].
Proof.
  split; [reflexivity|].
  destruct (split_once_parts "_" "topowx_median_v0" eq_refl)
    as (source & version & E & _).
  exists source, version. exact E.
Defined.

Lemma tmax_source_without_version_witness :
  config_value SampleRuns.ini_cimis "SSEBOP" "tmax_source" = Some "CIMIS" /\
  contains "_" "CIMIS" = false /\
  main_from_line_73 Sample.float_of_digits Sample.stats "0.1.0" Sample.catalogue
    (fun _ _ => true) (fun _ => None) (fun _ => Some Sample.tmax0)
    SampleRuns.ini_cimis false (Calendar.mkdate 2020 6 1) "SSEBOP" "c"
    (Sample.world0 Sample.empty_store Sample.never)
  = (Raise IndexError, Sample.world0 Sample.empty_store Sample.never).
Proof.
  split; [vm_compute; reflexivity|]. split; [reflexivity|].
  apply (tmax_source_without_version Sample.float_of_digits Sample.stats "0.1.0"
           Sample.catalogue (fun _ _ => true) (fun _ => None)
           (fun _ => Some Sample.tmax0) SampleRuns.ini_cimis false
           (Calendar.mkdate 2020 6 1) "SSEBOP" "c" "CIMIS"
           (Sample.world0 Sample.empty_store Sample.never)).
  - vm_compute. reflexivity.
  - reflexivity.
Defined.

Lemma merge_keeps_scene_ids_witness :
  (fun s => scene_id_of (system_index s)) <$> merge [Sample.scene_20200102] []
  = [Some "LC08_044033_20200102"].
Proof.
  rewrite (merge_keeps_scene_ids [Sample.scene_20200102] []).
  - reflexivity.
  - repeat constructor.
Defined.

(** ** Daily aggregator: the raster (lines 328-333) *)

Section DailyRaster.

Lemma omap_nil_iff {A B} (f : A -> option B) (l : list A) :
  omap f l = [] <-> Forall (fun x => f x = None) l.
Proof.
  induction l as [|x l IH]; cbn.
  - split; [constructor | reflexivity].
  - destruct (f x) eqn:E.
    + split; [discriminate|]. intros H. inversion H; congruence.
    + rewrite IH. split; [now constructor | now inversion 1].
Qed.


Lemma values_at_pixel (coll : list tcorr_image) (p : pixel) :
  omap (M := list) (fun r : raster => r p) (ti_raster <$> coll)
  = omap (fun i => ti_raster i p) coll.
Proof.
  induction coll as [|i coll IH]; [reflexivity|].
  cbn. now rewrite IH.
Qed.

Lemma tcorr_img_none_iff (L : locals) (coll : list tcorr_image) (p : pixel) :
  tcorr_img L coll p = None <-> Forall (fun i => ti_raster i p = None) coll.
Proof.
  unfold tcorr_img. destruct coll as [|i coll].
  - cbn. split; [constructor | reflexivity].
  - replace (0 <? Z.of_nat (List.length (i :: coll))) with true
      by (symmetry; apply Z.ltb_lt; cbn [List.length]; lia).
    unfold raster_mean. rewrite values_at_pixel.
    rewrite <- (omap_nil_iff (fun i0 => ti_raster i0 p)).
    destruct (omap _ _); split; congruence.
Qed.

(** A pixel of the daily raster is masked exactly when every surviving
    scene image is masked there; in particular it is masked everywhere
    when no scene survives. *)
Theorem daily_pixel_masked_iff (L : locals) (coll : list tcorr_image) (p : pixel) :
  tcorr_img L coll p = None <-> Forall (fun i => ti_raster i p = None) coll.
Proof. apply tcorr_img_none_iff. Qed.




End DailyRaster.



(** ** Daily aggregator: the sensor and tile lists (lines 342-348) *)

Section PropertyLists.

Lemma aggregate_histogram_lookup (values : list string) (v : string) :
  aggregate_histogram values !! v
  = match List.length (filter (fun x => x = v) values) with
    | O => None
    | S n => Some (S n)
    end.
Proof.
  induction values as [|x values IH]; [reflexivity|].
  cbn [aggregate_histogram foldr]. fold (aggregate_histogram values).
  rewrite lookup_insert, filter_cons.
  destruct (decide (x = v)) as [->|Hne]; [|exact IH].
  cbn [List.length]. rewrite IH.
  now destruct (List.length (filter (fun x => x = v) values)).
Qed.

Lemma aggregate_histogram_some (values : list string) (v : string) (n : nat) :
  aggregate_histogram values !! v = Some n <->
  n = List.length (filter (fun x => x = v) values) /\ (0 < n)%nat.
Proof.
  rewrite aggregate_histogram_lookup.
  destruct (List.length (filter (fun x => x = v) values)).
  - split; [discriminate | lia].
  - split; [intros [= <-] | intros [-> _]]; [split; [reflexivity | lia] | reflexivity].
Qed.

(** The histogram gives every value the number of times it occurs, and
    has no entry for a value that does not occur. *)
Theorem histogram_counts_occurrences (values : list string) (v : string) (n : nat) :
  aggregate_histogram values !! v = Some n <->
  n = List.length (filter (fun x => x = v) values) /\ (0 < n)%nat.
Proof. apply aggregate_histogram_some. Qed.

Lemma aggregate_histogram_perm (l1 l2 : list string) :
  l1 ≡ₚ l2 -> aggregate_histogram l1 = aggregate_histogram l2.
Proof.
  intros H. apply map_eq. intros v.
  rewrite !aggregate_histogram_lookup. now rewrite H.
Qed.

(** The sensor list and the tile list do not depend on the order of the
    scenes. *)
Theorem unique_properties_order_independent
    (coll coll' : list tcorr_image) (property : tcorr_image -> string)
    (Hperm : coll ≡ₚ coll') :
  unique_properties coll property = unique_properties coll' property.
Proof.
  unfold unique_properties.
  rewrite (aggregate_histogram_perm (property <$> coll) (property <$> coll'));
    [reflexivity|].
  now rewrite Hperm.
Qed.

Lemma str_le_total (x y : string) : str_le x y = false -> str_le y x = true.
Proof.
  unfold str_le, String.leb. rewrite (String.compare_antisym x y).
  destruct (String.compare y x); cbn; congruence.
Qed.

Lemma insert_sorted_perm (x : string) (l : list string) :
  insert_sorted x l ≡ₚ x :: l.
Proof.
  induction l as [|y l IH]; [reflexivity|]. cbn.
  destruct (str_le x y); [reflexivity|].
  rewrite IH. apply Permutation_swap.
Qed.

Lemma sort_strings_perm (l : list string) : sort_strings l ≡ₚ l.
Proof.
  induction l as [|x l IH]; [reflexivity|].
  cbn [sort_strings foldr]. fold (sort_strings l).
  now rewrite insert_sorted_perm, IH.
Qed.

Lemma insert_sorted_sorted (x : string) (l : list string) :
  Sorted (fun a b => str_le a b = true) l ->
  Sorted (fun a b => str_le a b = true) (insert_sorted x l).
Proof.
  induction 1 as [|y l Hs IH Hhd]; cbn.
  - repeat constructor.
  - destruct (str_le x y) eqn:E.
    + constructor; [now constructor | now constructor].
    + constructor; [exact IH|].
      destruct l as [|z l]; cbn.
      * constructor. now apply str_le_total.
      * destruct (str_le x z); constructor;
          [now apply str_le_total | now inversion Hhd].
Qed.

Lemma sort_strings_sorted (l : list string) :
  Sorted (fun a b => str_le a b = true) (sort_strings l).
Proof.
  induction l as [|x l IH]; [constructor|].
  cbn [sort_strings foldr]. fold (sort_strings l).
  now apply insert_sorted_sorted.
Qed.

Lemma elem_of_dict_keys (values : list string) (x : string) :
  x ∈ dict_keys (aggregate_histogram values) <-> x ∈ values.
Proof.
  unfold dict_keys. rewrite sort_strings_perm.
  rewrite list_elem_of_fmap. split.
  - intros ([k n] & -> & Hk). apply elem_of_map_to_list in Hk. cbn.
    apply aggregate_histogram_some in Hk as [-> Hpos].
    destruct (filter (fun x => x = k) values) as [|y l] eqn:E; [cbn in Hpos; lia|].
    assert (y ∈ filter (fun x => x = k) values) as Hy by (rewrite E; apply elem_of_cons; auto).
    apply list_elem_of_filter in Hy as [-> Hy]. exact Hy.
  - intros Hx.
    assert (x ∈ filter (fun y => y = x) values) as Hf
      by (apply list_elem_of_filter; auto).
    exists (x, List.length (filter (fun y => y = x) values)).
    split; [reflexivity|]. apply elem_of_map_to_list.
    apply aggregate_histogram_some. split; [reflexivity|].
    destruct (filter (fun y => y = x) values); [inversion Hf | cbn; lia].
Qed.

(** Split at its commas, a sensor or tile list is the list of the
    distinct values of the property over the surviving scenes, each once
    and in ascending order. *)
Theorem unique_properties_sorted_distinct
    (coll : list tcorr_image) (property : tcorr_image -> string)
    (Hne : coll <> [])
    (Hcomma : Forall (fun i => contains "," (property i) = false) coll) :
  let keys := split_on "," (unique_properties coll property) in
  NoDup keys /\
  Sorted (fun a b => str_le a b = true) keys /\
  forall x, x ∈ keys <-> exists i, i ∈ coll /\ property i = x.
Proof.
  assert (forall x, x ∈ dict_keys (aggregate_histogram (property <$> coll))
                    <-> exists i, i ∈ coll /\ property i = x) as Helem.
  { intros x. rewrite elem_of_dict_keys, list_elem_of_fmap.
    split; intros (i & H1 & H2); exists i; auto. }
  assert (split_on "," (unique_properties coll property)
          = dict_keys (aggregate_histogram (property <$> coll))) as ->.
  { unfold unique_properties. apply split_on_join.
    - destruct coll as [|i coll]; [congruence|].
      intros E. assert (property i ∈ @nil string) as Hin; [|inversion Hin].
      rewrite <- E. apply Helem. exists i. split; [apply elem_of_cons; auto | reflexivity].
    - apply Forall_forall. intros x Hx. apply Helem in Hx as (i & Hi & <-).
      rewrite Forall_forall in Hcomma. now apply Hcomma. }
  split; [|split; [apply sort_strings_sorted | exact Helem]].
  unfold dict_keys. rewrite sort_strings_perm. apply NoDup_fst_map_to_list.
Qed.

End PropertyLists.

Lemma unique_properties_order_independent_witness :
  unique_properties [SampleRasters.image_with 2; SampleRasters.image_with 4] ti_wrs2_tile
  = unique_properties [SampleRasters.image_with 4; SampleRasters.image_with 2] ti_wrs2_tile.
Proof.
  apply (unique_properties_order_independent
           [SampleRasters.image_with 2; SampleRasters.image_with 4]
           [SampleRasters.image_with 4; SampleRasters.image_with 2] ti_wrs2_tile).
  apply Permutation_swap.
Defined.

Lemma unique_properties_sorted_distinct_witness :
  NoDup (split_on ","
           (unique_properties [SampleRasters.image_with 2; SampleRasters.image_with 4]
              ti_spacecraft_id)).
Proof.
  apply (unique_properties_sorted_distinct
           [SampleRasters.image_with 2; SampleRasters.image_with 4] ti_spacecraft_id).
  - discriminate.
  - repeat constructor.
Defined.

(** ** Source selector: what the filters let through (lines 232-273) *)

Section Filters.
Import Calendar.
Variable ImageCollection : string -> list scene.
Variable intersects : geometry -> geometry -> bool.

Lemma millis_next_day (d : datetime) :
  valid d -> millis (next_day d) = millis d + 86400000.
Proof.
  intros Hd. unfold millis, days_between.
  rewrite toordinal_next_day by assumption. lia.
Qed.

Lemma filter_nil_all_false {A} (f : A -> bool) (l : list A) :
  (forall x, f x = false) -> List.filter f l = [].
Proof.
  intros H. induction l as [|x l IH]; [reflexivity|].
  cbn. now rewrite H.
Qed.

(** The time filter on Landsat 8 leaves no scene for a date before
    2013-03-24. *)
Theorem l8_coll_empty_before_cutoff
    (L : locals) (cloud_cover : Q) (d : datetime)
    (Hd : valid d)
    (Hbefore : toordinal d < toordinal (mkdate 2013 3 24)) :
  l8_coll ImageCollection intersects L cloud_cover d = [].
Proof.
  unfold l8_coll. apply filter_nil_all_false. intros s.
  apply andb_false_iff.
  destruct (Z.ltb_spec (millis (mkdate 2013 3 24)) (system_time_start s));
    [left | now right].
  unfold common_filters. rewrite millis_next_day by assumption.
  destruct (Z.ltb_spec (system_time_start s) (millis d + 86400000)).
  - exfalso. unfold millis, days_between in *. lia.
  - now rewrite andb_false_r.
Qed.

(** The time filter on Landsat 5 leaves no scene for a date from
    2011-12-31 on, although the selector still merges the Landsat 5
    collection on that day. *)
Theorem l5_coll_empty_on_and_after_cutoff
    (L : locals) (cloud_cover : Q) (d : datetime)
    (Hafter : toordinal (mkdate 2011 12 31) <= toordinal d) :
  l5_coll ImageCollection intersects L cloud_cover d = [] /\
  (d = mkdate 2011 12 31 ->
   landsat_coll ImageCollection intersects L cloud_cover d
   = reindex "1_" <$> l7_coll ImageCollection intersects L cloud_cover d).
Proof.
  assert (l5_coll ImageCollection intersects L cloud_cover d = []) as H5.
  { unfold l5_coll. apply filter_nil_all_false. intros s.
    apply andb_false_iff.
    destruct (Z.ltb_spec (system_time_start s) (millis (mkdate 2011 12 31)));
      [left | now right].
    unfold common_filters.
    destruct (Z.leb_spec (millis d) (system_time_start s)); [|reflexivity].
    exfalso. unfold millis, days_between in *. lia. }
  split; [exact H5|].
  intros ->. unfold landsat_coll.
  change (era_of (strftime_iso (mkdate 2011 12 31))) with L7_L5_merged.
  cbn [era_collection]. unfold merge. rewrite H5. apply app_nil_r.
Qed.

Lemma reindex_fields (p : string) (s : scene) :
  system_time_start (reindex p s) = system_time_start s /\
  CLOUD_COVER_LAND (reindex p s) = CLOUD_COVER_LAND s /\
  DATA_TYPE (reindex p s) = DATA_TYPE s /\
  SPACECRAFT_ID (reindex p s) = SPACECRAFT_ID s /\
  footprint (reindex p s) = footprint s.
Proof. repeat split. Qed.

Lemma common_filters_spec (L : locals) (cloud_cover : Q) (d : datetime) (s : scene) :
  valid d ->
  common_filters intersects L cloud_cover d s = true ->
  millis d <= system_time_start s < millis d + 86400000 /\
  intersects (footprint s) (tmax_mask_geometry L) = true /\
  (CLOUD_COVER_LAND s < cloud_cover)%Q /\
  DATA_TYPE s = "L1TP".
Proof.
  intros Hd. unfold common_filters. rewrite millis_next_day by assumption.
  intros ((((H1 & H2)%andb_prop & H3)%andb_prop & H4)%andb_prop & H5)%andb_prop.
  apply Z.leb_le in H1. apply Z.ltb_lt in H2. apply String.eqb_eq in H5.
  repeat split; try assumption.
  unfold Qltb in H4. apply negb_true_iff in H4.
  apply Qnot_le_lt. intros Hle. apply Qle_bool_iff in Hle. congruence.
Qed.

(** Every scene selected for a date was acquired on that date (its time
    stamp lies in the 24 hours from midnight), meets the Tmax geometry,
    has a land cloud cover below the configured ceiling and is an L1TP
    product, whatever the era and whether or not collections were
    merged. *)
Theorem selected_scenes_pass_filters
    (L : locals) (cloud_cover : Q) (d : datetime) (s : scene)
    (Hd : valid d)
    (Hs : s ∈ landsat_coll ImageCollection intersects L cloud_cover d) :
  millis d <= system_time_start s < millis d + 86400000 /\
  intersects (footprint s) (tmax_mask_geometry L) = true /\
  (CLOUD_COVER_LAND s < cloud_cover)%Q /\
  DATA_TYPE s = "L1TP".
Proof.
  assert (forall c, (c = l5_coll ImageCollection intersects L cloud_cover d \/
                     c = l7_coll ImageCollection intersects L cloud_cover d \/
                     c = l8_coll ImageCollection intersects L cloud_cover d) ->
                    forall x, x ∈ c ->
                    common_filters intersects L cloud_cover d x = true) as Hc.
  { intros c Hcases x Hx.
    destruct Hcases as [-> | [-> | ->]];
      unfold l5_coll, l7_coll, l8_coll in Hx;
      apply list_elem_of_In, filter_In in Hx as [_ Hx];
      [apply andb_prop in Hx as [Hx _] | | apply andb_prop in Hx as [Hx _]];
      exact Hx. }
  assert (forall c1 c2,
            (forall x, x ∈ c1 -> common_filters intersects L cloud_cover d x = true) ->
            (forall x, x ∈ c2 -> common_filters intersects L cloud_cover d x = true) ->
            forall x, x ∈ merge c1 c2 ->
            common_filters intersects L cloud_cover d x = true) as Hm.
  { intros c1 c2 H1 H2 x Hx. unfold merge in Hx.
    apply elem_of_app in Hx as [Hx|Hx];
      apply list_elem_of_fmap in Hx as (y & -> & Hy);
      [rewrite <- (H1 y Hy) | rewrite <- (H2 y Hy)]; reflexivity. }
  apply (common_filters_spec L cloud_cover d s Hd).
  unfold landsat_coll in Hs.
  destruct (era_of (strftime_iso d)); cbn [era_collection] in Hs.
  - apply (Hc _ (or_introl eq_refl) _ Hs).
  - apply (Hm _ _ (Hc _ (or_intror (or_introl eq_refl)))
             (Hc _ (or_introl eq_refl)) _ Hs).
  - apply (Hc _ (or_intror (or_introl eq_refl)) _ Hs).
  - apply (Hm _ _ (Hc _ (or_intror (or_intror eq_refl)))
             (Hc _ (or_intror (or_introl eq_refl))) _ Hs).
Qed.

End Filters.

Lemma l8_coll_empty_before_cutoff_witness :
  Calendar.valid (Calendar.mkdate 2013 3 23) /\
  l8_coll Sample.catalogue (fun _ _ => true)
    (Sample.locals0 Sample.ini0 false ∅ []) 70%Q (Calendar.mkdate 2013 3 23) = [].
Proof.
  split; [repeat split; apply Z.leb_le; reflexivity|].
  apply (l8_coll_empty_before_cutoff Sample.catalogue (fun _ _ => true)
           (Sample.locals0 Sample.ini0 false ∅ []) 70%Q (Calendar.mkdate 2013 3 23)).
  - repeat split; apply Z.leb_le; reflexivity.
  - apply Z.ltb_lt. reflexivity.
Defined.

Lemma l5_coll_empty_on_and_after_cutoff_witness :
  l5_coll Sample.catalogue (fun _ _ => true)
    (Sample.locals0 Sample.ini0 false ∅ []) 70%Q (Calendar.mkdate 2011 12 31) = [].
Proof.
  exact (proj1 (l5_coll_empty_on_and_after_cutoff Sample.catalogue (fun _ _ => true)
           (Sample.locals0 Sample.ini0 false ∅ []) 70%Q (Calendar.mkdate 2011 12 31)
           ltac:(apply Z.leb_le; reflexivity))).
Defined.

Lemma selected_scenes_pass_filters_witness :
  Calendar.valid (Sample.jan 2) /\
  reindex "1_" Sample.scene_20200102
    ∈ landsat_coll Sample.catalogue (fun _ _ => true)
        (Sample.locals0 Sample.ini0 false ∅ []) 70%Q (Sample.jan 2) /\
  DATA_TYPE (reindex "1_" Sample.scene_20200102) = "L1TP".
Proof.
  assert (reindex "1_" Sample.scene_20200102
            ∈ landsat_coll Sample.catalogue (fun _ _ => true)
                (Sample.locals0 Sample.ini0 false ∅ []) 70%Q (Sample.jan 2)) as Hin.
  { replace (landsat_coll Sample.catalogue (fun _ _ => true)
               (Sample.locals0 Sample.ini0 false ∅ []) 70%Q (Sample.jan 2))
      with [reindex "1_" Sample.scene_20200102] by (vm_compute; reflexivity).
    apply elem_of_cons. left. reflexivity. }
  split; [repeat split; apply Z.leb_le; reflexivity|]. split; [exact Hin|].
  apply (selected_scenes_pass_filters Sample.catalogue (fun _ _ => true)
           (Sample.locals0 Sample.ini0 false ∅ []) 70%Q (Sample.jan 2)
           (reindex "1_" Sample.scene_20200102)
           ltac:(repeat split; apply Z.leb_le; reflexivity) Hin).
Defined.

(** ** [main]: exits, destinations and defaults (lines 43-59, 117-144) *)

Section NeverExits.

Lemma never_exits_ret {A} (a : A) : never_exits (ret a).
Proof. intros w r w' [= <- _] st. discriminate. Qed.

Lemma never_exits_raise {A} (e : exn) :
  (forall st, e <> SystemExit st) -> never_exits (raise (A := A) e).
Proof. intros He w r w' [= <- _] st [= H]. now apply (He st). Qed.

Lemma never_exits_bind {A B} (m : M A) (k : A -> M B) :
  never_exits m -> (forall a, never_exits (k a)) -> never_exits (bind m k).
Proof.
  intros Hm Hk w r w'. unfold bind.
  destruct (m w) as [[a|e] w1] eqn:E.
  - apply Hk.
  - intros [= <- _] st [= ->]. exact (Hm _ _ _ E st eq_refl).
Qed.

Lemma never_exits_bind_raise {A B} (e : exn) (k : A -> M B) :
  (forall st, e <> SystemExit st) -> never_exits (bind (raise e) k).
Proof. intros He w r w' [= <- _] st [= H]. now apply (He st). Qed.

Lemma never_exits_getitem {V} (d : gmap string V) (k : string) :
  never_exits (getitem d k).
Proof.
  unfold getitem. destruct (d !! k);
    [apply never_exits_ret | now apply never_exits_raise].
Qed.

Lemma never_exits_ini_get (i : ini_file) (s k : string) : never_exits (ini_get i s k).
Proof. apply never_exits_bind; [|intros ?]; apply never_exits_getitem. Qed.

Lemma never_exits_emit (e : event) : never_exits (emit e).
Proof. intros w r w' [= <- _] st. discriminate. Qed.

Lemma never_exits_call (c : remote_call) : never_exits (call c).
Proof.
  intros w r w'. unfold call.
  destruct (failing w (calls w)); intros [= <- _] st; discriminate.
Qed.

End NeverExits.

Ltac never_exits :=
  repeat first
    [ apply never_exits_bind_raise; discriminate
    | apply never_exits_ret
    | apply never_exits_raise; discriminate
    | apply never_exits_ini_get
    | apply never_exits_emit
    | apply never_exits_call
    | apply never_exits_bind; [|intros ?]
    | match goal with
      | |- never_exits (if ?b then _ else _) => destruct b
      end ].

Section Exits.
Variable py_float : string -> option Q.
Variable tcorr_stats : scene -> Q -> gmap string Q.
Variable ssebop_version : string.
Variable ImageCollection : string -> list scene.
Variable intersects : geometry -> geometry -> bool.
Variable parse_int_set : string -> option (list Z).
Variable tmax_first : string -> option tmax_image.

Lemma ini_get_ok_inv (i : ini_file) (s k v : string) (w w' : world) :
  ini_get i s k w = (Ok v, w') -> config_value i s k = Some v /\ w' = w.
Proof.
  destruct (ini_get_cases i s k w) as [(v' & Hv & E) | (_ & e & E)];
    rewrite E; [|discriminate].
  now intros [= <- <-].
Qed.

(** [main] leaves through [sys.exit()] only in the CIMIS case of lines
    43-47: whenever it ends in [SystemExit], the source is CIMIS, the end
    date is before 2003-10-01, no status was given and no call to the
    service was made.  In particular the DAYMET case of lines 48-53 does
    not exit. *)
Theorem sys_exit_only_for_cimis
    (ini : ini_file) (overwrite : bool) (key : option string)
    (clock : Calendar.datetime) (w w' : world) (status : option Z)
    (Hexit : main py_float tcorr_stats ssebop_version ImageCollection intersects
               parse_int_set tmax_first ini overwrite key clock w
             = (Raise (SystemExit status), w')) :
  status = None /\
  calls w' = calls w /\
  exists source end_date,
    config_value ini "SSEBOP" "tmax_source" = Some source /\
    upper source = "CIMIS" /\
    config_value ini "INPUTS" "end_date" = Some end_date /\
    str_lt end_date "2003-10-01" = true.
Proof.
  revert Hexit. unfold main. cbv zeta. unfold bind at 1.
  destruct (ini_get ini "SSEBOP" "tmax_source" w) as [[source|e] w1] eqn:Esrc.
  2:{ intros Hexit. exfalso.
      apply (never_exits_ini_get _ _ _ _ _ _ Esrc status). congruence. }
  apply ini_get_ok_inv in Esrc as [Hsrc ->].
  unfold bind at 1.
  destruct (String.eqb_spec (upper source) "CIMIS") as [Hcimis|Hcimis].
  - unfold bind at 1.
    destruct (ini_get ini "INPUTS" "end_date" w) as [[end_date|e] w1] eqn:Eend.
    2:{ intros Hexit. exfalso.
        apply (never_exits_ini_get _ _ _ _ _ _ Eend status). congruence. }
    apply ini_get_ok_inv in Eend as [Hend ->].
    unfold ret at 1. destruct (str_lt end_date "2003-10-01") eqn:Hlt.
    + intros [= <- <-]. split; [reflexivity|]. split; [reflexivity|]. eauto 10.
    + intros Hexit. exfalso. revert Hexit.
      match goal with
      | |- ?m w = _ -> _ =>
          assert (never_exits m) as Hne by never_exits;
          intros Hexit; exact (Hne _ _ _ Hexit status eq_refl)
      end.
  - unfold ret at 1. intros Hexit. exfalso. revert Hexit.
    match goal with
    | |- ?m w = _ -> _ =>
        assert (never_exits m) as Hne by never_exits;
        intros Hexit; exact (Hne _ _ _ Hexit status eq_refl)
    end.
Qed.

End Exits.

Lemma sys_exit_only_for_cimis_witness :
  exists w',
    SampleRuns.run_main SampleRuns.ini_cimis false
      (Sample.world0 Sample.empty_store Sample.never)
    = (Raise (SystemExit None), w') /\ calls w' = 0%nat.
Proof.
  eexists. split; [vm_compute; reflexivity|].
  refine (proj1 (proj2 (sys_exit_only_for_cimis Sample.float_of_digits Sample.stats
            "0.1.0" Sample.catalogue (fun _ _ => true) (fun _ => None)
            (fun _ => Some Sample.tmax0) SampleRuns.ini_cimis false None
            (Calendar.mkdate 2020 6 1)
            (Sample.world0 Sample.empty_store Sample.never) _ None _))).
  vm_compute. reflexivity.
Defined.

(** ** The loop body and the spelling of the destination (lines 117-125, 200-230, 383-395) *)

Section Destination.
Variable py_float : string -> option Q.
Variable tcorr_stats : scene -> Q -> gmap string Q.
Variable ssebop_version : string.
Variable ImageCollection : string -> list scene.
Variable intersects : geometry -> geometry -> bool.

Local Abbreviation body :=
  (process_date py_float tcorr_stats ssebop_version ImageCollection intersects).
Local Abbreviation loop :=
  (date_loop py_float tcorr_stats ssebop_version ImageCollection intersects).

Lemma export_id_of_for (L : locals) (d : Calendar.datetime) (X : string) (w : world) :
  export_id_for L d = Some X -> export_id_of L d w = (Ok X, w).
Proof.
  intros HX. destruct (export_id_of_value L d w) as (r & E & Hr).
  apply Hr in HX. now rewrite E, HX.
Qed.

Lemma asset_id_of_unassigned (L : locals) (d : Calendar.datetime)
    (dest : string) (w : world) :
  config_value (ini L) "EXPORT" "export_dest" = Some dest -> dest <> "ASSET" ->
  asset_id_of L d w = (Ok None, w).
Proof.
  intros Hdest Hne. destruct (asset_id_of_value L d w) as (r & E & Hr).
  rewrite E, (Hr dest Hdest).
  destruct (String.eqb_spec dest "ASSET"); [contradiction | reflexivity].
Qed.

(** A destination that passes the check of line 118 in another spelling
    than [ASSET] (say [asset]) never assigns [asset_id] at lines 207-211:
    without [overwrite], a date that has no pending task ends in the
    unbound-name error for [asset_id], and nothing is submitted. *)
Theorem other_spelling_unbound_asset_id
    (L : locals) (d : Calendar.datetime) (X dest : string) (w : world)
    (Hov : overwrite_flag L = false)
    (Hcal : calendar_skip L d = false)
    (Hdest : config_value (ini L) "EXPORT" "export_dest" = Some dest)
    (Hupper : upper dest = "ASSET")
    (Hspelling : dest <> "ASSET")
    (HX : export_id_for L d = Some X)
    (Htask : tasks L !! X = None) :
  body L d w = (Raise (UnboundLocalError "asset_id"), w).
Proof.
  unfold process_date. rewrite Hcal.
  rewrite (bind_ok _ _ _ _ _ (export_id_of_for L d X w HX)).
  rewrite (bind_ok _ _ _ _ _ (asset_id_of_unassigned L d dest w Hdest Hspelling)).
  apply bind_raise. unfold reconcile. rewrite Hov, Htask.
  rewrite bool_decide_eq_false_2 by (intros [? ?]; discriminate).
  rewrite (bind_ok _ _ _ _ _ (ini_get_value _ _ _ _ w Hdest)).
  rewrite Hupper. reflexivity.
Qed.

(** The same spelling with [overwrite]: the pending task of the date is
    cancelled, then the unbound-name error for [asset_id] ends the date;
    the export that was cancelled is not submitted again. *)
Theorem overwrite_other_spelling_cancels_only
    (L : locals) (d : Calendar.datetime) (X dest : string) (t : nat) (w : world)
    (Hov : overwrite_flag L = true)
    (Hcal : calendar_skip L d = false)
    (Hdest : config_value (ini L) "EXPORT" "export_dest" = Some dest)
    (Hupper : upper dest = "ASSET")
    (Hspelling : dest <> "ASSET")
    (HX : export_id_for L d = Some X)
    (Htask : tasks L !! X = Some t)
    (Hcall : failing w (calls w) = false) :
  body L d w = (Raise (UnboundLocalError "asset_id"), after_call (CancelTask t) w) /\
  actions (trace (after_call (CancelTask t) w)) = actions (trace w) ++ [Cancel t].
Proof.
  split; [|apply actions_after_call].
  unfold process_date. rewrite Hcal.
  rewrite (bind_ok _ _ _ _ _ (export_id_of_for L d X w HX)).
  rewrite (bind_ok _ _ _ _ _ (asset_id_of_unassigned L d dest w Hdest Hspelling)).
  apply bind_raise. unfold reconcile. rewrite Hov, Htask.
  rewrite bool_decide_eq_true_2 by eauto.
  unfold getitem. rewrite Htask.
  unfold bind, ret, load_var. rewrite call_ok by exact Hcall.
  rewrite (ini_get_value _ _ _ _ _ Hdest). rewrite Hupper. reflexivity.
Qed.

(** Without [overwrite] the loop never cancels a task or deletes an asset:
    whatever happens, all it does to the store is submit, at most once per
    date, and only for dates that the calendar lets through and whose
    export is neither pending nor present in the listings. *)
Theorem no_overwrite_only_submits
    (L : locals) (dates : list Calendar.datetime) (w w' : world) (r : result unit)
    (Hov : overwrite_flag L = false)
    (Hloop : loop L dates w = (r, w')) :
  exists subs,
    actions (trace w') = actions (trace w) ++ subs /\
    (List.length subs <= List.length dates)%nat /\
    assets (remote w') = assets (remote w) /\
    Forall (fun a => exists d X,
              d ∈ dates /\ calendar_skip L d = false /\
              export_id_for L d = Some X /\ tasks L !! X = None /\
              (asset_id_for L d ∉ asset_list L) /\
              a = Submit X (asset_id_for L d)) subs.
Proof.
  destruct (decide (config_value (ini L) "EXPORT" "export_dest" = Some "ASSET"))
    as [Hdest|Hdest].
  2:{ apply (loop_other_dest py_float tcorr_stats ssebop_version ImageCollection
               intersects L dates w w' r Hov Hdest) in Hloop as ->.
      exists []. rewrite app_nil_r. repeat split; [cbn; lia | constructor]. }
  revert w Hloop. induction dates as [|d ds IH]; intros w Hloop.
  - injection Hloop as _ <-. exists []. rewrite app_nil_r.
    repeat split; [cbn; lia | constructor].
  - cbn [date_loop] in Hloop. unfold bind in Hloop.
    destruct (body L d w) as [r1 wa] eqn:Hd.
    assert (exists subs1,
              actions (trace wa) = actions (trace w) ++ subs1 /\
              (List.length subs1 <= 1)%nat /\
              assets (remote wa) = assets (remote w) /\
              Forall (fun a => exists X,
                        calendar_skip L d = false /\
                        export_id_for L d = Some X /\ tasks L !! X = None /\
                        (asset_id_for L d ∉ asset_list L) /\
                        a = Submit X (asset_id_for L d)) subs1) as
      (subs1 & Ha1 & Hl1 & Hs1 & Hf1).
    { destruct (process_date_no_overwrite py_float tcorr_stats ssebop_version
                  ImageCollection intersects L d w wa r1 Hov Hdest Hd)
        as [(-> & _) | (Hcal & X & img & HX & Hj & Ha & Hcall)].
      - exists []. rewrite app_nil_r. repeat split; [cbn; lia | constructor].
      - destruct (call_cases (StartExport X (asset_id_for L d) img (grid L)) w)
          as [Hok | (wf & Hf & Htr & Hre)]; rewrite Hcall in *.
        + injection Hok as _ ->. exists [Submit X (asset_id_for L d)].
          split; [apply actions_after_call|]. split; [cbn; lia|].
          split; [reflexivity|]. constructor; [|constructor].
          exists X. repeat split; try assumption.
          destruct (tasks L !! X) eqn:E; [exfalso; apply Hj; eauto | reflexivity].
        + injection Hf as _ <-. exists []. rewrite app_nil_r, Htr, Hre.
          repeat split; [cbn; lia | constructor]. }
    assert (forall subs2,
              Forall (fun a => exists d0 X,
                        d0 ∈ ds /\ calendar_skip L d0 = false /\
                        export_id_for L d0 = Some X /\ tasks L !! X = None /\
                        (asset_id_for L d0 ∉ asset_list L) /\
                        a = Submit X (asset_id_for L d0)) subs2 ->
              Forall (fun a => exists d0 X,
                        d0 ∈ d :: ds /\ calendar_skip L d0 = false /\
                        export_id_for L d0 = Some X /\ tasks L !! X = None /\
                        (asset_id_for L d0 ∉ asset_list L) /\
                        a = Submit X (asset_id_for L d0)) (subs1 ++ subs2)) as Hcomb.
    { intros subs2 Hf2. apply Forall_app. split.
      - eapply Forall_impl; [exact Hf1|]. intros a (X & H). exists d, X.
        split; [apply elem_of_cons; auto | exact H].
      - eapply Forall_impl; [exact Hf2|]. intros a (d0 & X & Hin & H). exists d0, X.
        split; [apply elem_of_cons; auto | exact H]. }
    destruct r1 as [[]|e].
    + destruct (IH wa Hloop) as (subs2 & Ha2 & Hl2 & Hs2 & Hf2).
      exists (subs1 ++ subs2).
      split; [rewrite Ha2, Ha1; apply eq_sym, app_assoc|].
      split; [rewrite length_app; cbn [List.length]; lia|].
      split; [congruence|]. now apply Hcomb.
    + injection Hloop as _ <-. exists (subs1 ++ []).
      split; [now rewrite app_nil_r|].
      split; [rewrite length_app; cbn [List.length]; lia|].
      split; [assumption|]. apply Hcomb. constructor.
Qed.

End Destination.

Lemma other_spelling_unbound_asset_id_witness :
  Sample.run_date
    (Sample.locals0 SampleSettings.ini_lower_case
       false ∅ [])
    (Sample.jan 1) (Sample.world0 Sample.empty_store Sample.never)
  = (Raise (UnboundLocalError "asset_id"),
     Sample.world0 Sample.empty_store Sample.never).
Proof.
  apply (other_spelling_unbound_asset_id Sample.float_of_digits Sample.stats "0.1.0"
           Sample.catalogue (fun _ _ => true)
           (Sample.locals0 SampleSettings.ini_lower_case
              false ∅ [])
           (Sample.jan 1) (Sample.export_id "20200101") "asset").
  - reflexivity.
  - vm_compute. reflexivity.
  - vm_compute. reflexivity.
  - vm_compute. reflexivity.
  - discriminate.
  - vm_compute. reflexivity.
  - vm_compute. reflexivity.
Defined.

Lemma overwrite_other_spelling_cancels_only_witness :
  actions (trace (snd (Sample.run_date
    (Sample.locals0 SampleSettings.ini_lower_case
       true {[ Sample.export_id "20200101" := 7%nat ]} [])
    (Sample.jan 1) (Sample.world0 Sample.empty_store Sample.never))))
  = [Cancel 7].
Proof.
  destruct (overwrite_other_spelling_cancels_only Sample.float_of_digits Sample.stats
           "0.1.0" Sample.catalogue (fun _ _ => true)
           (Sample.locals0 SampleSettings.ini_lower_case
              true {[ Sample.export_id "20200101" := 7%nat ]} [])
           (Sample.jan 1) (Sample.export_id "20200101") "asset" 7%nat
           (Sample.world0 Sample.empty_store Sample.never)) as (E & Hact).
  - reflexivity.
  - vm_compute. reflexivity.
  - vm_compute. reflexivity.
  - vm_compute. reflexivity.
  - discriminate.
  - vm_compute. reflexivity.
  - vm_compute. reflexivity.
  - reflexivity.
  - unfold Sample.run_date. rewrite E. cbn [snd]. rewrite Hact. reflexivity.
Defined.

Lemma no_overwrite_only_submits_witness :
  exists subs,
    actions (trace (snd (Sample.run_loop SampleRuns.L0 SampleRuns.dates
                           (Sample.world0 Sample.empty_store Sample.never))))
    = [] ++ subs /\
    (List.length subs <= 2)%nat.
Proof.
  destruct (no_overwrite_only_submits Sample.float_of_digits Sample.stats "0.1.0"
              Sample.catalogue (fun _ _ => true) SampleRuns.L0 SampleRuns.dates
              (Sample.world0 Sample.empty_store Sample.never)
              (snd (Sample.run_loop SampleRuns.L0 SampleRuns.dates
                      (Sample.world0 Sample.empty_store Sample.never)))
              (fst (Sample.run_loop SampleRuns.L0 SampleRuns.dates
                      (Sample.world0 Sample.empty_store Sample.never))))
    as (subs & Ha & Hl & _).
  - reflexivity.
  - apply surjective_pairing.
  - exists subs. split; [exact Ha | exact Hl].
Defined.

(** ** From the selected scenes to the daily raster (lines 232-333) *)

Section DailyImage.
Variable tcorr_stats : scene -> Q -> gmap string Q.
Variable ssebop_version : string.
Variable ImageCollection : string -> list scene.
Variable intersects : geometry -> geometry -> bool.

Local Abbreviation image_of :=
  (build_image tcorr_stats ssebop_version ImageCollection intersects).
Local Abbreviation scenes_of := (landsat_coll ImageCollection intersects).
Local Abbreviation corrected := (tcorr_img_func tcorr_stats).

(** The images that survive the count filter are those of the scenes. *)
Lemma mapM_elem {A B} (f : A -> option B) (l : list A) (k : list B) (y : B) :
  mapM f l = Some k -> y ∈ k <-> exists x, x ∈ l /\ f x = Some y.
Proof.
  intros E. apply mapM_Some in E. induction E as [|x y' l k Hxy _ IH].
  - split; [intros H; inversion H | intros (x & H & _); inversion H].
  - rewrite elem_of_cons, IH. split.
    + intros [-> | (x0 & Hin & Hx0)]; [exists x | exists x0];
        (split; [apply elem_of_cons; auto | assumption]).
    + intros (x0 & Hin & Hx0). apply elem_of_cons in Hin as [-> | Hin].
      * left. congruence.
      * right. eauto.
Qed.

Lemma tcorr_img_coll_elem (L : locals) (td mp : Q) (coll : list scene)
    (imgs : list tcorr_image) (i : tcorr_image) :
  tcorr_img_coll tcorr_stats L td mp coll = Some imgs ->
  i ∈ imgs <->
  exists s, s ∈ coll /\ corrected L td s = Some i /\ Qltb (ti_count i) mp = false.
Proof.
  unfold tcorr_img_coll.
  destruct (mapM (corrected L td) coll) as [all|] eqn:E; [|discriminate].
  cbn. intros [= <-].
  rewrite list_elem_of_In, List.filter_In, <- list_elem_of_In, (mapM_elem _ _ _ _ E).
  rewrite negb_true_iff. split.
  - intros [(s & Hs & Hi) Hc]. eauto.
  - intros (s & Hs & Hi & Hc). eauto.
Qed.

(** The raster of a scene image: the Tmax mask plus the scene's
    correction, inside the scene's footprint. *)
Lemma scene_raster (L : locals) (td : Q) (s : scene) (i : tcorr_image) (p : pixel) :
  corrected L td s = Some i ->
  ti_raster i p =
    if footprint s p
    then match tmax_mask L p with Some v => Some (v + ti_tcorr i)%Q | None => None end
    else None.
Proof.
  unfold tcorr_img_func. intros H.
  destruct (with_defaults _ !! "tcorr_p5") as [t|]; [|discriminate].
  destruct (with_defaults _ !! "tcorr_count") as [c|]; [|discriminate].
  destruct (scene_id_of _) as [id|]; [|discriminate].
  cbn in H. injection H as <-. reflexivity.
Qed.

Lemma daily_image_raster (L : locals) (d : Calendar.datetime) (cc td mp : Q)
    (img : daily_image) :
  image_of L d cc td mp = Some img ->
  exists imgs,
    tcorr_img_coll tcorr_stats L td mp (scenes_of L cc d) = Some imgs /\
    img_raster img = tcorr_img L imgs.
Proof.
  unfold build_image.
  destruct (tcorr_img_coll _ _ _ _ _) as [imgs|]; [|discriminate].
  cbn. intros [= <-]. eauto.
Qed.

(** The daily image has a value at a pixel exactly where the Tmax mask has
    one and the pixel lies in the footprint of a scene selected for the
    date whose pixel count is not below the minimum. *)
Theorem daily_image_footprint
    (L : locals) (d : Calendar.datetime) (cc td mp : Q) (img : daily_image)
    (p : pixel)
    (Himg : image_of L d cc td mp = Some img) :
  is_Some (img_raster img p) <->
  is_Some (tmax_mask L p) /\
  exists s i, s ∈ scenes_of L cc d /\ footprint s p = true /\
              corrected L td s = Some i /\ Qltb (ti_count i) mp = false.
Proof.
  destruct (daily_image_raster L d cc td mp img Himg) as (imgs & Hcoll & ->).
  rewrite <- not_eq_None_Some, tcorr_img_none_iff.
  split.
  - intros Hnot. apply not_Forall_Exists in Hnot; [|intros i; apply _].
    apply Exists_exists in Hnot as (i & Hi & Hv).
    apply (tcorr_img_coll_elem L td mp _ _ i Hcoll) in Hi as (s & Hs & Hf & Hc).
    unfold compose in Hv. cbn beta in Hv.
    rewrite (scene_raster L td s i p Hf) in Hv.
    destruct (footprint s p) eqn:Hfoot; [|contradiction].
    destruct (tmax_mask L p) as [v|]; [|contradiction].
    split; [eauto|]. exists s, i. auto.
  - intros ([v Hv] & s & i & Hs & Hfoot & Hf & Hc) Hall.
    assert (i ∈ imgs) as Hi
      by (apply (tcorr_img_coll_elem L td mp _ _ i Hcoll); eauto).
    rewrite Forall_forall in Hall. specialize (Hall i Hi).
    rewrite (scene_raster L td s i p Hf), Hfoot, Hv in Hall. discriminate.
Qed.


End DailyImage.

Lemma daily_image_footprint_witness :
  exists img,
    build_image Sample.stats "0.1.0" Sample.catalogue (fun _ _ => true)
      SampleRuns.L0 (Sample.jan 2) 70 15 20 = Some img /\
    (is_Some (img_raster img (3, 5)) <->
     is_Some (tmax_mask SampleRuns.L0 (3, 5)) /\
     exists s i,
       s ∈ landsat_coll Sample.catalogue (fun _ _ => true) SampleRuns.L0 70
             (Sample.jan 2) /\
       footprint s (3, 5) = true /\
       tcorr_img_func Sample.stats SampleRuns.L0 15 s = Some i /\
       Qltb (ti_count i) 20 = false).
Proof.
  destruct (build_image Sample.stats "0.1.0" Sample.catalogue (fun _ _ => true)
              SampleRuns.L0 (Sample.jan 2) 70 15 20) as [img|] eqn:E;
    [|vm_compute in E; discriminate].
  exists img. split; [reflexivity|].
  apply (daily_image_footprint Sample.stats "0.1.0" Sample.catalogue
           (fun _ _ => true) SampleRuns.L0 (Sample.jan 2) 70 15 20 img (3, 5) E).
Defined.


(** ** [main]: month and year lists, destination (lines 117-144) *)

Section Defaults.
Variable py_float : string -> option Q.
Variable parse_int_set : string -> option (list Z).

Local Abbreviation ints := (int_list parse_int_set).

Lemma strictly_sorted (l : list Z) :
  Sorted Z.le l -> NoDup l -> StronglySorted Z.lt l.
Proof.
  intros Hs Hn. apply Sorted_StronglySorted in Hs; [|intros x y z; lia].
  induction Hs as [|x l Hs IH Hall]; [constructor|].
  apply NoDup_cons in Hn as [Hx Hn].
  constructor; [auto|].
  rewrite Forall_forall in *. intros y Hy.
  specialize (Hall y Hy). assert (x <> y) by (intros ->; contradiction). lia.
Qed.

Lemma int_list_value (ini : ini_file) (key : string) (dflt : list Z) (w : world) :
  ints ini key dflt w =
    (Ok match config_value ini "TCORR" key ≫= parse_int_set with
        | Some parsed => merge_sort Z.le (remove_dups parsed)
        | None => dflt
        end, w).
Proof.
  unfold int_list, try_except.
  destruct (ini_get_cases ini "TCORR" key w) as [(s & -> & E) | (-> & e & E)].
  - rewrite (bind_ok _ _ _ _ _ E). cbn.
    destruct (parse_int_set s); reflexivity.
  - rewrite (bind_raise _ _ _ _ _ E). reflexivity.
Qed.

(** Reading the month or year list never fails and changes nothing: when
    the key is there and parses, the result holds the parsed numbers in
    strictly increasing order, each once; in every other case it is the
    default. *)
Theorem int_list_sorted_or_default
    (ini : ini_file) (key : string) (dflt : list Z) (w : world) :
  exists l,
    ints ini key dflt w = (Ok l, w) /\
    match config_value ini "TCORR" key ≫= parse_int_set with
    | Some parsed => StronglySorted Z.lt l /\ forall x, x ∈ l <-> x ∈ parsed
    | None => l = dflt
    end.
Proof.
  eexists. split; [apply int_list_value|].
  destruct (config_value ini "TCORR" key ≫= parse_int_set) as [parsed|];
    [|reflexivity].
  split.
  - apply strictly_sorted; [apply (Sorted_merge_sort Z.le)|].
    rewrite merge_sort_Permutation. apply NoDup_remove_dups.
  - intros x. rewrite merge_sort_Permutation. apply elem_of_remove_dups.
Qed.

End Defaults.

Section Inspecting.

Lemma only_inspects_ret {A} (a : A) : only_inspects (ret a).
Proof. intros w r w' [= _ <-]. exists []. symmetry. apply app_nil_r. Qed.

Lemma only_inspects_raise {A} (e : exn) : only_inspects (raise (A := A) e).
Proof. intros w r w' [= _ <-]. exists []. symmetry. apply app_nil_r. Qed.

Lemma only_inspects_bind {A B} (m : M A) (k : A -> M B) :
  only_inspects m -> (forall a, only_inspects (k a)) -> only_inspects (bind m k).
Proof.
  intros Hm Hk w r w'. unfold bind.
  destruct (m w) as [[a|e] w1] eqn:E.
  - intros H. destruct (Hm _ _ _ E) as (ids1 & E1).
    destruct (Hk a _ _ _ H) as (ids2 & E2).
    exists (ids1 ++ ids2). rewrite E2, E1, fmap_app. symmetry. apply app_assoc.
  - intros [= _ <-]. exact (Hm _ _ _ E).
Qed.

Lemma only_inspects_bind_raise {A B} (e : exn) (k : A -> M B) :
  only_inspects (bind (raise e) k).
Proof. intros w r w' [= _ <-]. exists []. symmetry. apply app_nil_r. Qed.

Lemma only_inspects_ini_get (i : ini_file) (s k : string) :
  only_inspects (ini_get i s k).
Proof.
  intros w r w' H. rewrite (ini_get_pure i s k w w) in H.
  injection H as _ <-. exists []. symmetry. apply app_nil_r.
Qed.

Lemma only_inspects_getidx {A} (l : list A) (n : nat) : only_inspects (getidx l n).
Proof.
  unfold getidx. destruct (l !! n); [apply only_inspects_ret | apply only_inspects_raise].
Qed.

Lemma only_inspects_get_info (id : string) : only_inspects (call (GetInfo id)).
Proof.
  intros w r w'. unfold call. destruct (failing w (calls w)); intros [= _ <-].
  - exists []. symmetry. apply app_nil_r.
  - exists [id]. reflexivity.
Qed.

Lemma only_inspects_bind_value {B} (i : ini_file) (s k v : string)
    (K : string -> M B) :
  config_value i s k = Some v -> only_inspects (K v) ->
  only_inspects (bind (ini_get i s k) K).
Proof.
  intros Hv HK w r w'. rewrite (bind_ok _ _ _ _ _ (ini_get_value _ _ _ _ w Hv)).
  apply HK.
Qed.

Lemma always_raises_bind_value {B} (i : ini_file) (s k v : string)
    (K : string -> M B) :
  config_value i s k = Some v -> always_raises (K v) ->
  always_raises (bind (ini_get i s k) K).
Proof.
  intros Hv HK w. rewrite (bind_ok _ _ _ _ _ (ini_get_value _ _ _ _ w Hv)).
  apply HK.
Qed.

End Inspecting.

Section Destinations.
Variable py_float : string -> option Q.
Variable tcorr_stats : scene -> Q -> gmap string Q.
Variable ssebop_version : string.
Variable ImageCollection : string -> list scene.
Variable intersects : geometry -> geometry -> bool.
Variable parse_int_set : string -> option (list Z).
Variable tmax_first : string -> option tmax_image.

Local Abbreviation from_line_73 :=
  (main_from_line_73 py_float tcorr_stats ssebop_version ImageCollection intersects
     parse_int_set tmax_first).

Lemma only_inspects_cells (n : Z) (geo cs : Q) : only_inspects (cells n geo cs).
Proof.
  unfold cells.
  repeat first [ apply only_inspects_ret | apply only_inspects_raise
               | match goal with
                 | |- only_inspects (match ?x with _ => _ end) => destruct x
                 end ].
Qed.

Lemma only_inspects_resize_grid (ini : ini_file) (g : export_grid) :
  only_inspects (resize_grid py_float ini g).
Proof.
  unfold resize_grid.
  destruct (ini !! "EXPORT" ≫= _) as [s|]; [|apply only_inspects_ret].
  unfold float. destruct (py_float s);
    [apply only_inspects_bind; [apply only_inspects_ret | intros cs]
    |apply only_inspects_bind_raise].
  repeat (apply only_inspects_bind;
          [first [apply only_inspects_getidx | apply only_inspects_cells] | intros ?]).
  apply only_inspects_ret.
Qed.

(** A destination that is not [ASSET] in any spelling stops the run at
    line 123: lines 73-399 end in an exception, and all they did before
    was to ask the service for the description of the Tmax collection.
    No listing is requested and nothing is cancelled, deleted or
    submitted. *)
Theorem invalid_destination_stops_the_run
    (ini : ini_file) (overwrite : bool) (clock : Calendar.datetime)
    (model coll_id dest : string) (w w' : world) (r : result unit)
    (Hdest : config_value ini "EXPORT" "export_dest" = Some dest)
    (Hinvalid : upper dest <> "ASSET")
    (Hrun : from_line_73 ini overwrite clock model coll_id w = (r, w')) :
  (exists e, r = Raise e) /\
  exists ids, trace w' = trace w ++ ((fun id => Called (GetInfo id)) <$> ids).
Proof.
  apply String.eqb_neq in Hinvalid.
  split.
  - assert (always_raises (from_line_73 ini overwrite clock model coll_id)) as H.
    { unfold main_from_line_73. cbv zeta.
      do 8 (apply always_raises_bind; intros ?).
      apply (always_raises_bind_value _ _ _ dest _ Hdest).
      rewrite Hinvalid. apply always_raises_bind_raise. }
    destruct (H w) as (e & He). rewrite Hrun in He. eauto.
  - revert w r w' Hrun.
    change (only_inspects (from_line_73 ini overwrite clock model coll_id)).
    unfold main_from_line_73. cbv zeta.
    apply only_inspects_bind; [apply only_inspects_ini_get | intros tmax_name].
    apply only_inspects_bind; [apply only_inspects_getidx | intros tmax_source].
    apply only_inspects_bind; [apply only_inspects_getidx | intros tmax_version].
    apply only_inspects_bind; [apply only_inspects_get_info | intros _].
    apply only_inspects_bind;
      [destruct (tmax_first _); [apply only_inspects_ret | apply only_inspects_raise]
      | intros first].
    apply only_inspects_bind; [apply only_inspects_get_info | intros _].
    apply only_inspects_bind; [apply only_inspects_get_info | intros _].
    apply only_inspects_bind; [apply only_inspects_resize_grid | intros grid].
    apply (only_inspects_bind_value _ _ _ dest _ Hdest).
    rewrite Hinvalid. apply only_inspects_bind_raise.
Qed.

End Destinations.

Lemma invalid_destination_stops_the_run_witness :
  fst (main_from_line_73 Sample.float_of_digits Sample.stats "0.1.0" Sample.catalogue
         (fun _ _ => true) (fun _ => None) (fun _ => Some Sample.tmax0)
         SampleSettings.ini_drive false
         (Calendar.mkdate 2020 6 1) "SSEBOP"
         "projects/usgs-ssebop/tcorr/topowx_median_v0_daily"
         (Sample.world0 Sample.empty_store Sample.never))
  = Raise (ValueError "invalid export destination: DRIVE").
Proof.
  destruct (invalid_destination_stops_the_run Sample.float_of_digits Sample.stats
              "0.1.0" Sample.catalogue (fun _ _ => true) (fun _ => None)
              (fun _ => Some Sample.tmax0)
              SampleSettings.ini_drive false
              (Calendar.mkdate 2020 6 1) "SSEBOP"
              "projects/usgs-ssebop/tcorr/topowx_median_v0_daily" "DRIVE"
              (Sample.world0 Sample.empty_store Sample.never) _ _
              ltac:(vm_compute; reflexivity) ltac:(vm_compute; discriminate)
              (surjective_pairing _)) as [(e & He) _].
  vm_compute. reflexivity.
Defined.

(** ** Removal comes before the settings are read (lines 213-260) *)

Section Removal.
Variable py_float : string -> option Q.
Variable tcorr_stats : scene -> Q -> gmap string Q.
Variable ssebop_version : string.
Variable ImageCollection : string -> list scene.
Variable intersects : geometry -> geometry -> bool.

Local Abbreviation body :=
  (process_date py_float tcorr_stats ssebop_version ImageCollection intersects).

Lemma float_read_fails (i : ini_file) (s k : string) (w : world) :
  config_value i s k ≫= py_float = None ->
  exists e, bind (ini_get i s k) (float py_float) w = (Raise e, w).
Proof.
  intros Hnone.
  destruct (ini_get_cases i s k w) as [(v & Hv & E) | (_ & e & E)].
  - rewrite (bind_ok _ _ _ _ _ E). rewrite Hv in Hnone. cbn in Hnone.
    unfold float. rewrite Hnone. eauto.
  - rewrite (bind_raise _ _ _ _ _ E). eauto.
Qed.

(** With [overwrite], the pending task is cancelled and the existing
    asset deleted before the cloud cover setting is read at line 239: when
    that setting is missing or is not a number, the date ends in an
    exception after the removals of the decision table, and the export
    they were to make room for is not submitted. *)
Theorem overwrite_removes_before_settings_are_read
    (L : locals) (d : Calendar.datetime) (X : string) (w : world)
    (Hov : overwrite_flag L = true)
    (Hcal : calendar_skip L d = false)
    (Hdest : config_value (ini L) "EXPORT" "export_dest" = Some "ASSET")
    (HX : export_id_for L d = Some X)
    (Hcc : config_value (ini L) "INPUTS" "cloud_cover" ≫= py_float = None)
    (Hrel : reliable w) :
  exists e w',
    body L d w = (Raise e, w') /\
    actions (trace w') ++ [Submit X (asset_id_for L d)] =
    actions (trace w) ++
      decision_table (target_state_of L X (asset_id_for L d)) true
        (Cancel (default 0%nat (tasks L !! X))) (Delete (asset_id_for L d))
        (Submit X (asset_id_for L d)).
Proof.
  destruct (reconcile_table L X (asset_id_for L d) w Hdest Hrel)
    as (w1 & Hrec & _ & Hact).
  rewrite Hov in Hrec, Hact. cbn [orb] in Hrec, Hact.
  destruct (float_read_fails (ini L) "INPUTS" "cloud_cover" w1 Hcc) as (e & Hfail).
  exists e, w1. split; [|exact Hact].
  unfold process_date. rewrite Hcal.
  destruct (export_id_of_value L d w) as (r1 & E1 & Hr1).
  apply Hr1 in HX. subst r1. rewrite (bind_ok _ _ _ _ _ E1).
  destruct (asset_id_of_value L d w) as (r2 & E2 & Hr2).
  rewrite (Hr2 _ Hdest) in E2.
  change ("ASSET" =? "ASSET")%string with true in E2. cbv iota in E2.
  rewrite (bind_ok _ _ _ _ _ E2).
  rewrite (bind_ok _ _ _ _ _ Hrec). cbn [negb].
  apply bind_raise. exact Hfail.
Qed.

End Removal.

Lemma overwrite_removes_before_settings_are_read_witness :
  exists e w',
    Sample.run_date
      (Sample.locals0 SampleSettings.ini_no_cloud_cover true
         {[ Sample.export_id "20200102" := 7%nat ]} [Sample.asset_id "20200102"])
      (Sample.jan 2) (Sample.world0 Sample.empty_store Sample.never) = (Raise e, w') /\
    actions (trace w') ++ [Submit (Sample.export_id "20200102") (Sample.asset_id "20200102")]
    = [Cancel 7; Delete (Sample.asset_id "20200102");
       Submit (Sample.export_id "20200102") (Sample.asset_id "20200102")].
Proof.
  destruct (overwrite_removes_before_settings_are_read Sample.float_of_digits
              Sample.stats "0.1.0" Sample.catalogue (fun _ _ => true)
              (Sample.locals0 SampleSettings.ini_no_cloud_cover true
                 {[ Sample.export_id "20200102" := 7%nat ]}
                 [Sample.asset_id "20200102"])
              (Sample.jan 2) (Sample.export_id "20200102")
              (Sample.world0 Sample.empty_store Sample.never))
    as (e & w' & E & Hact).
  - reflexivity.
  - vm_compute. reflexivity.
  - vm_compute. reflexivity.
  - vm_compute. reflexivity.
  - vm_compute. reflexivity.
  - intros n. reflexivity.
  - exists e, w'. split; [exact E|].
    refine (eq_trans Hact _). vm_compute. reflexivity.
Defined.
